(** * easyeda2kicad: the board converter, embedded and verified

    The development embeds two source files of the repository:

    - [src/src/board.ts], the current converter (module [Board] below);
    - the earlier, self-contained version of the same converter, which
      still carries its own [kiUnits], [kiAngle], [kiCoords] and [kiAt]
      (module [Legacy] below).

    [board.ts] imports [flatten], [kiAngle], [kiAt], [kiCoords], [kiUnits]
    and [rotate] from [./common] and [computeArc] from [./svg-arc]; neither
    file is part of the sources at hand, so the converter is embedded over
    an interface [Imports] that supplies them.

    Conventions of the embedding:

    - a JavaScript number is a real number, an infinity or [NaN]
      ([number]); rounding and overflow of binary64 and the sign of zero
      are not modelled.  Where rounding decides, the expression of the
      source is evaluated on binary64 numbers ([Legacy.kiUnits64]).
      Integers the code obtains with [parseInt] and the net and layer
      counters are kept in [Z];
    - a string is a list of 8-bit characters: records are taken to be
      ASCII text, the white space [parseFloat], [parseInt] and [\s] skip
      is the ASCII white space, [parseFloat] reads the decimal number as
      written and [parseInt] an integer of any size;
    - a record is a [list string] of fields, a missing field reads as
      [None] (JavaScript's [undefined] on destructuring);
    - an object literal used as a table is an object like any other:
      [key in table] and [table[key]] find its own entries and, for the
      twelve names of [Object.prototype], the member inherited from there
      ([read] and [readName]);
    - converters run in a monad that threads the conversion state,
      collects the console warnings and propagates exceptions. *)

From Stdlib Require Import PrimFloat.
From Stdlib Require Import Reals Lra ZArith Lia String Ascii List Bool.
From stdpp Require Import base option list strings gmap pretty.

Local Open Scope string_scope.
Local Open Scope list_scope.
#[local] Set Warnings "-register-all,-inexact-float".

(** ** JavaScript numbers *)

Module JS.

Inductive number : Type :=
| NaN
| Inf (negative : bool)
| Fin (r : R).

Definition ofZ (z : Z) : number := Fin (IZR z).

Definition isNaN (n : number) : bool :=
  match n with NaN => true | _ => false end.

Definition Rltb (a b : R) : bool := if Rlt_dec a b then true else false.
Definition Reqb (a b : R) : bool := if Req_dec_T a b then true else false.

(** [a < b]; every comparison with [NaN] is false. *)
Definition lt (a b : number) : bool :=
  match a, b with
  | Fin p, Fin q => Rltb p q
  | Fin _, Inf neg => negb neg
  | Inf neg, Fin _ => neg
  | Inf na, Inf nb => na && negb nb
  | _, _ => false
  end.

Definition gt (a b : number) : bool := lt b a.

Definition neg (a : number) : number :=
  match a with
  | NaN => NaN
  | Inf s => Inf (negb s)
  | Fin r => Fin (- r)
  end.

Definition add (a b : number) : number :=
  match a, b with
  | Fin p, Fin q => Fin (p + q)
  | Fin _, Inf s | Inf s, Fin _ => Inf s
  | Inf s, Inf t => if Bool.eqb s t then Inf s else NaN
  | _, _ => NaN
  end.

Definition sub (a b : number) : number := add a (neg b).

Definition mul (a b : number) : number :=
  match a, b with
  | Fin p, Fin q => Fin (p * q)
  | Fin p, Inf s | Inf s, Fin p =>
      if Reqb p 0 then NaN else Inf (xorb s (Rltb p 0))
  | Inf s, Inf t => Inf (xorb s t)
  | _, _ => NaN
  end.

(** Truthiness of a number: neither zero nor [NaN]. *)
Definition truthy (a : number) : bool :=
  match a with
  | NaN => false
  | Inf _ => true
  | Fin r => negb (Reqb r 0)
  end.

Definition Math_abs (a : number) : number :=
  match a with
  | NaN => NaN
  | Inf _ => Inf false
  | Fin r => Fin (Rabs r)
  end.

(** [Math.max] and [Math.min] of two arguments: [NaN] if either is. *)
Definition Math_max (a b : number) : number :=
  match a, b with
  | NaN, _ | _, NaN => NaN
  | _, _ => if lt a b then b else a
  end.

Definition Math_min (a b : number) : number :=
  match a, b with
  | NaN, _ | _, NaN => NaN
  | _, _ => if lt b a then b else a
  end.

Definition floor (r : R) : Z := (up r - 1)%Z.
Definition trunc (r : R) : Z := if Rltb r 0 then (- floor (- r))%Z else floor r.

(** [Math.round]: the nearest integer, a tie going up. *)
Definition Math_round (a : number) : number :=
  match a with
  | Fin r => Fin (IZR (floor (r + / 2)))
  | _ => a
  end.

(** The remainder [a % b], with the sign of the dividend. *)
Definition rem (a b : number) : number :=
  match a, b with
  | Fin p, Fin q => if Reqb q 0 then NaN else Fin (p - q * IZR (trunc (p / q)))
  | Fin p, Inf _ => Fin p
  | _, _ => NaN
  end.

Definition Math_PI : number := Fin PI.

Definition Math_sin (a : number) : number :=
  match a with
  | Fin r => Fin (sin r)
  | _ => NaN
  end.

(** Division by a non-zero constant (the only divisions the converter has). *)
Definition div (a b : number) : number :=
  match a, b with
  | Fin p, Fin q => if Reqb q 0 then NaN else Fin (p / q)
  | Inf s, Fin q => if Reqb q 0 then NaN else Inf (xorb s (Rltb q 0))
  | Fin _, Inf _ => Fin 0
  | _, _ => NaN
  end.

(** Strict equality [a === b] of two numbers. *)
Definition eqb (a b : number) : bool :=
  match a, b with
  | Fin p, Fin q => Reqb p q
  | Inf s, Inf t => Bool.eqb s t
  | _, _ => false
  end.

(** ** JavaScript values *)

(** The values the converter handles: what a record field, a helper's
    argument or a child of an output node can be.  [Proto key] is the
    member [key] of [Object.prototype], which a table hands out for the
    name of one: a built-in function, or for [__proto__] the prototype
    itself.  It is an object, hence truthy; it has no method of a string
    and no element [0]. *)
Inductive value : Type :=
| undefined
| null
| Str (s : string)
| Num (n : number)
| Arr (items : list value)
| Proto (key : string).

Definition ofField (f : option string) : value :=
  match f with Some s => Str s | None => undefined end.

(** Truthiness of a value. *)
Definition truthyV (v : value) : bool :=
  match v with
  | undefined | null => false
  | Str s => negb (String.eqb s "")
  | Num n => truthy n
  | Arr _ | Proto _ => true
  end.

(** [v != null]: neither [null] nor [undefined]. *)
Definition notNullish (v : value) : bool :=
  match v with undefined | null => false | _ => true end.

(** ** Strings *)

Definition isWhite (c : ascii) : bool :=
  match c with
  | " "%char | "009"%char | "010"%char | "011"%char | "012"%char | "013"%char => true
  | _ => false
  end.

Definition isDigit (c : ascii) : bool :=
  let n := nat_of_ascii c in (48 <=? n)%nat && (n <=? 57)%nat.

Definition digitVal (c : ascii) : Z := Z.of_nat (nat_of_ascii c - 48).

Definition digitsVal (ds : list ascii) : Z :=
  fold_left (fun acc c => (10 * acc + digitVal c)%Z) ds 0%Z.

Fixpoint span (p : ascii -> bool) (l : list ascii) : list ascii * list ascii :=
  match l with
  | c :: l' => if p c then let (a, b) := span p l' in (c :: a, b) else ([], l)
  | [] => ([], [])
  end.

Fixpoint dropWhile (p : ascii -> bool) (l : list ascii) : list ascii :=
  match l with
  | c :: l' => if p c then dropWhile p l' else l
  | [] => []
  end.

Fixpoint startsWith (p l : list ascii) : bool :=
  match p, l with
  | [], _ => true
  | a :: p', b :: l' => Ascii.eqb a b && startsWith p' l'
  | _ :: _, [] => false
  end.

Definition chars (s : string) : list ascii := list_ascii_of_string s.

(** [m * 10^e] as a real. *)
Definition scale10 (m e : Z) : R :=
  if (0 <=? e)%Z then IZR (m * 10 ^ e) else (IZR m / IZR (10 ^ (- e)))%R.

(** An optional sign. *)
Definition signOf (l : list ascii) : bool * list ascii :=
  match l with
  | "-"%char :: r => (true, r)
  | "+"%char :: r => (false, r)
  | _ => (false, l)
  end.

(** The exponent part [e[+-]digits] of a decimal literal, when there is one. *)
Definition exponentOf (l : list ascii) : Z :=
  match l with
  | c :: r =>
      if Ascii.eqb c "e" || Ascii.eqb c "E" then
        let (s, r') := signOf r in
        let (ds, _) := span isDigit r' in
        match ds with
        | [] => 0%Z
        | _ => if s then (- digitsVal ds)%Z else digitsVal ds
        end
      else 0%Z
  | [] => 0%Z
  end.

(** [parseFloat] of a string: leading white space is skipped and the
    longest prefix that is a decimal literal is read; [NaN] when there is
    none. *)
Definition parseFloatS (s : string) : number :=
  let (sg, l) := signOf (dropWhile isWhite (chars s)) in
  if startsWith (chars "Infinity") l then Inf sg
  else
    let (ip, l1) := span isDigit l in
    let (fp, l2) :=
      match l1 with
      | "."%char :: r => span isDigit r
      | _ => ([], l1)
      end in
    match ip ++ fp with
    | [] => NaN
    | ds =>
        let m := digitsVal ds in
        Fin (scale10 (if sg then - m else m)%Z (exponentOf l2 - Z.of_nat (length fp)))
    end.

(** [parseFloat] of a value: the argument is first turned into a string,
    which for a number gives the number back and for [undefined], [null]
    and a member of [Object.prototype] a text that starts with no number.
    (An array is never passed.) *)
Definition parseFloat (v : value) : number :=
  match v with
  | Str s => parseFloatS s
  | Num n => n
  | _ => NaN
  end.

(** [parseInt(s, 10)]: an integer, or [None] for [NaN]. *)
Definition parseIntS (s : string) : option Z :=
  let (sg, l) := signOf (dropWhile isWhite (chars s)) in
  let (ds, _) := span isDigit l in
  match ds with
  | [] => None
  | _ => Some (if sg then - digitsVal ds else digitsVal ds)%Z
  end.

Definition parseInt (f : option string) : option Z :=
  match f with Some s => parseIntS s | None => None end.

(** [s.split(sep)] for a separator that is one character out of a set
    (a one-character string, or a character class as in [/[ ,LM]/]). *)
Fixpoint splitOn (p : ascii -> bool) (s : string) : list string :=
  match s with
  | EmptyString => [EmptyString]
  | String c s' =>
      if p c then EmptyString :: splitOn p s'
      else match splitOn p s' with
           | x :: xs => String c x :: xs
           | [] => [String c EmptyString]
           end
  end.

Definition split (sep : ascii) (s : string) : list string :=
  splitOn (Ascii.eqb sep) s.

(** [s.split(sep)] for a separator string of several characters; [skip]
    counts the characters of a separator still to be passed over. *)
Fixpoint splitStrFrom (sep : list ascii) (skip : nat) (s : string) : list string :=
  match s with
  | EmptyString => [EmptyString]
  | String c s' =>
      match skip with
      | S k => splitStrFrom sep k s'
      | O =>
          if startsWith sep (chars s)
          then EmptyString :: splitStrFrom sep (length sep - 1) s'
          else match splitStrFrom sep 0 s' with
               | x :: xs => String c x :: xs
               | [] => [String c EmptyString]
               end
      end
  end.

Definition splitStr (sep s : string) : list string := splitStrFrom (chars sep) 0 s.

(** [a.join(sep)] for an array of strings. *)
Fixpoint join (sep : string) (l : list string) : string :=
  match l with
  | [] => ""
  | [a] => a
  | a :: r => a +:+ sep +:+ join sep r
  end.

Fixpoint containsChar (c : ascii) (s : string) : bool :=
  match s with
  | EmptyString => false
  | String d s' => Ascii.eqb c d || containsChar c s'
  end.

Definition endsWith (s suffix : string) : bool :=
  startsWith (rev (chars suffix)) (rev (chars s)).

(** [s.replace(pat, by)] for a string pattern: the first occurrence only. *)
Fixpoint replaceFirst (pat : list ascii) (by_ : string) (s : string) : string :=
  if startsWith pat (chars s)
  then by_ +:+ string_of_list_ascii (drop (length pat) (chars s))
  else match s with
       | EmptyString => EmptyString
       | String c s' => String c (replaceFirst pat by_ s')
       end.

(** [s.replace(/[,\s]+/g, ' ')]: every run of commas and white space
    becomes one space. *)
Definition isSep (c : ascii) : bool := Ascii.eqb c "," || isWhite c.

Fixpoint collapseFrom (inRun : bool) (s : string) : string :=
  match s with
  | EmptyString => EmptyString
  | String c s' =>
      if isSep c
      then (if inRun then collapseFrom true s' else String " " (collapseFrom true s'))
      else String c (collapseFrom false s')
  end.

Definition collapseSeparators (s : string) : string := collapseFrom false s.

Definition firstChar (s : string) : option ascii :=
  match s with String c _ => Some c | EmptyString => None end.

Definition toStringZ (z : Z) : string := pretty z.

(** A template literal's rendering of a field that may be missing. *)
Definition showField (f : option string) : string :=
  match f with Some s => s | None => "undefined" end.

(** [a.indexOf(x)] for an array of strings; a missing field is found
    nowhere. *)
Fixpoint indexOfFrom (i : Z) (l : list string) (x : string) : Z :=
  match l with
  | [] => (-1)%Z
  | y :: l' => if String.eqb y x then i else indexOfFrom (i + 1)%Z l' x
  end.

Definition indexOf (l : list string) (x : option string) : Z :=
  match x with
  | Some s => indexOfFrom 0 l s
  | None => (-1)%Z
  end.

(** [f === s] for a record field and a string literal. *)
Definition fieldIs (f : option string) (s : string) : bool :=
  match f with Some t => String.eqb t s | None => false end.

(** An object literal used as a table.  [assoc] finds the entry the
    literal itself gives a key, its own property; a later entry for a key
    hides an earlier one, and a missing field is the key ["undefined"]. *)
Fixpoint assoc {A} (table : list (string * A)) (key : string) : option A :=
  match table with
  | [] => None
  | (k, v) :: rest => if String.eqb k key then Some v else assoc rest key
  end.

Definition lookupField {A} (table : list (string * A)) (key : option string) : option A :=
  assoc table (showField key).

(** The names of the members of [Object.prototype].  An object literal
    inherits them: [key in table] is true of them and [table[key]] reads
    the member, as for a key of the table's own. *)
Definition prototypeKeys : list string :=
    ["constructor"; "__defineGetter__"; "__defineSetter__"; "hasOwnProperty";
     "__lookupGetter__"; "__lookupSetter__"; "isPrototypeOf"; "propertyIsEnumerable";
     "toString"; "valueOf"; "__proto__"; "toLocaleString"].

Definition inherited (key : string) : bool := existsb (String.eqb key) prototypeKeys.

(** What [table[key]] reads: an entry of the table's own, a member
    inherited from [Object.prototype], or nothing ([undefined]).
    [key in table] is true in the first two cases. *)
Inductive entry (A : Type) : Type :=
| Own (a : A)
| Inherited (key : string)
| Missing.

Arguments Own {A} a.
Arguments Inherited {A} key.
Arguments Missing {A}.

Definition read {A} (table : list (string * A)) (key : option string) : entry A :=
  match lookupField table key with
  | Some a => Own a
  | None => if inherited (showField key) then Inherited (showField key) else Missing
  end.

(** [table[key]] as a value, for a table of strings. *)
Definition readName (table : list (string * string)) (key : option string) : value :=
  match read table key with
  | Own name => Str name
  | Inherited member => Proto member
  | Missing => undefined
  end.

(** ** Exceptions *)

Inductive exn : Type :=
| Error (message : string)
| TypeError (what : string).

Inductive outcome (A : Type) : Type :=
| Return (a : A)
| Throw (e : exn).

Arguments Return {A} a.
Arguments Throw {A} e.

Definition isThrow {A} (o : outcome A) : bool :=
  match o with Throw _ => true | Return _ => false end.

(** The consecutive point pairs of a coordinate list, as the loop
    [for (i = 0; i < coordList.length - 2; i += 2)] visits them: at each
    step the elements [i], [i + 1], [i + 2] and [i + 3], the last one
    possibly missing. *)
Fixpoint pointPairs {A} (f : value -> value -> value -> value -> A)
    (coordList : list string) : list A :=
  match coordList with
  | a :: b :: rest =>
      match rest with
      | c :: rest' => f (Str a) (Str b) (Str c) (ofField (head rest')) :: pointPairs f rest
      | [] => []
      end
  | _ => []
  end.

End JS.

(** ** The earlier version of the converter *)

Module Legacy.
Import JS.

Definition layers : list (string * string) :=
    [("1", "F.Cu"); ("2", "B.Cu"); ("3", "F.SilkS"); ("4", "B.SilkS");
     ("5", "F.Paste"); ("6", "B.Paste"); ("7", "F.Mask"); ("8", "B.Mask");
     ("10", "Edge.Cuts"); ("12", "Cmts.User"); ("13", "F.Fab"); ("14", "B.Fab")].

Record ICoordinates : Type := { x : number; y : number }.

(** [value * 10 * 0.0254], a string being parsed first; in a product
    [undefined] and a function are [NaN] and [null] is 0.  (An array is
    never passed.) *)
Definition kiUnits (v : value) : number :=
  let value :=
    match v with
    | Str s => parseFloatS s
    | Num n => n
    | null => Fin 0
    | undefined | Arr _ | Proto _ => NaN
    end in
  mul (mul value (ofZ 10)) (Fin 0.0254).


Definition kiAngle (v : value) : value :=
  let angle := parseFloat v in
  if negb (isNaN angle)
  then Num (if gt angle (ofZ 180) then neg (sub (ofZ 360) angle) else angle)
  else null.

Definition kiCoords (px py : value) : ICoordinates :=
  {| x := kiUnits (Num (sub (parseFloat px) (ofZ 4000)));
     y := kiUnits (Num (sub (parseFloat py) (ofZ 3000))) |}.

Definition origin : ICoordinates := {| x := Fin 0; y := Fin 0 |}.

Definition kiAt (px py angle : value) (parentCoords : option ICoordinates) : value :=
  let parent := default origin parentCoords in
  let coords := kiCoords px py in
  Arr [Str "at"; Num (sub (x coords) (x parent)); Num (sub (y coords) (y parent));
       kiAngle angle].

Definition kiStartEnd (startX startY endX endY : value)
    (parentCoords : option ICoordinates) : list value :=
  let parent := default origin parentCoords in
  let start := kiCoords startX startY in
  let end_ := kiCoords endX endY in
  [Arr [Str "start"; Num (sub (x start) (x parent)); Num (sub (y start) (y parent))];
   Arr [Str "end"; Num (sub (x end_) (x parent)); Num (sub (y end_) (y parent))]].

Definition convertVia (args nets : list string) (parentCoords : option ICoordinates) : value :=
  let px := args !! 0%nat in
  let py := args !! 1%nat in
  let diameter := args !! 2%nat in
  let net := args !! 3%nat in
  let drill := args !! 4%nat in
  Arr [Str "via";
       kiAt (ofField px) (ofField py) null parentCoords;
       Arr [Str "size"; Num (kiUnits (ofField diameter))];
       Arr [Str "drill"; Num (mul (kiUnits (ofField drill)) (ofZ 2))];
       Arr [Str "layers"; Str "F.Cu"; Str "B.Cu"];
       Arr [Str "net"; Num (ofZ (indexOf nets net))]].

Definition convertTrack (args nets : list string) (objName : string)
    (parentCoords : option ICoordinates) : outcome (list value) :=
  let width := args !! 0%nat in
  let layer := args !! 1%nat in
  let net := args !! 2%nat in
  let coords := args !! 3%nat in
  let locked := args !! 5%nat in
  let netId := indexOf nets net in
  match coords with
  | None => Throw (TypeError "coords.split")
  | Some coords =>
      let coordList := split " " coords in
      Return
        (pointPairs
           (fun a b c d =>
              let layerName := readName layers layer in
              Arr ([Str objName] ++ kiStartEnd a b c d parentCoords ++
                   [Arr [Str "width"; Num (kiUnits (ofField width))];
                    Arr [Str "layer"; layerName];
                    if (0 <? netId)%Z then Arr [Str "net"; Num (ofZ netId)] else null;
                    if fieldIs locked "1" then Arr [Str "status"; Num (ofZ 40000)] else null]))
           coordList)
  end.

Definition padShapes : list (string * string) :=
    [("ELLIPSE", "circle"); ("RECT", "rect"); ("OVAL", "oval"); ("POLYGON", "custom")].

Definition padLayers : list (string * list string) :=
    [("1", ["F.Cu"; "F.Paste"; "F.Mask"]);
     ("2", ["B.Cu"; "B.Paste"; "B.Mask"]);
     ("11", ["*.Cu"; "*.Paste"; "*.Mask"])].

Definition convertPad (args nets : list string) (parentCoords : option ICoordinates)
    : outcome value :=
  let shape := args !! 0%nat in
  let px := args !! 1%nat in
  let py := args !! 2%nat in
  let width := args !! 3%nat in
  let height := args !! 4%nat in
  let layerId := args !! 5%nat in
  let net := args !! 6%nat in
  let num := args !! 7%nat in
  let holeRadius := args !! 8%nat in
  let netId := indexOf nets net in
  let drill := kiUnits (ofField holeRadius) in
  let padNum := parseInt num in
  match read padLayers layerId with
  | Inherited _ | Missing => Throw (TypeError "layers[layerId] is not iterable")
  | Own ls =>
      Return
        (Arr [Str "pad";
              match padNum with Some n => Num (ofZ n) | None => ofField num end;
              Str (if gt drill (Fin 0) then "thru_hole" else "smd");
              readName padShapes shape;
              kiAt (ofField px) (ofField py) null parentCoords;
              Arr [Str "size"; Num (kiUnits (ofField width)); Num (kiUnits (ofField height))];
              Arr (Str "layers" :: map Str ls);
              if truthy drill then Arr [Str "drill"; Num (mul drill (ofZ 2))] else null;
              if (0 <? netId)%Z then Arr [Str "net"; Num (ofZ netId); ofField net] else null])
  end.

Definition convertHole (args : list string) (parentCoords : option ICoordinates) : value :=
  let px := args !! 0%nat in
  let py := args !! 1%nat in
  let radius := args !! 2%nat in
  let size := mul (kiUnits (ofField radius)) (ofZ 2) in
  Arr [Str "pad"; Str ""; Str "np_thru_hole"; Str "circle";
       kiAt (ofField px) (ofField py) null parentCoords;
       Arr [Str "size"; Num size; Num size];
       Arr [Str "drill"; Num size];
       Arr [Str "layers"; Str "*.Cu"; Str "*.Mask"]].

(** *** The rest of the earlier version

    Its texts, arcs and copper areas, its footprints, and the objects of
    a whole board.  The earlier version keeps no conversion state: the
    net list is only read.  What it writes to the console is kept with
    the answer of a converter. *)

(** [textLayer]: the layer of a text.  On a layer id that is no key of
    the table the name is [undefined] or a member of [Object.prototype],
    and neither has a method [replace]: the call throws. *)
Definition textLayer (layer : option string) (footprint isName : bool) : outcome value :=
  let layerName := readName layers layer in
  if footprint && isName then
    match layerName with
    | Str name => Return (Str (replaceFirst (chars ".SilkS") ".Fab" name))
    | _ => Throw (TypeError "layerName.replace")
    end
  else Return layerName.

Record fontCorrection : Type := { fontWidth : number; fontThickness : number }.

Definition fontTable : list (string * fontCorrection) :=
    [("NotoSerifCJKsc-Medium", {| fontWidth := Fin 0.8; fontThickness := Fin 0.3 |});
     ("NotoSansCJKjp-DemiLight", {| fontWidth := Fin 0.6; fontThickness := Fin 0.5 |})].

(** [font in fontTable ? fontTable[font] : { width: 1, thickness: 1 }].
    A member of [Object.prototype] has neither field, and a product
    with [undefined] is [NaN]. *)
Definition fontMultiplierOf (font : option string) : fontCorrection :=
  match read fontTable font with
  | Own correction => correction
  | Inherited _ => {| fontWidth := NaN; fontThickness := NaN |}
  | Missing => {| fontWidth := Fin 1; fontThickness := Fin 1 |}
  end.

(** [convertText]; reading [layerName[0]] of an [undefined] name throws,
    and of a member of [Object.prototype] gives [undefined]. *)
Definition convertText (args : list string) (objName : string)
    (parentCoords : option ICoordinates) : outcome value :=
  let type := args !! 0%nat in
  let px := args !! 1%nat in
  let py := args !! 2%nat in
  let lineWidth := args !! 3%nat in
  let angle := args !! 4%nat in
  let layer := args !! 6%nat in
  let fontSize := args !! 8%nat in
  let text := args !! 9%nat in
  let display := args !! 11%nat in
  let font := args !! 13%nat in
  match textLayer layer (String.eqb objName "fp_text") (fieldIs type "N") with
  | Throw e => Throw e
  | Return layerName =>
      let fontMultiplier := fontMultiplierOf font in
      let actualFontSize := mul (kiUnits (ofField fontSize)) (fontWidth fontMultiplier) in
      let node (mirror : value) : value :=
        Arr [Str objName;
             if String.eqb objName "fp_text"
             then Str (if fieldIs type "P" then "reference" else "value")
             else null;
             ofField text;
             kiAt (ofField px) (ofField py) (ofField angle) parentCoords;
             Arr [Str "layer"; layerName];
             if fieldIs display "none" then Str "hide" else null;
             Arr [Str "effects";
                  Arr [Str "font";
                       Arr [Str "size"; Num actualFontSize; Num actualFontSize];
                       Arr [Str "thickness";
                            Num (mul (kiUnits (ofField lineWidth))
                                     (fontThickness fontMultiplier))]];
                  Arr [Str "justify"; Str "left"; mirror]]] in
      match layerName with
      | Str name =>
          Return (node match firstChar name with
                       | Some "B"%char => Str "mirror"
                       | _ => null
                       end)
      | Proto _ => Return (node null)
      | _ => Throw (TypeError "layerName[0]")
      end
  end.

(** The match of [/^M\s*([\d.\s]+)A\s*([\d.\s]+)$/]: the pattern of the
    earlier version, whose groups take no minus sign. *)
Definition isArcChar (c : ascii) : bool :=
  isDigit c || Ascii.eqb c "." || isWhite c.

Definition captureGroup (chunk : list ascii) : option string :=
  match dropWhile isWhite chunk with
  | [] => (fun c => String c EmptyString) <$> last chunk
  | g => Some (string_of_list_ascii g)
  end.

Definition matchArcPath (s : string) : option (string * string) :=
  match chars s with
  | "M"%char :: l =>
      let (run1, l1) := span isArcChar l in
      match l1 with
      | "A"%char :: l2 =>
          let (run2, l3) := span isArcChar l2 in
          match l3 with
          | [] =>
              match captureGroup run1, captureGroup run2 with
              | Some g1, Some g2 => Some (g1, g2)
              | _, _ => None
              end
          | _ => None
          end
      | _ => None
      end
  | _ => None
  end.

(** [convertArc]: the half circle over the two ends of the arc.  The
    result of [exec] is destructured as it comes: on a path the pattern
    does not match it is [null], and the destructuring throws. *)
Definition convertArc (args : list string) : outcome value :=
  let width := args !! 0%nat in
  let layer := args !! 1%nat in
  let path := args !! 3%nat in
  match path with
  | None => Throw (TypeError "path.replace")
  | Some path =>
      match matchArcPath (collapseSeparators path) with
      | None => Throw (TypeError "exec(...) is not iterable")
      | Some (startPoint, arcParams) =>
          let startXY := split " " startPoint in
          let startX := startXY !! 0%nat in
          let startY := startXY !! 1%nat in
          let params := split " " arcParams in
          let endX := params !! 5%nat in
          let endY := params !! 6%nat in
          let start := kiCoords (ofField startX) (ofField startY) in
          let end_ := kiCoords (ofField endX) (ofField endY) in
          Return
            (Arr [Str "gr_arc";
                  Arr [Str "start";
                       Num (div (add (x start) (x end_)) (ofZ 2));
                       Num (div (add (y start) (y end_)) (ofZ 2))];
                  Arr [Str "end"; Num (x start); Num (y start)];
                  Arr [Str "angle"; Num (ofZ 180)];
                  Arr [Str "width"; Num (kiUnits (ofField width))];
                  Arr [Str "layer"; readName layers layer]])
      end
  end.

(** [convertFpArc]: the same half circle for an arc of a footprint, its
    path cut at the spaces; the coordinates of the footprint are not
    used. *)
Definition convertFpArc (args : list string) (parentCoords : ICoordinates)
    : outcome value :=
  let width := args !! 0%nat in
  let layer := args !! 1%nat in
  let path := args !! 3%nat in
  match path with
  | None => Throw (TypeError "path.split")
  | Some path =>
      let drawingParts := split " " path in
      let startX := drawingParts !! 1%nat in
      let startY := drawingParts !! 2%nat in
      let endX := drawingParts !! 9%nat in
      let endY := drawingParts !! 10%nat in
      let start := kiCoords (ofField startX) (ofField startY) in
      let end_ := kiCoords (ofField endX) (ofField endY) in
      Return
        (Arr [Str "fp_arc";
              Arr [Str "start";
                   Num (div (add (x start) (x end_)) (ofZ 2));
                   Num (div (add (y start) (y end_)) (ofZ 2))];
              Arr [Str "end"; Num (x end_); Num (y end_)];
              Arr [Str "angle"; Num (ofZ 180)];
              Arr [Str "width"; Num (kiUnits (ofField width))];
              Arr [Str "layer"; readName layers layer]])
  end.

(** The loop [for (i = 0; i < pointList.length; i += 2)] of
    [convertCopperArea]. *)
Fixpoint polygonPoints (pointList : list string) : list value :=
  match pointList with
  | a :: b :: rest =>
      let coords := kiCoords (Str a) (Str b) in
      Arr [Str "xy"; Num (x coords); Num (y coords)] :: polygonPoints rest
  | [a] =>
      let coords := kiCoords (Str a) undefined in
      [Arr [Str "xy"; Num (x coords); Num (y coords)]]
  | [] => []
  end.

Definition convertCopperArea (args nets : list string) : outcome value :=
  let layerId := args !! 1%nat in
  let net := args !! 2%nat in
  let points := args !! 3%nat in
  let clearanceWidth := args !! 4%nat in
  let netId := indexOf nets net in
  match points with
  | None => Throw (TypeError "points.split")
  | Some points =>
      let pointList :=
        List.filter (fun p => negb (isNaN (parseFloatS p))) (split " " points) in
      Return
        (Arr [Str "zone";
              Arr [Str "net"; Num (ofZ netId)];
              Arr [Str "net_name"; ofField net];
              Arr [Str "layer"; readName layers layerId];
              Arr [Str "hatch"; Str "edge"; Num (Fin 0.508)];
              Arr [Str "connect_pads";
                   Arr [Str "clearance"; Num (kiUnits (ofField clearanceWidth))]];
              Arr [Str "polygon"; Arr (Str "pts" :: polygonPoints pointList)]])
  end.

(** What a converter that writes to the console has done: its answer,
    and the lines it has written. *)
Record logged (A : Type) : Type := { answer : outcome A; output : list string }.

Arguments answer {A} l.
Arguments output {A} l.

Definition silent {A} (o : outcome A) : logged A := {| answer := o; output := [] |}.

Definition one (o : outcome value) : outcome (list value) :=
  match o with
  | Return v => Return [v]
  | Throw e => Throw e
  end.

(** One turn of the loop of [convertLib]: the nodes it pushes. *)
Definition convertLibShape (nets : list string) (coordinates : ICoordinates)
    (shape : string) : logged (list value) :=
  let shapeParts := split "~" shape in
  let kind := default "" (head shapeParts) in
  let shapeArgs := tail shapeParts in
  if String.eqb kind "TRACK" then
    silent (convertTrack shapeArgs nets "fp_line" (Some coordinates))
  else if String.eqb kind "TEXT" then
    silent (one (convertText shapeArgs "fp_text" (Some coordinates)))
  else if String.eqb kind "ARC" then silent (one (convertFpArc shapeArgs coordinates))
  else if String.eqb kind "HOLE" then
    silent (Return [convertHole shapeArgs (Some coordinates)])
  else if String.eqb kind "PAD" then
    silent (one (convertPad shapeArgs nets (Some coordinates)))
  else {| answer := Return []; output := [kind] |}.

(** A loop that pushes nodes and writes lines; a throw ends it. *)
Fixpoint forEach {A B} (body : A -> logged (list B)) (l : list A) : logged (list B) :=
  match l with
  | [] => silent (Return [])
  | a :: l' =>
      let this := body a in
      match answer this with
      | Throw e => {| answer := Throw e; output := output this |}
      | Return pushed =>
          let more := forEach body l' in
          {| answer :=
               match answer more with
               | Return nodes => Return (pushed ++ nodes)
               | Throw e => Throw e
               end;
             output := output this ++ output more |}
      end
  end.

Definition convertLib (args nets : list string) : logged value :=
  let px := args !! 0%nat in
  let py := args !! 1%nat in
  let id := args !! 5%nat in
  let shapeList := tail (splitStr "#@$" (join "~" args)) in
  let coordinates := kiCoords (ofField px) (ofField py) in
  let shapes := forEach (convertLibShape nets coordinates) shapeList in
  {| answer :=
       match answer shapes with
       | Return shapes =>
           Return (Arr ([Str "module";
                         Str ("Imported:" +:+ showField id);
                         Arr [Str "layer"; Str "F.Cu"];
                         kiAt (ofField px) (ofField py) undefined None] ++ shapes))
       | Throw e => Throw e
       end;
     output := output shapes |}.

(** [convertShape]: an array of nodes, or [null] for a kind it does not
    know. *)
Definition convertShape (shape : string) (nets : list string) : logged value :=
  let parts := split "~" shape in
  let type := default "" (head parts) in
  let args := tail parts in
  let array (o : outcome value) : outcome value :=
    match o with
    | Return v => Return (Arr [v])
    | Throw e => Throw e
    end in
  if String.eqb type "VIA" then silent (Return (Arr [convertVia args nets None]))
  else if String.eqb type "TRACK" then
    silent (match convertTrack args nets "segment" None with
            | Return nodes => Return (Arr nodes)
            | Throw e => Throw e
            end)
  else if String.eqb type "TEXT" then silent (array (convertText args "gr_text" None))
  else if String.eqb type "ARC" then silent (array (convertArc args))
  else if String.eqb type "COPPERAREA" then silent (array (convertCopperArea args nets))
  else if String.eqb type "LIB" then
    let lib := convertLib args nets in
    {| answer := array (answer lib); output := output lib |}
  else {| answer := Return null; output := ["Unsupported shape " +:+ type] |}.

(** [[].concat(...arr)]: an array is spread, anything else is kept as
    the element it is. *)
Definition flatten (arr : list value) : list value :=
  concat (map (fun v => match v with Arr items => items | _ => [v] end) arr).

(** [input.shape.map((shape) => convertShape(shape, nets))]: the first
    throw ends it. *)
Fixpoint mapShapes (nets : list string) (shapeList : list string) : logged (list value) :=
  match shapeList with
  | [] => silent (Return [])
  | shape :: rest =>
      let this := convertShape shape nets in
      match answer this with
      | Throw e => {| answer := Throw e; output := output this |}
      | Return v =>
          let more := mapShapes nets rest in
          {| answer :=
               match answer more with
               | Return vs => Return (v :: vs)
               | Throw e => Throw e
               end;
             output := output this ++ output more |}
      end
  end.

(** The list [outputObjs] of [convertBoard], for the net list the input
    came with: the empty name is put in front of the nets, every net
    gives a node and the converted shapes follow.  (The text
    [convertBoard] returns is made of these objects by [encodeObject] of
    [./spectra], which is not among the sources.) *)
Definition outputObjs (routerRuleNets shapeList : list string) : logged (list value) :=
  let nets := "" :: routerRuleNets in
  let shapes := mapShapes nets shapeList in
  {| answer :=
       match answer shapes with
       | Return shapes =>
           Return (imap (fun idx net => Arr [Str "net"; Num (ofZ (Z.of_nat idx)); Str net])
                        nets ++ flatten shapes)
       | Throw e => Throw e
       end;
     output := output shapes |}.

End Legacy.

(** ** The current converter: [board.ts] *)

Module Board.
Import JS.

Record ICoordinates : Type := { x : number; y : number }.

(** [IParentTransform]: the placement of a footprint, its origin and its
    angle; [{ ...kiCoords(x, y), angle: a }] builds one. *)
Record IParentTransform : Type := { origin : ICoordinates; angle : value }.

(** What [computeArc] returns, as far as [convertArc] reads it. *)
Record IArc : Type := { cx : number; cy : number; extent : number }.

(** What [board.ts] takes from outside and the sources at hand do not
    hold: the helpers of [./common], [computeArc] of [./svg-arc], and
    [Number.prototype.toFixed], whose digits are those of the binary
    representation the number model leaves out.  All of them are functions
    without effects. *)
Class Imports : Type := {
  flatten : list value -> list value;
  kiAngle : value -> value;
  kiAt : value -> value -> value -> option IParentTransform -> value;
  kiCoords : value -> value -> option IParentTransform -> ICoordinates;
  kiUnits : value -> number;
  rotate : ICoordinates -> value -> ICoordinates;
  computeArc :
    number -> number -> number -> number -> number -> bool -> bool ->
    number -> number -> IArc;
  toFixed : number -> nat -> string
}.

Record IConversionState : Type := { nets : list string; innerLayers : Z }.

(** A reference to an array on the heap. *)
Abbreviation loc := positive.

(** *** The conversion monad

    A converter reads and updates the conversion state, may write
    warnings to the console and may throw.  What it has done to the state
    before a throw stays done. *)

Record run (A : Type) : Type :=
  { result : outcome A; final : IConversionState; warnings : list string }.

Arguments result {A} r.
Arguments final {A} r.
Arguments warnings {A} r.

Definition M (A : Type) : Type := IConversionState -> run A.

Definition ret {A} (a : A) : M A :=
  fun st => {| result := Return a; final := st; warnings := [] |}.

Definition throw {A} (e : exn) : M A :=
  fun st => {| result := Throw e; final := st; warnings := [] |}.

Definition bind {A B} (m : M A) (k : A -> M B) : M B :=
  fun st =>
    let r := m st in
    match result r with
    | Return a =>
        let r' := k a (final r) in
        {| result := result r'; final := final r';
           warnings := warnings r ++ warnings r' |}
    | Throw e => {| result := Throw e; final := final r; warnings := warnings r |}
    end.

Definition warn (message : string) : M unit :=
  fun st => {| result := Return tt; final := st; warnings := [message] |}.

Definition get : M IConversionState :=
  fun st => {| result := Return st; final := st; warnings := [] |}.

Definition put (st : IConversionState) : M unit :=
  fun _ => {| result := Return tt; final := st; warnings := [] |}.

Notation "'let!' x ':=' m 'in' k" := (bind m (fun x => k))
  (at level 10, x name, m at level 100, k at level 200).
Notation "m ';;;' k" := (bind m (fun _ => k))
  (at level 100, k at level 200, right associativity).

(** *** Layers and nets *)

Definition layers : list (string * string) :=
    [("1", "F.Cu"); ("2", "B.Cu"); ("3", "F.SilkS"); ("4", "B.SilkS");
     ("5", "F.Paste"); ("6", "B.Paste"); ("7", "F.Mask"); ("8", "B.Mask");
     ("10", "Edge.Cuts"); ("11", "Edge.Cuts"); ("12", "Cmts.User");
     ("13", "F.Fab"); ("14", "B.Fab"); ("15", "Dwgs.User")].

(** [lo <= n && n <= hi] for the result of [parseInt]; false for [NaN]. *)
Definition between (lo hi : Z) (n : option Z) : bool :=
  match n with
  | Some i => (lo <=? i)%Z && (i <=? hi)%Z
  | None => false
  end.

(** What [getLayerName] returns: the name of a layer, [null], or, for
    an id that names a member of [Object.prototype], that member, which
    [id in layers] finds in the table as it finds the table's own keys. *)
Inductive resolved : Type :=
| Layer (name : string)
| NoLayer
| Member (key : string).

(** The value a node holds for the layer it was given. *)
Definition ofLayer (layerName : resolved) : value :=
  match layerName with
  | Layer name => Str name
  | NoLayer => null
  | Member key => Proto key
  end.

Definition getLayerName (id : option string) : M resolved :=
  match read layers id with
  | Own name => ret (Layer name)
  | Inherited key => ret (Member key)
  | Missing =>
      let intId := parseInt id in
      if between 21 50 intId then
        let innerLayerId := (default 0 intId - 20)%Z in
        let! st := get in
        put {| nets := nets st;
               innerLayers := Z.max (innerLayers st) innerLayerId |} ;;;
        ret (Layer ("In" +:+ toStringZ innerLayerId +:+ ".Cu"))
      else if between 99 199 intId then
        warn ("Warning: unsupported layer id: " +:+ toStringZ (default 0 intId)) ;;;
        ret NoLayer
      else throw (Error ("Missing layer id: " +:+ showField id))
  end%Z.

Section Converters.
Context {env : Imports}.

Definition kiStartEnd (startX startY endX endY : value)
    (parentCoords : option IParentTransform) : list value :=
  let start := kiCoords startX startY parentCoords in
  let end_ := kiCoords endX endY parentCoords in
  [Arr [Str "start"; Num (x start); Num (y start)];
   Arr [Str "end"; Num (x end_); Num (y end_)]].

Definition isCopper (layerName : string) : bool := endsWith layerName ".Cu".

Definition getNetId (netName : option string) : M Z :=
  match netName with
  | None => ret (-1)%Z
  | Some name =>
      if negb (truthyV (Str name)) then ret (-1)%Z
      else
        let! st := get in
        let index := indexOf (nets st) netName in
        if (0 <=? index)%Z then ret index
        else
          put {| nets := nets st ++ [name]; innerLayers := innerLayers st |} ;;;
          let! st' := get in
          ret (Z.of_nat (length (nets st')) - 1)%Z
  end.

Definition convertVia (args : list string) (parentCoords : option IParentTransform)
    : M value :=
  let px := args !! 0%nat in
  let py := args !! 1%nat in
  let diameter := args !! 2%nat in
  let net := args !! 3%nat in
  let drill := args !! 4%nat in
  let! netId := getNetId net in
  ret (Arr [Str "via";
            kiAt (ofField px) (ofField py) undefined parentCoords;
            Arr [Str "size"; Num (kiUnits (ofField diameter))];
            Arr [Str "drill"; Num (mul (kiUnits (ofField drill)) (ofZ 2))];
            Arr [Str "layers"; Str "F.Cu"; Str "B.Cu"];
            Arr [Str "net"; Num (ofZ netId)]]).

Definition convertTrack (args : list string) (objName : string)
    (parentCoords : option IParentTransform) : M (list value) :=
  let width := args !! 0%nat in
  let layer := args !! 1%nat in
  let net := args !! 2%nat in
  let coords := args !! 3%nat in
  let locked := args !! 5%nat in
  let! netId := getNetId net in
  let! coordList :=
    match coords with
    | Some c => ret (split " " c)
    | None => throw (TypeError "coords.split")
    end in
  let! layerName := getLayerName layer in
  match layerName with
  | NoLayer => ret []
  | Layer layerName =>
      let lineType :=
        if String.eqb objName "segment" && negb (isCopper layerName)
        then "gr_line" else objName in
      ret (pointPairs
             (fun a b c d =>
                Arr ([Str lineType] ++ kiStartEnd a b c d parentCoords ++
                     [Arr [Str "width"; Num (kiUnits (ofField width))];
                      Arr [Str "layer"; Str layerName];
                      if isCopper layerName && (0 <? netId)%Z
                      then Arr [Str "net"; Num (ofZ netId)] else null;
                      if fieldIs locked "1"
                      then Arr [Str "status"; Num (ofZ 40000)] else null]))
             coordList)
  | Member _ =>
      (* [isCopper] calls [layerName.endsWith], which the member has not:
         for a segment at once, otherwise in the first turn of the loop *)
      if String.eqb objName "segment" then throw (TypeError "layerName.endsWith")
      else
        match pointPairs (fun _ _ _ _ => tt) coordList with
        | [] => ret []
        | _ :: _ => throw (TypeError "layerName.endsWith")
        end
  end.

Definition textLayer (layer : option string) (footprint isName : bool)
    : M resolved :=
  let! layerName := getLayerName layer in
  match layerName with
  | Layer name =>
      if footprint && isName
      then ret (Layer (replaceFirst (chars ".SilkS") ".Fab" name))
      else ret layerName
  | NoLayer => ret layerName
  | Member _ =>
      (* the member is truthy and has no method [replace] *)
      if footprint && isName then throw (TypeError "layerName.replace")
      else ret layerName
  end.

Record fontCorrection : Type :=
  { fontWidth : number; fontHeight : number; fontThickness : number }.

Definition fontTable : list (string * fontCorrection) :=
    [("NotoSerifCJKsc-Medium",
      {| fontWidth := Fin 0.8; fontHeight := Fin 0.8; fontThickness := Fin 0.3 |});
     ("NotoSansCJKjp-DemiLight",
      {| fontWidth := Fin 0.6; fontHeight := Fin 0.6; fontThickness := Fin 0.5 |})].

(** [font in fontTable ? fontTable[font] : { width: 0.9, height: 1, thickness: 0.9 }].
    A member of [Object.prototype] has none of the three fields, and a
    product with [undefined] is [NaN]. *)
Definition fontMultiplierOf (font : option string) : fontCorrection :=
  match read fontTable font with
  | Own correction => correction
  | Inherited _ => {| fontWidth := NaN; fontHeight := NaN; fontThickness := NaN |}
  | Missing => {| fontWidth := Fin 0.9; fontHeight := Fin 1; fontThickness := Fin 0.9 |}
  end.

(** [layerName[0]] of what the resolver returned (not [null]). *)
Definition firstOf (layerName : resolved) : option ascii :=
  match layerName with
  | Layer name => firstChar name
  | _ => None
  end.

(** The two offsets [convertText] adds to the position of a text. *)
Definition xOffset (parsedAngle : number) : number :=
  sub (mul (Fin 0.5) (Fin (-1.28)))
      (mul (mul (Fin 1.5) (Fin 1.28))
           (Math_sin (div (mul Math_PI parsedAngle) (ofZ 180)))).

Definition yOffset (parsedAngle : number) : number :=
  add (mul (Fin 1.5) (Fin (-1.28)))
      (mul (Fin 2.54)
           (Math_sin (div (mul Math_PI parsedAngle) (ofZ 180)))).

Definition convertText (args : list string) (objName : string)
    (parentCoords : option IParentTransform) : M value :=
  let type := args !! 0%nat in
  let px := args !! 1%nat in
  let py := args !! 2%nat in
  let lineWidth := args !! 3%nat in
  let angle := args !! 4%nat in
  let layer := args !! 6%nat in
  let fontSize := args !! 8%nat in
  let text := args !! 9%nat in
  let display := args !! 11%nat in
  let font := args !! 13%nat in
  let! layerName := textLayer layer (String.eqb objName "fp_text") (fieldIs type "N") in
  match layerName with
  | NoLayer => ret null
  | Layer _ | Member _ =>
      let fontMultiplier := fontMultiplierOf font in
      let actualFontWidth := mul (kiUnits (ofField fontSize)) (fontWidth fontMultiplier) in
      let actualFontHeight := mul (kiUnits (ofField fontSize)) (fontHeight fontMultiplier) in
      let parsedAngle := parseFloat (ofField angle) in
      ret (Arr [Str objName;
                if String.eqb objName "fp_text"
                then Str (if fieldIs type "P" then "reference" else "value")
                else null;
                ofField text;
                kiAt (Num (add (parseFloat (ofField px)) (xOffset parsedAngle)))
                     (Num (add (parseFloat (ofField py)) (yOffset parsedAngle)))
                     (ofField angle) parentCoords;
                Arr [Str "layer"; ofLayer layerName];
                if fieldIs display "none" then Str "hide" else null;
                Arr [Str "effects";
                     Arr [Str "font";
                          Arr [Str "size"; Num actualFontHeight; Num actualFontWidth];
                          Arr [Str "thickness";
                               Num (mul (kiUnits (ofField lineWidth))
                                        (fontThickness fontMultiplier))]];
                     Arr [Str "justify"; Str "left";
                          match firstOf layerName with
                          | Some "B"%char => Str "mirror"
                          | _ => null
                          end]]])
  end.

(** The match of [/^M\s*([-\d.\s]+)A\s*([-\d.\s]+)$/]: the two groups.
    Neither [M] nor [A] is in the class of the groups, so each group is the
    whole run of class characters before [A] (or before the end), less the
    white space [\s*] takes first; when the run is white space only, the
    group keeps its last character. *)
Definition isArcChar (c : ascii) : bool :=
  Ascii.eqb c "-" || isDigit c || Ascii.eqb c "." || isWhite c.

Definition captureGroup (chunk : list ascii) : option string :=
  match dropWhile isWhite chunk with
  | [] => (fun c => String c EmptyString) <$> last chunk
  | g => Some (string_of_list_ascii g)
  end.

Definition matchArcPath (s : string) : option (string * string) :=
  match chars s with
  | "M"%char :: l =>
      let (run1, l1) := span isArcChar l in
      match l1 with
      | "A"%char :: l2 =>
          let (run2, l3) := span isArcChar l2 in
          match l3 with
          | [] =>
              match captureGroup run1, captureGroup run2 with
              | Some g1, Some g2 => Some (g1, g2)
              | _, _ => None
              end
          | _ => None
          end
      | _ => None
      end
  | _ => None
  end.

Definition convertArc (args : list string) (objName : string)
    (transform : option IParentTransform) : M value :=
  let width := args !! 0%nat in
  let layer := args !! 1%nat in
  let path := args !! 3%nat in
  let! layerName := getLayerName layer in
  match layerName with
  | NoLayer => ret null
  | Layer _ | Member _ =>
      match path with
      | None => throw (TypeError "path.replace")
      | Some path =>
          match matchArcPath (collapseSeparators path) with
          | None => warn ("Invalid arc path: " +:+ path) ;;; ret null
          | Some (startPoint, arcParams) =>
              let startXY := split " " startPoint in
              let startX := startXY !! 0%nat in
              let startY := startXY !! 1%nat in
              let params := split " " arcParams in
              let svgRx := params !! 0%nat in
              let svgRy := params !! 1%nat in
              let xAxisRotation := params !! 2%nat in
              let largeArc := params !! 3%nat in
              let sweep := params !! 4%nat in
              let endX := params !! 5%nat in
              let endY := params !! 6%nat in
              let start := kiCoords (ofField startX) (ofField startY) transform in
              let end_ := kiCoords (ofField endX) (ofField endY) transform in
              let transformAngle := default undefined (angle <$> transform) in
              let r :=
                rotate {| x := kiUnits (ofField svgRx); y := kiUnits (ofField svgRy) |}
                       (if truthyV transformAngle then transformAngle else Num (ofZ 0)) in
              let arc :=
                computeArc (x start) (y start) (x r) (y r)
                           (parseFloat (ofField xAxisRotation))
                           (fieldIs largeArc "1") (fieldIs sweep "1")
                           (x end_) (y end_) in
              let endPoint := if fieldIs sweep "1" then start else end_ in
              if isNaN (cx arc) || isNaN (cy arc) then
                warn ("Invalid arc: " +:+ path) ;;; ret null
              else
                ret (Arr [Str objName;
                          Arr [Str "start"; Num (cx arc); Num (cy arc)];
                          Arr [Str "end"; Num (x endPoint); Num (y endPoint)];
                          Arr [Str "angle"; Num (Math_abs (extent arc))];
                          Arr [Str "width"; Num (kiUnits (ofField width))];
                          Arr [Str "layer"; ofLayer layerName]])
          end
      end
  end.

Definition getDrill (holeRadius holeLength : number) : value :=
  if truthy holeRadius && truthy holeLength then
    Arr [Str "drill"; Str "oval"; Num (mul holeRadius (ofZ 2)); Num holeLength]
  else if truthy holeRadius then
    Arr [Str "drill"; Num (mul holeRadius (ofZ 2))]
  else null.

(** The [i]-th element of an array of numbers, destructured: a missing
    one is [undefined], which every use below turns into [NaN]. *)
Definition item (points : list number) (i : nat) : number := nth i points NaN.

Definition near (a b : number) : bool := lt (Math_abs (sub a b)) (Fin 0.01).

Definition isRectangle (points : list number) : bool :=
  if negb (length points =? 8)%nat then false
  else
    let x1 := item points 0 in let y1 := item points 1 in
    let x2 := item points 2 in let y2 := item points 3 in
    let x3 := item points 4 in let y3 := item points 5 in
    let x4 := item points 6 in let y4 := item points 7 in
    (near x1 x2 && near y2 y3 && near x3 x4 && near y4 y1) ||
    (near y1 y2 && near x2 x3 && near y3 y4 && near x4 x1).

Definition max4 (a b c d : number) : number := Math_max a (Math_max b (Math_max c d)).
Definition min4 (a b c d : number) : number := Math_min a (Math_min b (Math_min c d)).

Definition rectangleSize (points : list number) (rotation : number) : number * number :=
  let x1 := item points 0 in let y1 := item points 1 in
  let x2 := item points 2 in let y2 := item points 3 in
  let x3 := item points 4 in let y3 := item points 5 in
  let x4 := item points 6 in let y4 := item points 7 in
  let width := sub (max4 x1 x2 x3 x4) (min4 x1 x2 x3 x4) in
  let height := sub (max4 y1 y2 y3 y4) (min4 y1 y2 y3 y4) in
  if JS.eqb (rem (Math_round (Math_abs rotation)) (ofZ 180)) (ofZ 90)
  then (height, width) else (width, height).

(** The loop [for (i = 0; i < points.length; i += 2)] over a point list:
    the elements [i] and [i + 1], the second possibly missing. *)
Fixpoint pointListToPolygon (points : list string)
    (parentCoords : option IParentTransform) : list value :=
  match points with
  | a :: b :: rest =>
      let coords := kiCoords (Str a) (Str b) parentCoords in
      Arr [Str "xy"; Num (x coords); Num (y coords)] :: pointListToPolygon rest parentCoords
  | [a] =>
      let coords := kiCoords (Str a) undefined parentCoords in
      [Arr [Str "xy"; Num (x coords); Num (y coords)]]
  | [] => []
  end.

Definition padShapes : list (string * string) :=
    [("ELLIPSE", "circle"); ("RECT", "rect"); ("OVAL", "oval"); ("POLYGON", "custom")].

Definition padLayers : list (string * list string) :=
    [("1", ["F.Cu"; "F.Paste"; "F.Mask"]);
     ("2", ["B.Cu"; "B.Paste"; "B.Mask"]);
     ("11", ["*.Cu"; "*.Mask"])].

(** [padShapes[key] === 'custom'] *)
Definition isCustom (key : option string) : bool :=
  match read padShapes key with
  | Own kind => String.eqb kind "custom"
  | Inherited _ | Missing => false
  end.

Definition convertPad (args : list string) (transform : IParentTransform) : M value :=
  let shape := args !! 0%nat in
  let px := args !! 1%nat in
  let py := args !! 2%nat in
  let width := args !! 3%nat in
  let height := args !! 4%nat in
  let layerId := args !! 5%nat in
  let net := args !! 6%nat in
  let num := args !! 7%nat in
  let holeRadius := args !! 8%nat in
  let points := args !! 9%nat in
  let rotation := args !! 10%nat in
  let id := args !! 11%nat in
  let holeLength := args !! 12%nat in
  let centerCoords := kiCoords (ofField px) (ofField py) None in
  let polygonTransform :=
    {| origin := centerCoords; angle := Num (parseFloat (ofField rotation)) |} in
  match points with
  | None => throw (TypeError "points.split")
  | Some points =>
      let pointList := map (fun p => parseFloat (Str p)) (split " " points) in
      let pointsAreRectangle := isCustom shape && isRectangle pointList in
      let actualShape := if pointsAreRectangle then Some "RECT" else shape in
      let isCustomShape := isCustom actualShape in
      if isCustomShape && String.eqb points "" then
        warn ("PAD " +:+ showField id +:+ " is a polygon, but has no points defined") ;;;
        ret null
      else
        let! netId := getNetId net in
        let '(actualWidth, actualHeight) :=
          if pointsAreRectangle
          then rectangleSize pointList (parseFloat (ofField rotation))
          else (parseFloat (ofField width), parseFloat (ofField height)) in
        let padNum := parseInt num in
        let swap := gt actualWidth actualHeight in
        let realWidth := if swap then actualHeight else actualWidth in
        let realHeight := if swap then actualWidth else actualHeight in
        let realRotation :=
          if swap then sub (parseFloat (ofField rotation)) (ofZ 90)
          else parseFloat (ofField rotation) in
        match read padLayers layerId with
        | Inherited _ | Missing =>
            (* neither a member of [Object.prototype] nor [undefined] can be spread *)
            throw (TypeError "layers[layerId] is not iterable")
        | Own ls =>
            ret (Arr [Str "pad";
                      match padNum with Some n => Num (ofZ n) | None => ofField num end;
                      Str (if gt (kiUnits (ofField holeRadius)) (ofZ 0)
                           then "thru_hole" else "smd");
                      readName padShapes actualShape;
                      kiAt (ofField px) (ofField py) (Num realRotation) (Some transform);
                      Arr [Str "size";
                           Num (Math_max (kiUnits (Num realWidth)) (Fin 0.01));
                           Num (Math_max (kiUnits (Num realHeight)) (Fin 0.01))];
                      Arr (Str "layers" :: map Str ls);
                      getDrill (kiUnits (ofField holeRadius)) (kiUnits (ofField holeLength));
                      if (0 <? netId)%Z
                      then Arr [Str "net"; Num (ofZ netId); ofField net] else null;
                      if isCustomShape
                      then Arr [Str "primitives";
                                Arr [Str "gr_poly";
                                     Arr (Str "pts" ::
                                          pointListToPolygon (split " " points)
                                                             (Some polygonTransform));
                                     Arr [Str "width"; Num (Fin 0.1)]]]
                      else null])
        end
  end.

Definition convertPadToVia (args : list string) (parentCoords : option IParentTransform)
    : M value :=
  let shape := args !! 0%nat in
  let px := args !! 1%nat in
  let py := args !! 2%nat in
  let holeRadius := args !! 3%nat in
  let net := args !! 6%nat in
  let drill := args !! 8%nat in
  let locked := args !! 15%nat in
  let size := kiUnits (ofField holeRadius) in
  if negb (fieldIs shape "ELLIPSE") then
    let! pad :=
      convertPad args
        {| origin := kiCoords (ofField px) (ofField py) None; angle := Num (ofZ 0) |} in
    ret (Arr [Str "module";
              Str ("AutoGenerated:Pad_" +:+ toFixed size 2 +:+ "mm");
              if fieldIs locked "1" then Str "locked" else null;
              Arr [Str "layer"; Str "F.Cu"];
              kiAt (ofField px) (ofField py) undefined None;
              Arr [Str "attr"; Str "virtual"];
              Arr [Str "fp_text"; Str "reference"; Str "";
                   Arr [Str "at"; Num (ofZ 0); Num (ofZ 0)];
                   Arr [Str "layer"; Str "F.SilkS"]];
              Arr [Str "fp_text"; Str "value"; Str "";
                   Arr [Str "at"; Num (ofZ 0); Num (ofZ 0)];
                   Arr [Str "layer"; Str "F.SilkS"]];
              pad])
  else
    let! netId := getNetId net in
    ret (Arr [Str "via";
              kiAt (ofField px) (ofField py) undefined parentCoords;
              Arr [Str "size"; Num (kiUnits (ofField holeRadius))];
              Arr [Str "drill"; Num (mul (kiUnits (ofField drill)) (ofZ 2))];
              Arr [Str "layers"; Str "F.Cu"; Str "B.Cu"];
              Arr [Str "net"; Num (ofZ netId)]]).

Definition convertLibHole (args : list string) (transform : IParentTransform) : value :=
  let px := args !! 0%nat in
  let py := args !! 1%nat in
  let radius := args !! 2%nat in
  let size := mul (kiUnits (ofField radius)) (ofZ 2) in
  Arr [Str "pad"; Str ""; Str "np_thru_hole"; Str "circle";
       kiAt (ofField px) (ofField py) undefined (Some transform);
       Arr [Str "size"; Num size; Num size];
       Arr [Str "drill"; Num size];
       Arr [Str "layers"; Str "*.Cu"; Str "*.Mask"]].

Definition convertCircle (args : list string) (type : string)
    (parentCoords : option IParentTransform) : M value :=
  let px := args !! 0%nat in
  let py := args !! 1%nat in
  let radius := args !! 2%nat in
  let strokeWidth := args !! 3%nat in
  let layer := args !! 4%nat in
  let! layerName := getLayerName layer in
  match layerName with
  | NoLayer => ret null
  | Layer _ | Member _ =>
      let center := kiCoords (ofField px) (ofField py) parentCoords in
      ret (Arr [Str type;
                Arr [Str "center"; Num (x center); Num (y center)];
                Arr [Str "end"; Num (add (x center) (kiUnits (ofField radius)));
                     Num (y center)];
                Arr [Str "layer"; ofLayer layerName];
                Arr [Str "width"; Num (kiUnits (ofField strokeWidth))]])
  end.

(** [/[ ,LM]/], the separator of the point lists of paths. *)
Definition isPathSep (c : ascii) : bool :=
  Ascii.eqb c " " || Ascii.eqb c "," || Ascii.eqb c "L" || Ascii.eqb c "M".

(** [path.split(/[ ,LM]/).filter((p) => !isNaN(parseFloat(p)))] *)
Definition pathNumbers (path : string) : list string :=
  List.filter (fun p => negb (isNaN (parseFloatS p))) (splitOn isPathSep path).

(** The polygon of a path, or [None] for the [null] the function returns
    on a path with arcs. *)
Definition pathToPolygon (path : option string) (parentCoords : option IParentTransform)
    : M (option (list value)) :=
  match path with
  | None => throw (TypeError "path.indexOf")
  | Some path =>
      if containsChar "A" path then
        warn "Warning: SOLIDREGION with arcs/circles are not supported yet!" ;;;
        ret None
      else ret (Some (pointListToPolygon (pathNumbers path) parentCoords))
  end.

Definition convertPolygon (args : list string) (parentCoords : option IParentTransform)
    : M value :=
  let layerId := args !! 0%nat in
  let path := args !! 2%nat in
  let type := args !! 3%nat in
  if negb (fieldIs type "solid") then
    warn ("Warning: unsupported SOLIDREGION type in footprint: " +:+ showField type) ;;;
    ret null
  else
    let! layerName := getLayerName layerId in
    match layerName with
    | NoLayer => ret null
    | Layer _ | Member _ =>
        let! polygonPoints := pathToPolygon path parentCoords in
        match polygonPoints with
        | None => ret null
        | Some polygonPoints =>
            ret (Arr [Str "fp_poly";
                      Arr (Str "pts" :: polygonPoints);
                      Arr [Str "layer"; ofLayer layerName];
                      Arr [Str "width"; Num (ofZ 0)]])
        end
    end.

(** A loop whose body pushes some nodes; a throw ends it. *)
Fixpoint forEach {A B} (body : A -> M (list B)) (l : list A) : M (list B) :=
  match l with
  | [] => ret []
  | a :: l' =>
      let! pushed := body a in
      let! more := forEach body l' in
      ret (pushed ++ more)
  end.

(** [attrs[attrList[i]] = attrList[i + 1]] for [i = 0, 2, ...]. *)
Fixpoint readAttrs (attrList : list string) (attrs : list (string * value))
    : list (string * value) :=
  match attrList with
  | k :: v :: rest => readAttrs rest ((k, Str v) :: attrs)
  | [k] => (k, undefined) :: attrs
  | [] => attrs
  end.

(** [shape && shape[0] === 'pad' && shape[2] === 'smd'] *)
Definition isSmdPad (shape : value) : bool :=
  match shape with
  | Arr items =>
      match items !! 0%nat, items !! 2%nat with
      | Some (Str a), Some (Str b) => String.eqb a "pad" && String.eqb b "smd"
      | _, _ => false
      end
  | _ => false
  end.

(** The string a template literal makes of a string or of [undefined]
    (the footprint name is made of nothing else). *)
Definition showValue (v : value) : string :=
  match v with Str s => s | _ => "undefined" end.

Definition convertLibShape (id : option string) (transform : IParentTransform)
    (shape : string) : M (list value) :=
  let parts := split "~" shape in
  let type := default "" (head parts) in
  let shapeArgs := tail parts in
  if String.eqb type "TRACK" then convertTrack shapeArgs "fp_line" (Some transform)
  else if String.eqb type "TEXT" then
    let! node := convertText shapeArgs "fp_text" (Some transform) in ret [node]
  else if String.eqb type "ARC" then
    let! node := convertArc shapeArgs "fp_arc" (Some transform) in ret [node]
  else if String.eqb type "HOLE" then ret [convertLibHole shapeArgs transform]
  else if String.eqb type "PAD" then
    let! node := convertPad shapeArgs transform in ret [node]
  else if String.eqb type "CIRCLE" then
    let! node := convertCircle shapeArgs "fp_circle" (Some transform) in ret [node]
  else if String.eqb type "SOLIDREGION" then
    let! node := convertPolygon shapeArgs (Some transform) in ret [node]
  else
    warn ("Warning: unsupported shape " +:+ type +:+ " in footprint " +:+ showField id) ;;;
    ret [].

Definition convertLib (args : list string) : M value :=
  let px := args !! 0%nat in
  let py := args !! 1%nat in
  let attributes := args !! 2%nat in
  let rotation := args !! 3%nat in
  let id := args !! 5%nat in
  let locked := args !! 9%nat in
  let shapeList := tail (splitStr "#@$" (join "~" args)) in
  match attributes with
  | None => throw (TypeError "attributes.split")
  | Some attributes =>
      let attrs := readAttrs (split "`" attributes) [] in
      let transform :=
        {| origin := kiCoords (ofField px) (ofField py) None;
           angle := kiAngle (ofField rotation) |} in
      let! converted := forEach (convertLibShape id transform) shapeList in
      let shapes :=
        converted ++
        [Arr [Str "fp_text"; Str "user"; ofField id;
              Arr [Str "at"; Num (ofZ 0); Num (ofZ 0)];
              Arr [Str "layer"; Str "Cmts.User"];
              Arr [Str "effects";
                   Arr [Str "font";
                        Arr [Str "size"; Num (ofZ 1); Num (ofZ 1)];
                        Arr [Str "thickness"; Num (Fin 0.15)]]]]] in
      let isSmd := existsb isSmdPad shapes in
      let modAttrs := if isSmd then [Arr [Str "attr"; Str "smd"]] else [] in
      let package := default undefined (assoc attrs "package") in
      let footprintName :=
        "easyeda:" +:+ showValue (if truthyV package then package else ofField id) in
      ret (Arr ([Str "module";
                 Str footprintName;
                 if fieldIs locked "1" then Str "locked" else null;
                 Arr [Str "layer"; Str "F.Cu"];
                 kiAt (ofField px) (ofField py) (ofField rotation) None] ++
                modAttrs ++ shapes))
  end.

Definition convertCopperArea (args : list string) : M value :=
  let layerId := args !! 1%nat in
  let net := args !! 2%nat in
  let path := args !! 3%nat in
  let clearanceWidth := args !! 4%nat in
  let! netId := getNetId net in
  let! layerName := getLayerName layerId in
  match layerName with
  | NoLayer => ret null
  | Layer _ | Member _ =>
      match path with
      | None => throw (TypeError "path.split")
      | Some path =>
          let polygonPoints := pointListToPolygon (pathNumbers path) None in
          ret (Arr [Str "zone";
                    Arr [Str "net"; Num (ofZ netId)];
                    Arr [Str "net_name"; ofField net];
                    Arr [Str "layer"; ofLayer layerName];
                    Arr [Str "hatch"; Str "edge"; Num (Fin 0.508)];
                    Arr [Str "connect_pads";
                         Arr [Str "clearance"; Num (kiUnits (ofField clearanceWidth))]];
                    Arr [Str "polygon"; Arr (Str "pts" :: polygonPoints)]])
      end
  end.

Definition convertSolidRegion (args : list string) : M value :=
  let layerId := args !! 0%nat in
  let net := args !! 1%nat in
  let path := args !! 2%nat in
  let type := args !! 3%nat in
  let! layerName := getLayerName layerId in
  match layerName with
  | NoLayer => ret null
  | Layer _ | Member _ =>
      let! polygonPoints := pathToPolygon path None in
      let! netId := getNetId net in
      match polygonPoints with
      | None => ret null
      | Some polygonPoints =>
          if fieldIs type "cutout" then
            ret (Arr [Str "zone";
                      Arr [Str "net"; Num (ofZ netId)];
                      Arr [Str "net_name"; Str ""];
                      Arr [Str "hatch"; Str "edge"; Num (Fin 0.508)];
                      Arr [Str "layer"; ofLayer layerName];
                      Arr [Str "keepout";
                           Arr [Str "tracks"; Str "allowed"];
                           Arr [Str "vias"; Str "allowed"];
                           Arr [Str "copperpour"; Str "not_allowed"]];
                      Arr [Str "polygon"; Arr (Str "pts" :: polygonPoints)]])
          else if fieldIs type "solid" || fieldIs type "npth" then
            ret (Arr [Str "gr_poly";
                      Arr (Str "pts" :: polygonPoints);
                      Arr [Str "layer"; ofLayer layerName];
                      Arr [Str "width"; Num (ofZ 0)]])
          else
            warn ("Warning: unsupported SOLIDREGION type " +:+ showField type) ;;;
            ret null
      end
  end.

Definition convertHole (args : list string) : value :=
  let px := args !! 0%nat in
  let py := args !! 1%nat in
  let radius := args !! 2%nat in
  let locked := args !! 4%nat in
  let size := mul (kiUnits (ofField radius)) (ofZ 2) in
  Arr [Str "module";
       Str ("AutoGenerated:MountingHole_" +:+ toFixed size 2 +:+ "mm");
       if fieldIs locked "1" then Str "locked" else null;
       Arr [Str "layer"; Str "F.Cu"];
       kiAt (ofField px) (ofField py) undefined None;
       Arr [Str "attr"; Str "virtual"];
       Arr [Str "fp_text"; Str "reference"; Str "";
            Arr [Str "at"; Num (ofZ 0); Num (ofZ 0)];
            Arr [Str "layer"; Str "F.SilkS"]];
       Arr [Str "fp_text"; Str "value"; Str "";
            Arr [Str "at"; Num (ofZ 0); Num (ofZ 0)];
            Arr [Str "layer"; Str "F.SilkS"]];
       Arr [Str "pad"; Str ""; Str "np_thru_hole"; Str "circle";
            Arr [Str "at"; Num (ofZ 0); Num (ofZ 0)];
            Arr [Str "size"; Num size; Num size];
            Arr [Str "drill"; Num size];
            Arr [Str "layers"; Str "*.Cu"; Str "*.Mask"]]].

(** [convertShape]: an array of nodes, or [null] for an unknown kind. *)
Definition convertShape (shape : string) : M value :=
  let parts := split "~" shape in
  let type := default "" (head parts) in
  let args := tail parts in
  if String.eqb type "VIA" then
    let! node := convertVia args None in ret (Arr [node])
  else if String.eqb type "TRACK" then
    let! nodes := convertTrack args "segment" None in ret (Arr nodes)
  else if String.eqb type "TEXT" then
    let! node := convertText args "gr_text" None in ret (Arr [node])
  else if String.eqb type "ARC" then
    let! node := convertArc args "gr_arc" None in ret (Arr [node])
  else if String.eqb type "COPPERAREA" then
    let! node := convertCopperArea args in ret (Arr [node])
  else if String.eqb type "SOLIDREGION" then
    let! node := convertSolidRegion args in ret (Arr [node])
  else if String.eqb type "CIRCLE" then
    let! node := convertCircle args "gr_circle" None in ret (Arr [node])
  else if String.eqb type "HOLE" then ret (Arr [convertHole args])
  else if String.eqb type "LIB" then
    let! node := convertLib args in ret (Arr [node])
  else if String.eqb type "PAD" then
    let! node := convertPadToVia args None in ret (Arr [node])
  else
    warn ("Warning: unsupported shape " +:+ type) ;;;
    ret null.

(** *** The whole board *)

(** An [async] call of a converter: it runs at once and to its end, and
    what it returns or throws settles its promise; the caller goes on
    either way. *)
Definition settle {A} (m : M A) : M (outcome A) :=
  fun st =>
    let r := m st in
    {| result := Return (result r); final := final r; warnings := warnings r |}.

(** [input.shape.map(async (shape) => ...)]: every shape is converted, in
    order, whatever the earlier ones did. *)
Fixpoint mapAsync {A B} (f : A -> M B) (l : list A) : M (list (outcome B)) :=
  match l with
  | [] => ret []
  | a :: l' =>
      let! o := settle (f a) in
      let! os := mapAsync f l' in
      ret (o :: os)
  end.

(** [await Promise.all(promises)] over promises that are all settled:
    the values, or the first rejection in the order of the array. *)
Fixpoint awaitAll {A} (promises : list (outcome A)) : M (list A) :=
  match promises with
  | [] => ret []
  | Return a :: rest => let! more := awaitAll rest in ret (a :: more)
  | Throw e :: _ => throw e
  end.

Definition netNodes (table : list string) : list value :=
  imap (fun idx net => Arr [Str "net"; Num (ofZ (Z.of_nat idx)); Str net]) table.

Definition innerLayerRows (count : Z) : list value :=
  map (fun i => Arr [Num (ofZ i); Str ("In" +:+ toStringZ i +:+ ".Cu"); Str "signal"])
      (seqZ 1 count).

Definition layerRow (index : Z) (name kind : string) : value :=
  Arr [Num (ofZ index); Str name; Str kind].

Definition layerTable (innerRows : list value) : list value :=
  [layerRow 0 "F.Cu" "signal"] ++ innerRows ++
  [layerRow 31 "B.Cu" "signal"; layerRow 32 "B.Adhes" "user";
   layerRow 33 "F.Adhes" "user"; layerRow 34 "B.Paste" "user";
   layerRow 35 "F.Paste" "user"; layerRow 36 "B.SilkS" "user";
   layerRow 37 "F.SilkS" "user"; layerRow 38 "B.Mask" "user";
   layerRow 39 "F.Mask" "user"; layerRow 40 "Dwgs.User" "user";
   layerRow 41 "Cmts.User" "user"; layerRow 42 "Eco1.User" "user";
   layerRow 43 "Eco2.User" "user"; layerRow 44 "Edge.Cuts" "user";
   layerRow 45 "Margin" "user"; layerRow 46 "B.CrtYd" "user";
   layerRow 47 "F.CrtYd" "user";
   Arr [Num (ofZ 48); Str "B.Fab"; Str "user"; Str "hide"];
   Arr [Num (ofZ 49); Str "F.Fab"; Str "user"; Str "hide"]].

(** [nets.unshift('')] *)
Definition unshiftNets (name : string) : M unit :=
  let! st := get in
  put {| nets := name :: nets st; innerLayers := innerLayers st |}.

(** The body of [convertBoardToArray], run on the conversion state
    [{ nets, innerLayers: 0 }]. *)
Definition convertShapes (shapeList : list string) : M value :=
  unshiftNets "" ;;;
  let! promises := mapAsync convertShape shapeList in
  let! converted := awaitAll promises in
  let shapes := flatten converted in
  let! st := get in
  let outputObjs := List.filter notNullish (netNodes (nets st) ++ shapes) in
  let innerRows := innerLayerRows (innerLayers st) in
  ret (Arr ([Str "kicad_pcb";
             Arr [Str "version"; Num (ofZ 20171130)];
             Arr [Str "host"; Str "pcbnew"; Str "(5.1.5)-3"];
             Arr [Str "page"; Str "A4"];
             Arr (Str "layers" :: layerTable innerRows)] ++ outputObjs)).

(** The input board.  Its net list is an array on the heap that
    [input.routerRule] refers to, and the conversion state is given that
    very array: what the run does to the table it does to the input. *)
Record IEasyEDABoard : Type := { routerRule : option loc; shape : list string }.

Record completion : Type :=
  { settled : outcome value; heapAfter : gmap loc (list string); console : list string }.

Definition convertBoardToArray (input : IEasyEDABoard) (heap : gmap loc (list string))
    : completion :=
  match routerRule input with
  | Some l =>
      match heap !! l with
      | Some table =>
          let r := convertShapes (shape input) {| nets := table; innerLayers := 0 |} in
          {| settled := result r;
             heapAfter := <[l := nets (final r)]> heap;
             console := warnings r |}
      | None =>
          {| settled := Throw (TypeError "nets.unshift"); heapAfter := heap; console := [] |}
      end
  | None =>
      let r := convertShapes (shape input) {| nets := []; innerLayers := 0 |} in
      {| settled := result r; heapAfter := heap; console := warnings r |}
  end.

End Converters.
End Board.

(** ** The earlier version's helpers as an instance of the interface

    To run the converter on concrete records, the interface is filled
    with what the earlier version has: its [kiUnits], [kiAngle],
    [kiCoords] and [kiAt] (a child is placed by translation only, the
    earlier version knowing no rotated parent), its [flatten], and for an
    arc the half circle over the two end points that its [convertArc]
    draws. *)

Module Earlier.
Import JS.

Definition parent (t : option Board.IParentTransform) : Legacy.ICoordinates :=
  match t with
  | Some t =>
      {| Legacy.x := Board.x (Board.origin t); Legacy.y := Board.y (Board.origin t) |}
  | None => Legacy.origin
  end.

Definition kiCoords (px py : value) (t : option Board.IParentTransform)
    : Board.ICoordinates :=
  let c := Legacy.kiCoords px py in
  {| Board.x := sub (Legacy.x c) (Legacy.x (parent t));
     Board.y := sub (Legacy.y c) (Legacy.y (parent t)) |}.

(** [[].concat(...arr)]: an array element is spread, anything else is
    kept as it is. *)
Definition flatten (arr : list value) : list value :=
  concat (map (fun v => match v with Arr items => items | _ => [v] end) arr).

Definition halfCircle (x0 y0 rx ry rotation : number) (largeArc sweep : bool)
    (x1 y1 : number) : Board.IArc :=
  {| Board.cx := mul (add x0 x1) (Fin (/ 2));
     Board.cy := mul (add y0 y1) (Fin (/ 2));
     Board.extent := ofZ 180 |}.

(** [toFixed] on the decimal expansion of the real number. *)
Definition digitsOf (n : Z) (width : nat) : string :=
  let s := toStringZ n in
  string_of_list_ascii (replicate (width - String.length s) "0"%char) +:+ s.

Definition toFixed (n : number) (digits : nat) : string :=
  match n with
  | NaN => "NaN"
  | Inf s => if s then "-Infinity" else "Infinity"
  | Fin r =>
      let scaled := floor (Rabs r * IZR (10 ^ Z.of_nat digits) + / 2) in
      let whole := (scaled / 10 ^ Z.of_nat digits)%Z in
      let part := (scaled mod 10 ^ Z.of_nat digits)%Z in
      (if Rltb r 0 then "-" else "") +:+ toStringZ whole +:+
      (if (digits =? 0)%nat then "" else "." +:+ digitsOf part digits)
  end.

#[export] Instance imports : Board.Imports :=
  {| Board.flatten := flatten;
     Board.kiAngle := Legacy.kiAngle;
     Board.kiAt := fun px py a t => Legacy.kiAt px py a (Some (parent t));
     Board.kiCoords := kiCoords;
     Board.kiUnits := Legacy.kiUnits;
     Board.rotate := fun c _ => c;
     Board.computeArc := halfCircle;
     Board.toFixed := toFixed |}.

End Earlier.

(** ** Predicates of the specification *)

Module Spec.
Import JS Board.

(** The conversion state [st'] extends [st]: the net table has only grown
    at its end, and the inner-layer count has not gone down. *)
Definition extends (st st' : IConversionState) : Prop :=
  nets st `prefix_of` nets st' /\ (innerLayers st <= innerLayers st')%Z.

(** A computation that only ever extends the state it is given. *)
Definition growing {A} (m : M A) : Prop :=
  forall st, extends st (final (m st)).

(** A computation that throws whatever the state it is run in. *)
Definition throwsAlways {A} (m : M A) : Prop :=
  forall st, isThrow (result (m st)) = true.

(** A layer id the resolver finds nothing for: it is no key of the
    table, names no member of [Object.prototype], and is in neither of
    the two bands. *)
Definition unknownLayer (id : option string) : bool :=
  match read layers id with
  | Own _ | Inherited _ => false
  | Missing => negb (between 21 50 (parseInt id)) && negb (between 99 199 (parseInt id))
  end.

(** The field of a top-level record that holds its layer id, for the
    kinds of shape that have one. *)
Definition layerField (kind : string) : option nat :=
  if String.eqb kind "TRACK" then Some 1%nat
  else if String.eqb kind "TEXT" then Some 6%nat
  else if String.eqb kind "ARC" then Some 1%nat
  else if String.eqb kind "COPPERAREA" then Some 1%nat
  else if String.eqb kind "SOLIDREGION" then Some 0%nat
  else if String.eqb kind "CIRCLE" then Some 4%nat
  else None.

(** The same for a record inside a footprint; a filled region resolves
    its layer only when its type is ['solid']. *)
Definition libLayerField (kind : string) (args : list string) : option nat :=
  if String.eqb kind "TRACK" then Some 1%nat
  else if String.eqb kind "TEXT" then Some 6%nat
  else if String.eqb kind "ARC" then Some 1%nat
  else if String.eqb kind "CIRCLE" then Some 4%nat
  else if String.eqb kind "SOLIDREGION" && fieldIs (args !! 3%nat) "solid" then Some 0%nat
  else None.

(** A not-a-number somewhere in a node. *)
Fixpoint hasNaN (v : value) : bool :=
  match v with
  | Num n => isNaN n
  | Arr items => existsb hasNaN items
  | _ => false
  end.

(** A polygon pad without points, which [convertPad] drops. *)
Definition droppedPolygon (args : list string) : bool :=
  isCustom (args !! 0%nat) && fieldIs (args !! 9%nat) "".

(** The angle normalization in the words of the specification: an angle
    above 180 degrees is taken down by a full turn. *)
Definition toAngle (degrees : R) : R :=
  if Rlt_dec 180 degrees then (degrees - 360)%R else degrees.

End Spec.

(** ** Predicates of the further properties *)

Module Laws.
Import JS Board.

(** A relation between conversion states that holds from the state a
    computation is given to the state it leaves. *)
Definition respects (R : IConversionState -> IConversionState -> Prop)
    {A} (m : M A) : Prop :=
  forall st, R st (final (m st)).

(** A property of the conversion state that, once it holds, holds on. *)
Definition keeps (P : IConversionState -> Prop) (st st' : IConversionState) : Prop :=
  P st -> P st'.

(** The net table names every net once. *)
Definition distinctNets (st : IConversionState) : Prop := NoDup (nets st).


(** The conversion state after [nets.unshift('')]. *)
Definition seeded (st : IConversionState) : IConversionState :=
  {| nets := "" :: nets st; innerLayers := innerLayers st |}.

(** The first rejection among settled promises, in the order of the array. *)
Fixpoint firstThrow {A} (promises : list (outcome A)) : option exn :=
  match promises with
  | [] => None
  | Throw e :: _ => Some e
  | Return _ :: rest => firstThrow rest
  end.

(** The nodes of the document before the nets: the header and the layer
    table for [count] inner layers. *)
Definition preamble (count : Z) : list value :=
  [Str "kicad_pcb";
   Arr [Str "version"; Num (ofZ 20171130)];
   Arr [Str "host"; Str "pcbnew"; Str "(5.1.5)-3"];
   Arr [Str "page"; Str "A4"];
   Arr (Str "layers" :: layerTable (innerLayerRows count))].

(** What [convertShape] answers for a shape it has left out: [null], or
    the array that holds the one [null] of its converter. *)
Definition leftOut (v : value) : bool :=
  match v with
  | null => true
  | Arr [null] => true
  | _ => false
  end.

(** A computation that, when it does not throw, leaves an inner-layer
    count of at least [bound]. *)
Definition raisesTo (bound : Z) {A} (m : M A) : Prop :=
  forall st, isThrow (result (m st)) = false -> (bound <= innerLayers (final (m st)))%Z.

(** The conversion state after the shapes of a list have been converted
    one after another, each on the state its predecessor left, whether
    that one returned or threw. *)
Definition stateAfter {env : Imports} (shapeList : list string) (st : IConversionState)
    : IConversionState :=
  fold_left (fun s shape => final (convertShape shape s)) shapeList st.

(** A number that is not below [bound]: not a number at all, plus
    infinity, or a real number of at least [bound]. *)
Definition notBelow (bound : R) (n : number) : Prop :=
  match n with
  | NaN => True
  | Inf negative => negative = false
  | Fin r => (bound <= r)%R
  end.

(** The name of the [j]-th inner copper layer. *)
Definition innerLayerName (j : Z) : string := "In" +:+ toStringZ j +:+ ".Cu".

(** Where [textLayer] puts the name of a footprint: off the silkscreen,
    on the fabrication layer of the same side. *)
Definition offSilk (name : string) : string :=
  if String.eqb name "F.SilkS" then "F.Fab"
  else if String.eqb name "B.SilkS" then "B.Fab"
  else name.

(** The corners of a rectangle with its sides along the axes, one after
    another, the first side along [x] or along [y]. *)
Definition cornersAlongX (a b c d : R) : list number :=
  [Fin a; Fin b; Fin c; Fin b; Fin c; Fin d; Fin a; Fin d].

Definition cornersAlongY (a b c d : R) : list number :=
  [Fin a; Fin b; Fin a; Fin d; Fin c; Fin d; Fin c; Fin b].

(** A run of characters a group of the arc pattern can match: not
    empty, and made of digits, minus signs, dots and white space. *)
Definition arcRun (run : list ascii) : Prop :=
  run <> [] /\ Forall (fun c => isArcChar c = true) run.

(** The paths the arc pattern matches: [M], a run, [A], a run. *)
Definition arcPath (s : string) : Prop :=
  exists run1 run2,
    arcRun run1 /\ arcRun run2 /\ chars s = "M"%char :: run1 ++ "A"%char :: run2.

(** The conversion state [convertBoardToArray] starts the shapes in:
    the net list of the input, or an empty one of its own, with the
    empty name in front, and no inner layer. *)
Definition initial (input : IEasyEDABoard) (heap : gmap loc (list string))
    : IConversionState :=
  seeded {| nets := match routerRule input with
                    | Some l => default [] (heap !! l)
                    | None => []
                    end;
            innerLayers := 0 |}.

(** What the shapes of a list write to the console when they are
    converted one after another. *)
Fixpoint consoleAfter {env : Imports} (shapeList : list string) (st : IConversionState)
    : list string :=
  match shapeList with
  | [] => []
  | shape :: rest =>
      warnings (convertShape shape st) ++ consoleAfter rest (final (convertShape shape st))
  end.

End Laws.

(** * Properties *)

Import JS.

(** Evaluation of the converter on a concrete record: everything is
    computed but the arithmetic of the real numbers. *)
Tactic Notation "js_compute" :=
  cbv -[IZR Rplus Rminus Rmult Rdiv Rinv Ropp Rabs Rlt_dec Req_dec_T up sin PI].
Tactic Notation "js_compute" "in" hyp(H) :=
  cbv -[IZR Rplus Rminus Rmult Rdiv Rinv Ropp Rabs Rlt_dec Req_dec_T up sin PI] in H.

(** ** The model at work *)

Example parseFloat_reads_a_prefix :
  parseFloat (Str "270") = Fin 270 /\
  parseFloat (Str " -2.50e1mil") = Fin (-250 / 10) /\
  parseFloat (Str ".5") = Fin (5 / 10) /\
  parseFloat (Str "-Infinity") = Inf true /\
  parseFloat (Str "") = NaN /\
  parseFloat (Str ".") = NaN /\
  parseFloat undefined = NaN.
Proof. repeat split; js_compute; reflexivity. Qed.

Example parseInt_reads_a_prefix :
  parseInt (Some " 21abc") = Some 21%Z /\
  parseInt (Some "-5.7") = Some (-5)%Z /\
  parseInt (Some "x1") = None /\
  parseInt None = None.
Proof. repeat split; reflexivity. Qed.

Example split_and_join :
  split "~" "VIA~1~2~~" = ["VIA"; "1"; "2"; ""; ""] /\
  split " " "" = [""] /\
  splitStr "#@$" "a~b#@$TRACK~1#@$" = ["a~b"; "TRACK~1"; ""] /\
  join "~" ["a"; "b"; "c"] = "a~b~c" /\
  collapseSeparators "M 1,, 2  A 3" = "M 1 2 A 3".
Proof. repeat split; reflexivity. Qed.

Example matchArcPath_groups :
  Board.matchArcPath "M 4000 3000 A 10 10 0 0 1 4020 3000"
    = Some ("4000 3000 ", "10 10 0 0 1 4020 3000") /\
  Board.matchArcPath "M A 1" = Some (" ", "1") /\
  Board.matchArcPath "M1 2 L 3 4" = None /\
  Board.matchArcPath "M1 2A" = None.
Proof. repeat split; reflexivity. Qed.

(** The track ["0.2~1~~2000 2000 2000 2100~g1~0"] on a fresh table: one
    segment on the front copper layer, without a net field. *)
Example convertShape_track :
  exists start end_ width,
    Board.convertShape (env := Earlier.imports) "TRACK~0.2~1~~2000 2000 2000 2100~g1~0"
      {| Board.nets := [""]; Board.innerLayers := 0 |} =
    {| Board.result :=
         Return (Arr [Arr [Str "segment"; start; end_; width;
                           Arr [Str "layer"; Str "F.Cu"]; null; null]]);
       Board.final := {| Board.nets := [""]; Board.innerLayers := 0 |};
       Board.warnings := [] |}.
Proof. eexists _, _, _. js_compute. reflexivity. Qed.

(** A via on a net the table does not hold yet: the name is appended
    and the via carries its index. *)
Example convertShape_via :
  exists position size drill,
    Board.convertShape (env := Earlier.imports) "VIA~4000~3000~2~GND~1~gge1~0"
      {| Board.nets := [""]; Board.innerLayers := 0 |} =
    {| Board.result :=
         Return (Arr [Arr [Str "via"; position; size; drill;
                           Arr [Str "layers"; Str "F.Cu"; Str "B.Cu"];
                           Arr [Str "net"; Num (ofZ 1)]]]);
       Board.final := {| Board.nets := [""; "GND"]; Board.innerLayers := 0 |};
       Board.warnings := [] |}.
Proof. eexists _, _, _. js_compute. reflexivity. Qed.

(** A shape of an unknown kind is answered with [null] and a warning. *)
Example convertShape_unknown_kind :
  Board.convertShape (env := Earlier.imports) "DIMENSION~1~2"
    {| Board.nets := [""]; Board.innerLayers := 0 |} =
  {| Board.result := Return null;
     Board.final := {| Board.nets := [""]; Board.innerLayers := 0 |};
     Board.warnings := ["Warning: unsupported shape DIMENSION"] |}.
Proof. reflexivity. Qed.

(** ** Numbers and strings *)

Lemma Rltb_false (a b : R) : (b <= a)%R -> Rltb a b = false.
Proof. intros Hba. unfold Rltb. destruct (Rlt_dec a b); [lra | reflexivity]. Qed.

Lemma Reqb_false (a b : R) : a <> b -> Reqb a b = false.
Proof. intros Hab. unfold Reqb. destruct (Req_dec_T a b); [contradiction | reflexivity]. Qed.

Lemma string_eqb_false (a b : string) : a <> b -> String.eqb a b = false.
Proof. intros Hab. apply String.eqb_neq. exact Hab. Qed.

(** [indexOf] finds the first occurrence, or answers [-1]. *)
Lemma indexOfFrom_range (l : list string) (name : string) (i : Z) :
  indexOfFrom i l name = (-1)%Z \/
  (i <= indexOfFrom i l name < i + Z.of_nat (length l))%Z.
Proof.
  revert i. induction l as [|y l IH]; intros i; simpl.
  - left; reflexivity.
  - destruct (String.eqb y name).
    + right; lia.
    + destruct (IH (i + 1)%Z) as [Hnone | Hsome]; [left; exact Hnone | right; lia].
Qed.

Lemma indexOfFrom_lookup (l : list string) (name : string) (i : Z) :
  (0 <= i)%Z ->
  (i <= indexOfFrom i l name)%Z ->
  l !! Z.to_nat (indexOfFrom i l name - i) = Some name.
Proof.
  revert i. induction l as [|y l IH]; intros i Hi Hle; simpl in *.
  - lia.
  - destruct (String.eqb y name) eqn:Heq.
    + apply String.eqb_eq in Heq. subst y.
      replace (i - i)%Z with 0%Z by lia. reflexivity.
    + destruct (indexOfFrom_range l name (i + 1)) as [Hnone | Hsome].
      * rewrite Hnone in Hle. lia.
      * specialize (IH (i + 1)%Z ltac:(lia) ltac:(lia)).
        replace (Z.to_nat (indexOfFrom (i + 1) l name - i))
          with (S (Z.to_nat (indexOfFrom (i + 1) l name - (i + 1)))) by lia.
        exact IH.
Qed.

(** ** Net resolution *)

Section NetRegistry.
Import Board.

(** The three components of a [bind]. *)
Lemma result_bind {A B} (m : M A) (k : A -> M B) (st : IConversionState) :
  result (bind m k st) =
  match result (m st) with
  | Return a => result (k a (final (m st)))
  | Throw e => Throw e
  end.
Proof. unfold bind. destruct (result (m st)); reflexivity. Qed.

Lemma final_bind {A B} (m : M A) (k : A -> M B) (st : IConversionState) :
  final (bind m k st) =
  match result (m st) with
  | Return a => final (k a (final (m st)))
  | Throw e => final (m st)
  end.
Proof. unfold bind. destruct (result (m st)); reflexivity. Qed.

Lemma warnings_bind {A B} (m : M A) (k : A -> M B) (st : IConversionState) :
  warnings (bind m k st) =
  match result (m st) with
  | Return a => warnings (m st) ++ warnings (k a (final (m st)))
  | Throw e => warnings (m st)
  end.
Proof. unfold bind. destruct (result (m st)); reflexivity. Qed.

(** [getNetId] never throws and never warns. *)
Lemma getNetId_returns (name : option string) (st : IConversionState) :
  exists i, result (getNetId name st) = Return i /\ warnings (getNetId name st) = [].
Proof.
  unfold getNetId. destruct name as [name|]; [|eexists; split; reflexivity].
  destruct (negb (truthyV (Str name))); [eexists; split; reflexivity|].
  unfold bind, get, put, ret; simpl.
  destruct (0 <=? _)%Z; simpl; eexists; split; reflexivity.
Qed.

(** What [getNetId] does to the table: nothing, or one name appended. *)
Lemma getNetId_final (name : option string) (st : IConversionState) :
  final (getNetId name st) = st \/
  exists s, name = Some s /\
    final (getNetId name st) = {| nets := nets st ++ [s]; innerLayers := innerLayers st |}.
Proof.
  unfold getNetId. destruct name as [name|]; [|left; reflexivity].
  destruct (negb (truthyV (Str name))); [left; reflexivity|].
  unfold bind, get, put, ret; simpl.
  destruct (0 <=? _)%Z; simpl.
  - left; reflexivity.
  - right. exists name. split; reflexivity.
Qed.

End NetRegistry.

(** C1, as the code has it: with the empty string at index 0 of the net
    table, [getNetId] answers [-1] both for an absent name and for the
    empty string, and leaves the table alone; index 0 keeps the empty
    string; a name that is not empty resolves to an index of at least 1,
    at which the table then holds that name. *)
Theorem getNetId_empty_and_absent (table : list string) (inner : Z) :
  let st := {| Board.nets := "" :: table; Board.innerLayers := inner |} in
  Board.getNetId None st = Board.ret (-1)%Z st /\
  Board.getNetId (Some "") st = Board.ret (-1)%Z st /\
  forall name, name <> "" ->
    exists i,
      Board.result (Board.getNetId (Some name) st) = Return i /\
      (1 <= i)%Z /\
      Board.nets (Board.final (Board.getNetId (Some name) st)) !! Z.to_nat i = Some name /\
      Board.nets (Board.final (Board.getNetId (Some name) st)) !! 0%nat = Some "".
Proof.
  intros st. split; [reflexivity|]. split; [reflexivity|].
  intros name Hname.
  destruct name as [|c name']; [contradiction|].
  set (name := String c name') in *.
  assert (Hunfold : Board.getNetId (Some name) st =
            if (0 <=? indexOfFrom (0 + 1) table name)%Z
            then Board.ret (indexOfFrom (0 + 1) table name) st
            else {| Board.result := Return (Z.of_nat (length ("" :: table ++ [name])) - 1)%Z;
                    Board.final := {| Board.nets := "" :: table ++ [name];
                                      Board.innerLayers := inner |};
                    Board.warnings := [] |}).
  { unfold Board.getNetId, Board.bind, Board.get, Board.put, Board.ret. simpl.
    destruct (0 <=? _)%Z; reflexivity. }
  rewrite Hunfold. clear Hunfold.
  destruct (indexOfFrom_range table name (0 + 1)) as [Hnone | Hsome].
  - rewrite Hnone. simpl.
    exists (Z.of_nat (S (length (table ++ [name]))) - 1)%Z.
    split; [reflexivity|]. split; [rewrite length_app; simpl; lia|].
    split; [|reflexivity].
    replace (Z.to_nat (Z.of_nat (S (length (table ++ [name]))) - 1))
      with (S (length table)) by (rewrite length_app; simpl; lia).
    simpl. rewrite lookup_app_r by lia.
    replace (length table - length table)%nat with 0%nat by lia. reflexivity.
  - destruct (0 <=? indexOfFrom (0 + 1) table name)%Z eqn:Hle; [|lia].
    simpl. exists (indexOfFrom (0 + 1) table name).
    split; [reflexivity|]. split; [lia|]. split; [|reflexivity].
    pose proof (indexOfFrom_lookup table name (0 + 1) ltac:(lia) ltac:(lia)) as Hl.
    replace (Z.to_nat (indexOfFrom (0 + 1) table name))
      with (S (Z.to_nat (indexOfFrom (0 + 1) table name - (0 + 1)))) by lia.
    exact Hl.
Qed.

(** The table [[""; "GND"]]: the empty name gives [-1], ["GND"] gives 1. *)
Lemma getNetId_empty_and_absent_witness :
  Board.result (Board.getNetId (Some "")
     {| Board.nets := [""; "GND"]; Board.innerLayers := 0 |}) = Return (-1)%Z /\
  exists i,
    Board.result (Board.getNetId (Some "GND")
      {| Board.nets := [""; "GND"]; Board.innerLayers := 0 |}) = Return i /\ (1 <= i)%Z.
Proof.
  destruct (getNetId_empty_and_absent ["GND"] 0) as (_ & Hempty & Hname).
  split.
  - rewrite Hempty. reflexivity.
  - destruct (Hname "GND" ltac:(discriminate)) as (i & Hres & Hpos & _).
    exists i. split; assumption.
Defined.

(** C1 as stated fails: the empty name does not resolve to 0. *)
Lemma getNetId_empty_is_not_zero :
  Board.result (Board.getNetId (Some "")
     {| Board.nets := [""]; Board.innerLayers := 0 |}) = Return (-1)%Z /\
  Board.result (Board.getNetId (Some "")
     {| Board.nets := [""]; Board.innerLayers := 0 |}) <> Return 0%Z.
Proof. split; [reflexivity | discriminate]. Qed.

(** ** The conversion state only grows *)

Section Growing.
Import Board Spec.
Context {env : Imports}.

Lemma extends_refl (st : IConversionState) : extends st st.
Proof. split; [reflexivity | lia]. Qed.

Lemma extends_trans (a b c : IConversionState) :
  extends a b -> extends b c -> extends a c.
Proof.
  intros [Hab Hab'] [Hbc Hbc']. split; [etransitivity; eassumption | lia].
Qed.

Lemma growing_ret {A} (a : A) : growing (ret a).
Proof. intros st. apply extends_refl. Qed.

Lemma growing_throw {A} (e : exn) : growing (@throw A e).
Proof. intros st. apply extends_refl. Qed.

Lemma growing_warn (message : string) : growing (warn message).
Proof. intros st. apply extends_refl. Qed.

Lemma growing_get : growing get.
Proof. intros st. apply extends_refl. Qed.

Lemma growing_bind {A B} (m : M A) (k : A -> M B) :
  growing m -> (forall a, growing (k a)) -> growing (bind m k).
Proof.
  intros Hm Hk st. unfold bind.
  destruct (result (m st)) as [a|e] eqn:Hres; simpl.
  - eapply extends_trans; [apply Hm | apply Hk].
  - apply Hm.
Qed.

Lemma growing_settle {A} (m : M A) : growing m -> growing (settle m).
Proof. intros Hm st. apply Hm. Qed.

Lemma growing_getNetId (name : option string) : growing (getNetId name).
Proof.
  intros st. destruct (getNetId_final name st) as [Hsame | (s & _ & Hpush)].
  - rewrite Hsame. apply extends_refl.
  - rewrite Hpush. split; simpl; [apply prefix_app_r; reflexivity | lia].
Qed.

Lemma growing_getLayerName (id : option string) : growing (getLayerName id).
Proof.
  intros st. unfold getLayerName.
  destruct (read layers id); [apply extends_refl|apply extends_refl|].
  destruct (between 21 50 (parseInt id)).
  - unfold bind, get, put, ret; simpl. split; simpl; [reflexivity | lia].
  - destruct (between 99 199 (parseInt id)); apply extends_refl.
Qed.

Ltac growing_step :=
  match goal with
  | |- growing (bind _ _) => apply growing_bind; [|intros ?]
  | |- growing (ret _) => apply growing_ret
  | |- growing (throw _) => apply growing_throw
  | |- growing (warn _) => apply growing_warn
  | |- growing (getNetId _) => apply growing_getNetId
  | |- growing (getLayerName _) => apply growing_getLayerName
  | |- growing (settle _) => apply growing_settle
  | |- growing (match ?x with _ => _ end) => destruct x
  end.

Ltac growing_auto := repeat growing_step.

Lemma growing_convertVia args parentCoords : growing (convertVia args parentCoords).
Proof. unfold convertVia. growing_auto. Qed.

Lemma growing_convertTrack args objName parentCoords :
  growing (convertTrack args objName parentCoords).
Proof. unfold convertTrack. growing_auto. Qed.

Lemma growing_textLayer layer footprint isName :
  growing (textLayer layer footprint isName).
Proof. unfold textLayer. growing_auto. Qed.

Lemma growing_convertText args objName parentCoords :
  growing (convertText args objName parentCoords).
Proof.
  unfold convertText. apply growing_bind; [apply growing_textLayer|].
  intros layerName. growing_auto.
Qed.

Lemma growing_convertArc args objName transform :
  growing (convertArc args objName transform).
Proof. unfold convertArc. growing_auto. Qed.

Lemma growing_convertPad args transform : growing (convertPad args transform).
Proof. unfold convertPad. growing_auto. Qed.

Lemma growing_convertPadToVia args parentCoords :
  growing (convertPadToVia args parentCoords).
Proof.
  unfold convertPadToVia. destruct (negb _).
  - apply growing_bind; [apply growing_convertPad|]. intros pad. growing_auto.
  - growing_auto.
Qed.

Lemma growing_convertCircle args type parentCoords :
  growing (convertCircle args type parentCoords).
Proof. unfold convertCircle. growing_auto. Qed.

Lemma growing_pathToPolygon path parentCoords :
  growing (pathToPolygon path parentCoords).
Proof. unfold pathToPolygon. growing_auto. Qed.

Lemma growing_convertPolygon args parentCoords :
  growing (convertPolygon args parentCoords).
Proof.
  unfold convertPolygon. destruct (negb _); [growing_auto|].
  apply growing_bind; [apply growing_getLayerName|].
  intros [layerName| |key]; try (growing_auto; fail);
    (apply growing_bind; [apply growing_pathToPolygon|]; intros polygon; growing_auto).
Qed.

Lemma growing_forEach {A B} (body : A -> M (list B)) (l : list A) :
  (forall a, growing (body a)) -> growing (forEach body l).
Proof.
  intros Hbody. induction l as [|a l IH]; simpl.
  - apply growing_ret.
  - apply growing_bind; [apply Hbody|]. intros pushed.
    apply growing_bind; [exact IH|]. intros more. apply growing_ret.
Qed.

Lemma growing_convertLibShape id transform shape :
  growing (convertLibShape id transform shape).
Proof.
  unfold convertLibShape.
  repeat match goal with
         | |- growing (if ?b then _ else _) => destruct b
         end;
    first [ apply growing_convertTrack
          | apply growing_bind;
            [ first [ apply growing_convertText | apply growing_convertArc
                    | apply growing_convertPad | apply growing_convertCircle
                    | apply growing_convertPolygon | apply growing_warn ]
            | intros ?; apply growing_ret ]
          | apply growing_ret ].
Qed.

Lemma growing_convertLib args : growing (convertLib args).
Proof.
  unfold convertLib. destruct (args !! 2%nat); [|apply growing_throw].
  apply growing_bind; [|intros converted; apply growing_ret].
  apply growing_forEach. intros shape. apply growing_convertLibShape.
Qed.

Lemma growing_convertCopperArea args : growing (convertCopperArea args).
Proof. unfold convertCopperArea. growing_auto. Qed.

Lemma growing_convertSolidRegion args : growing (convertSolidRegion args).
Proof.
  unfold convertSolidRegion.
  apply growing_bind; [apply growing_getLayerName|].
  intros [layerName| |key]; try (growing_auto; fail);
    (apply growing_bind; [apply growing_pathToPolygon|]; intros polygon; growing_auto).
Qed.

Lemma growing_convertShape shape : growing (convertShape shape).
Proof.
  unfold convertShape.
  repeat match goal with
         | |- growing (if ?b then _ else _) => destruct b
         end;
    first [ apply growing_ret
          | apply growing_bind;
            [ first [ apply growing_convertVia | apply growing_convertTrack
                    | apply growing_convertText | apply growing_convertArc
                    | apply growing_convertCopperArea | apply growing_convertSolidRegion
                    | apply growing_convertCircle | apply growing_convertLib
                    | apply growing_convertPadToVia | apply growing_warn ]
            | intros ?; apply growing_ret ] ].
Qed.

Lemma growing_mapAsync {A B} (f : A -> M B) (l : list A) :
  (forall a, growing (f a)) -> growing (mapAsync f l).
Proof.
  intros Hf. induction l as [|a l IH]; simpl.
  - apply growing_ret.
  - apply growing_bind; [apply growing_settle, Hf|]. intros o.
    apply growing_bind; [exact IH|]. intros os. apply growing_ret.
Qed.

Lemma growing_awaitAll {A} (promises : list (outcome A)) : growing (awaitAll promises).
Proof.
  induction promises as [|[a|e] rest IH]; simpl.
  - apply growing_ret.
  - apply growing_bind; [exact IH|]. intros more. apply growing_ret.
  - apply growing_throw.
Qed.

(** The net table at the end of [convertShapes]: the empty name, the table
    it was given, and what the run appended. *)
Lemma convertShapes_nets (shapeList : list string) (st : IConversionState) :
  exists added,
    nets (final (convertShapes shapeList st)) = "" :: nets st ++ added.
Proof.
  set (rest :=
    bind (mapAsync convertShape shapeList) (fun promises =>
    bind (awaitAll promises) (fun converted =>
    bind get (fun st' =>
    ret (Arr ([Str "kicad_pcb";
               Arr [Str "version"; Num (ofZ 20171130)];
               Arr [Str "host"; Str "pcbnew"; Str "(5.1.5)-3"];
               Arr [Str "page"; Str "A4"];
               Arr (Str "layers" :: layerTable (innerLayerRows (innerLayers st')))] ++
              List.filter notNullish (netNodes (nets st') ++ flatten converted))))))).
  assert (Hrest : growing rest).
  { unfold rest. apply growing_bind.
    - apply growing_mapAsync. intros shape. apply growing_convertShape.
    - intros promises. apply growing_bind; [apply growing_awaitAll|].
      intros converted. apply growing_bind; [apply growing_get|].
      intros st'. apply growing_ret. }
  specialize (Hrest {| nets := "" :: nets st; innerLayers := innerLayers st |}).
  destruct Hrest as [[added Hadded] _]. simpl in Hadded.
  exists added. rewrite <- Hadded.
  change (convertShapes shapeList) with (bind (unshiftNets "") (fun _ => rest)).
  rewrite final_bind. reflexivity.
Qed.

End Growing.

(** C3, as the code has it: [convertBoardToArray] works on the very array
    the input refers to.  At the end of the run that array holds the empty
    name, then the names it held before, then the names the run has
    interned; no other array of the heap is touched.  From the pre-seeding
    on the table only grows at its end: every conversion of a shape and
    every call of [getNetId] leaves the table it found as a prefix of the
    table it leaves, so that an index once given keeps its name. *)
Theorem convertBoardToArray_extends_input_nets {env : Board.Imports}
    (input : Board.IEasyEDABoard) (heap : gmap Board.loc (list string))
    (l : Board.loc) (table : list string) :
  Board.routerRule input = Some l ->
  heap !! l = Some table ->
  (exists added,
     Board.heapAfter (Board.convertBoardToArray input heap) !! l
       = Some ("" :: table ++ added)) /\
  (forall l', l' <> l ->
     Board.heapAfter (Board.convertBoardToArray input heap) !! l' = heap !! l') /\
  (forall shape st, Spec.growing (Board.convertShape shape) /\
     forall i name, Board.nets st !! i = Some name ->
       Board.nets (Board.final (Board.convertShape shape st)) !! i = Some name) /\
  (forall netName st,
     Board.nets st `prefix_of` Board.nets (Board.final (Board.getNetId netName st))).
Proof.
  intros Hrule Hheap. unfold Board.convertBoardToArray. rewrite Hrule, Hheap.
  cbn [Board.heapAfter].
  split; [|split; [|split]].
  - destruct (convertShapes_nets (Board.shape input)
                {| Board.nets := table; Board.innerLayers := 0 |}) as [added Hadded].
    exists added. rewrite lookup_insert_eq, Hadded. reflexivity.
  - intros l' Hne. apply lookup_insert_ne. congruence.
  - intros shape st. split; [apply growing_convertShape|].
    intros i name Hlookup.
    destruct (growing_convertShape shape st) as [Hprefix _].
    eapply prefix_lookup_Some; eassumption.
  - intros netName st. apply growing_getNetId.
Qed.

(** A board with the net list [["GND"]] and one via on the net ["VCC"]. *)
Lemma convertBoardToArray_extends_input_nets_witness :
  exists added,
    Board.heapAfter
      (Board.convertBoardToArray (env := Earlier.imports)
         {| Board.routerRule := Some 1%positive;
            Board.shape := ["VIA~4000~3000~2~VCC~1~gge1~0"] |}
         {[ 1%positive := ["GND"] ]}) !! 1%positive
    = Some ("" :: ["GND"] ++ added).
Proof.
  apply (convertBoardToArray_extends_input_nets
           {| Board.routerRule := Some 1%positive;
              Board.shape := ["VIA~4000~3000~2~VCC~1~gge1~0"] |}
           {[ 1%positive := ["GND"] ]} 1%positive ["GND"]).
  - reflexivity.
  - apply lookup_singleton_eq.
Defined.

(** C3 as stated fails: the run changes the net list of its input.  The
    list [["GND"]] has become [[""; "GND"; "VCC"]], and ["GND"] has moved
    from index 0 to index 1. *)
Lemma convertBoardToArray_changes_input :
  let input :=
    {| Board.routerRule := Some 1%positive;
       Board.shape := ["VIA~4000~3000~2~VCC~1~gge1~0"] |} in
  let heap : gmap Board.loc (list string) := {[ 1%positive := ["GND"] ]} in
  heap !! 1%positive = Some ["GND"] /\
  Board.heapAfter (Board.convertBoardToArray (env := Earlier.imports) input heap)
    !! 1%positive = Some [""; "GND"; "VCC"] /\
  Board.heapAfter (Board.convertBoardToArray (env := Earlier.imports) input heap)
    !! 1%positive <> heap !! 1%positive.
Proof.
  intros input heap.
  assert (Hheap : heap !! 1%positive = Some ["GND"]) by apply lookup_singleton_eq.
  assert (Hafter :
            Board.heapAfter (Board.convertBoardToArray (env := Earlier.imports) input heap)
              !! 1%positive = Some [""; "GND"; "VCC"]).
  { unfold Board.convertBoardToArray. subst input. cbn [Board.routerRule Board.shape].
    rewrite Hheap. cbn [Board.heapAfter]. rewrite lookup_insert_eq.
    js_compute. reflexivity. }
  split; [exact Hheap|]. split; [exact Hafter|].
  rewrite Hafter, Hheap. discriminate.
Qed.

(** ** Units and angles of the earlier version *)

(** C4: for an angle that parses to a number [A] in [[0, 360)], [kiAngle]
    returns [A] when [A <= 180] and [A - 360] when [A > 180], a number in
    [(-180, 180]]; for an angle that does not parse as a number it returns
    [null], which is not the number zero. *)
Theorem kiAngle_normalizes :
  (forall (s : string) (A : R),
     parseFloat (Str s) = Fin A -> (0 <= A < 360)%R ->
     Legacy.kiAngle (Str s) = Num (Fin (Spec.toAngle A)) /\
     (A <= 180 -> Spec.toAngle A = A)%R /\
     (180 < A -> Spec.toAngle A = A - 360)%R /\
     (-180 < Spec.toAngle A <= 180)%R) /\
  (forall v : value,
     parseFloat v = NaN ->
     Legacy.kiAngle v = null /\ Legacy.kiAngle v <> Num (Fin 0)).
Proof.
  split.
  - intros s A Hparse [Hlo Hhi].
    unfold Legacy.kiAngle, Spec.toAngle. rewrite Hparse. simpl.
    unfold Rltb. destruct (Rlt_dec 180 A) as [Hgt | Hle].
    + repeat split; try lra. do 2 f_equal. lra.
    + repeat split; try lra.
  - intros v Hnan. unfold Legacy.kiAngle. rewrite Hnan. simpl.
    split; [reflexivity | discriminate].
Qed.

(** The angles ["270"] and ["90"], and a field that is no number. *)
Lemma kiAngle_normalizes_witness :
  Legacy.kiAngle (Str "270") = Num (Fin (-90)) /\
  Legacy.kiAngle (Str "90") = Num (Fin 90) /\
  Legacy.kiAngle (Str "abc") = null.
Proof.
  destruct kiAngle_normalizes as [Hnum Hnan].
  split; [|split].
  - destruct (Hnum "270" 270%R) as (Hval & _ & Hdown & _);
      [js_compute; reflexivity | lra |].
    rewrite Hval, Hdown by lra. do 2 f_equal. lra.
  - destruct (Hnum "90" 90%R) as (Hval & Hsame & _);
      [js_compute; reflexivity | lra |].
    rewrite Hval, Hsame by lra. reflexivity.
  - apply (Hnan (Str "abc")). js_compute. reflexivity.
Defined.

(** Every node [pointPairs] makes is made by its first argument. *)
Lemma pointPairs_elem {A} (f : value -> value -> value -> value -> A)
    (coordList : list string) (node : A) :
  In node (pointPairs f coordList) -> exists a b c d, node = f a b c d.
Proof.
  remember (length coordList) as n eqn:Hn.
  revert coordList Hn. induction n as [n IH] using lt_wf_ind.
  intros [|a [|b [|c rest]]] Hn Hin; simpl in Hin; try contradiction.
  destruct Hin as [Hhere | Hlater].
  - eauto.
  - eapply (IH (length (c :: rest))); [simpl in *; lia | reflexivity | exact Hlater].
Qed.




(** ** The layer resolver *)

Section LayerResolver.
Import Board Spec.
Context {env : Imports}.

(** Case analysis on a lookup in a table given by a literal. *)
Ltac table_cases H finish :=
  cbn [assoc] in H;
  lazymatch type of H with
  | context [String.eqb ?k ?s] =>
      let E := fresh "E" in
      destruct (String.eqb k s) eqn:E;
      [ apply String.eqb_eq in E; subst s; finish
      | table_cases H finish ]
  | _ => try discriminate H
  end.

(** No key of the static table reads as a number of one of the bands. *)
Lemma layers_not_banded (id : option string) (name : string) :
  lookupField layers id = Some name ->
  between 21 50 (parseInt id) = false /\ between 99 199 (parseInt id) = false.
Proof.
  intros Hstatic. destruct id as [s|]; [|discriminate Hstatic].
  unfold lookupField, layers, showField in Hstatic.
  table_cases Hstatic ltac:(split; reflexivity).
Qed.

(** A name of [Object.prototype] is found in the list of them. *)
Lemma inherited_In (key : string) : inherited key = true -> In key prototypeKeys.
Proof.
  unfold inherited. intros Hsome. apply existsb_exists in Hsome.
  destruct Hsome as (member & Hin & Heq). apply String.eqb_eq in Heq. subst member.
  exact Hin.
Qed.

(** No name of [Object.prototype] is a key of the static table, and
    none reads as a number. *)
Lemma inherited_layer (id : option string) :
  inherited (showField id) = true -> lookupField layers id = None /\ parseInt id = None.
Proof.
  intros Hmember. apply inherited_In in Hmember.
  unfold prototypeKeys in Hmember. cbn [In] in Hmember.
  destruct id as [s|]; cbn [showField] in Hmember.
  - repeat destruct Hmember as [<- | Hmember]; try (split; reflexivity). contradiction.
  - repeat destruct Hmember as [Hmember | Hmember]; try discriminate Hmember. contradiction.
Qed.

(** For the name of a member of [Object.prototype] the resolver returns
    that member: it does not throw, and it leaves the state alone. *)
Lemma getLayerName_inherited (id : option string) (st : IConversionState) :
  inherited (showField id) = true ->
  getLayerName id st = ret (Member (showField id)) st.
Proof.
  intros Hmember. unfold getLayerName, read.
  rewrite (proj1 (inherited_layer id Hmember)), Hmember. reflexivity.
Qed.

Lemma getLayerName_inner (id : option string) (k : Z) (st : IConversionState) :
  parseInt id = Some k -> (21 <= k <= 50)%Z ->
  getLayerName id st =
  {| result := Return (Layer ("In" +:+ toStringZ (k - 20) +:+ ".Cu"));
     final := {| nets := nets st; innerLayers := Z.max (innerLayers st) (k - 20) |};
     warnings := [] |}.
Proof.
  intros Hparse Hband.
  assert (Hin : between 21 50 (parseInt id) = true).
  { rewrite Hparse. simpl. apply andb_true_intro. split; apply Z.leb_le; lia. }
  unfold getLayerName, read.
  destruct (lookupField layers id) as [name|] eqn:Hstatic.
  - apply layers_not_banded in Hstatic. destruct Hstatic as [Hout _]. congruence.
  - destruct (inherited (showField id)) eqn:Hmember.
    + apply inherited_layer in Hmember. destruct Hmember as [_ Hnan]. congruence.
    + rewrite Hin, Hparse. reflexivity.
Qed.

Lemma getLayerName_tolerated (id : option string) (k : Z) (st : IConversionState) :
  parseInt id = Some k -> (99 <= k <= 199)%Z ->
  getLayerName id st =
  {| result := Return NoLayer; final := st;
     warnings := ["Warning: unsupported layer id: " +:+ toStringZ k] |}.
Proof.
  intros Hparse Hband.
  assert (Hin : between 99 199 (parseInt id) = true).
  { rewrite Hparse. simpl. apply andb_true_intro. split; apply Z.leb_le; lia. }
  assert (Hout : between 21 50 (parseInt id) = false).
  { rewrite Hparse. simpl. apply andb_false_intro2. apply Z.leb_gt. lia. }
  unfold getLayerName, read.
  destruct (lookupField layers id) as [name|] eqn:Hstatic.
  - apply layers_not_banded in Hstatic. destruct Hstatic as [_ Hout']. congruence.
  - destruct (inherited (showField id)) eqn:Hmember.
    + apply inherited_layer in Hmember. destruct Hmember as [_ Hnan]. congruence.
    + rewrite Hout, Hin, Hparse. reflexivity.
Qed.

Lemma getLayerName_unknown (id : option string) (st : IConversionState) :
  unknownLayer id = true ->
  getLayerName id st = throw (Error ("Missing layer id: " +:+ showField id)) st.
Proof.
  unfold unknownLayer, getLayerName.
  destruct (read layers id); try discriminate.
  destruct (between 21 50 (parseInt id)); [discriminate|].
  destruct (between 99 199 (parseInt id)); [discriminate|]. reflexivity.
Qed.

(** *** A throw is not caught on the way up *)

Lemma throwsAlways_throw {A} (e : exn) : throwsAlways (@throw A e).
Proof. intros st. reflexivity. Qed.

Lemma throwsAlways_bind {A B} (m : M A) (k : A -> M B) :
  throwsAlways m -> throwsAlways (bind m k).
Proof.
  intros Hm st. rewrite result_bind. specialize (Hm st).
  destruct (result (m st)); [discriminate | reflexivity].
Qed.

Lemma throwsAlways_then {A B} (m : M A) (k : A -> M B) :
  (forall a, throwsAlways (k a)) -> throwsAlways (bind m k).
Proof.
  intros Hk st. rewrite result_bind.
  destruct (result (m st)); [apply Hk | reflexivity].
Qed.

Lemma throwsAlways_getLayerName (id : option string) :
  unknownLayer id = true -> throwsAlways (getLayerName id).
Proof. intros Hid st. rewrite getLayerName_unknown by exact Hid. reflexivity. Qed.

Lemma throwsAlways_convertTrack args objName parentCoords :
  unknownLayer (args !! 1%nat) = true ->
  throwsAlways (convertTrack args objName parentCoords).
Proof.
  intros Hid. unfold convertTrack.
  apply throwsAlways_then. intros netId.
  destruct (args !! 3%nat).
  - apply throwsAlways_then. intros coordList.
    apply throwsAlways_bind, throwsAlways_getLayerName, Hid.
  - apply throwsAlways_bind, throwsAlways_throw.
Qed.

Lemma throwsAlways_convertText args objName parentCoords :
  unknownLayer (args !! 6%nat) = true ->
  throwsAlways (convertText args objName parentCoords).
Proof.
  intros Hid. unfold convertText, textLayer.
  apply throwsAlways_bind, throwsAlways_bind, throwsAlways_getLayerName, Hid.
Qed.

Lemma throwsAlways_convertArc args objName transform :
  unknownLayer (args !! 1%nat) = true ->
  throwsAlways (convertArc args objName transform).
Proof.
  intros Hid. unfold convertArc.
  apply throwsAlways_bind, throwsAlways_getLayerName, Hid.
Qed.

Lemma throwsAlways_convertCopperArea args :
  unknownLayer (args !! 1%nat) = true -> throwsAlways (convertCopperArea args).
Proof.
  intros Hid. unfold convertCopperArea.
  apply throwsAlways_then. intros netId.
  apply throwsAlways_bind, throwsAlways_getLayerName, Hid.
Qed.

Lemma throwsAlways_convertSolidRegion args :
  unknownLayer (args !! 0%nat) = true -> throwsAlways (convertSolidRegion args).
Proof.
  intros Hid. unfold convertSolidRegion.
  apply throwsAlways_bind, throwsAlways_getLayerName, Hid.
Qed.

Lemma throwsAlways_convertCircle args type parentCoords :
  unknownLayer (args !! 4%nat) = true ->
  throwsAlways (convertCircle args type parentCoords).
Proof.
  intros Hid. unfold convertCircle.
  apply throwsAlways_bind, throwsAlways_getLayerName, Hid.
Qed.

(** A top-level record on an unknown layer makes [convertShape] throw. *)
Lemma throwsAlways_convertShape (shape kind : string) (args : list string) (i : nat) :
  split "~" shape = kind :: args ->
  layerField kind = Some i ->
  unknownLayer (args !! i) = true ->
  throwsAlways (convertShape shape).
Proof.
  intros Hsplit Hkind Hid. unfold convertShape. rewrite Hsplit.
  cbn [head tail default from_option Datatypes.id].
  unfold layerField in Hkind.
  destruct (String.eqb kind "VIA") eqn:Evia.
  { apply String.eqb_eq in Evia. subst kind. discriminate Hkind. }
  destruct (String.eqb kind "TRACK").
  { injection Hkind as <-. apply throwsAlways_bind, throwsAlways_convertTrack, Hid. }
  destruct (String.eqb kind "TEXT").
  { injection Hkind as <-. apply throwsAlways_bind, throwsAlways_convertText, Hid. }
  destruct (String.eqb kind "ARC").
  { injection Hkind as <-. apply throwsAlways_bind, throwsAlways_convertArc, Hid. }
  destruct (String.eqb kind "COPPERAREA").
  { injection Hkind as <-. apply throwsAlways_bind, throwsAlways_convertCopperArea, Hid. }
  destruct (String.eqb kind "SOLIDREGION").
  { injection Hkind as <-. apply throwsAlways_bind, throwsAlways_convertSolidRegion, Hid. }
  destruct (String.eqb kind "CIRCLE").
  { injection Hkind as <-. apply throwsAlways_bind, throwsAlways_convertCircle, Hid. }
  discriminate Hkind.
Qed.

(** *** Records inside a footprint *)

Lemma throwsAlways_forEach {A B} (body : A -> M (list B)) (l : list A) (a : A) :
  In a l -> throwsAlways (body a) -> throwsAlways (forEach body l).
Proof.
  intros Hin Ha. induction l as [|b l IH]; [contradiction|].
  cbn [forEach]. destruct Hin as [-> | Hin].
  - apply throwsAlways_bind, Ha.
  - apply throwsAlways_then. intros pushed. apply throwsAlways_bind, IH, Hin.
Qed.

Lemma throwsAlways_convertPolygon args parentCoords :
  fieldIs (args !! 3%nat) "solid" = true ->
  unknownLayer (args !! 0%nat) = true ->
  throwsAlways (convertPolygon args parentCoords).
Proof.
  intros Hsolid Hid. unfold convertPolygon. rewrite Hsolid. cbn [negb].
  apply throwsAlways_bind, throwsAlways_getLayerName, Hid.
Qed.

Lemma throwsAlways_convertLibShape (id : option string) (transform : IParentTransform)
    (sub kind : string) (args : list string) (i : nat) :
  split "~" sub = kind :: args ->
  libLayerField kind args = Some i ->
  unknownLayer (args !! i) = true ->
  throwsAlways (convertLibShape id transform sub).
Proof.
  intros Hsplit Hkind Hid. unfold convertLibShape. rewrite Hsplit.
  cbn [head tail default from_option Datatypes.id].
  unfold libLayerField in Hkind.
  destruct (String.eqb kind "TRACK").
  { injection Hkind as <-. apply throwsAlways_convertTrack, Hid. }
  destruct (String.eqb kind "TEXT").
  { injection Hkind as <-. apply throwsAlways_bind, throwsAlways_convertText, Hid. }
  destruct (String.eqb kind "ARC").
  { injection Hkind as <-. apply throwsAlways_bind, throwsAlways_convertArc, Hid. }
  destruct (String.eqb kind "HOLE") eqn:Ehole.
  { apply String.eqb_eq in Ehole. subst kind. discriminate Hkind. }
  destruct (String.eqb kind "PAD") eqn:Epad.
  { apply String.eqb_eq in Epad. subst kind. discriminate Hkind. }
  destruct (String.eqb kind "CIRCLE").
  { injection Hkind as <-. apply throwsAlways_bind, throwsAlways_convertCircle, Hid. }
  destruct (String.eqb kind "SOLIDREGION"); [|discriminate Hkind].
  cbn [andb] in Hkind.
  destruct (fieldIs (args !! 3%nat) "solid") eqn:Hsolid; [|discriminate Hkind].
  injection Hkind as <-. apply throwsAlways_bind, throwsAlways_convertPolygon; assumption.
Qed.

(** A footprint one of whose records throws. *)
Lemma throwsAlways_convertShape_lib (shape sub : string) (libArgs : list string) :
  split "~" shape = "LIB" :: libArgs ->
  In sub (tail (splitStr "#@$" (join "~" libArgs))) ->
  (forall id transform, throwsAlways (convertLibShape id transform sub)) ->
  throwsAlways (convertShape shape).
Proof.
  intros Hsplit Hsub Hthrows. unfold convertShape. rewrite Hsplit.
  cbn [head tail default from_option Datatypes.id].
  change (String.eqb "LIB" "VIA") with false. change (String.eqb "LIB" "TRACK") with false.
  change (String.eqb "LIB" "TEXT") with false. change (String.eqb "LIB" "ARC") with false.
  change (String.eqb "LIB" "COPPERAREA") with false.
  change (String.eqb "LIB" "SOLIDREGION") with false.
  change (String.eqb "LIB" "CIRCLE") with false. change (String.eqb "LIB" "HOLE") with false.
  change (String.eqb "LIB" "LIB") with true.
  cbv iota. apply throwsAlways_bind. unfold convertLib.
  destruct (libArgs !! 2%nat) as [attributes|]; [|apply throwsAlways_throw].
  apply throwsAlways_bind. apply (throwsAlways_forEach _ _ sub Hsub). apply Hthrows.
Qed.

(** *** One shape that throws rejects the whole board *)

Lemma mapAsync_returns {A B} (f : A -> M B) (l : list A) (st : IConversionState) :
  exists promises, result (mapAsync f l st) = Return promises /\
    forall a, In a l -> throwsAlways (f a) -> exists e, In (Throw e) promises.
Proof.
  revert st. induction l as [|a l IH]; intros st; simpl.
  - exists []. split; [reflexivity | intros a []].
  - rewrite result_bind. cbn [settle result final].
    destruct (IH (final (f a st))) as (rest & Hrest & Hthrows).
    rewrite Hrest. cbn [ret result].
    eexists. split; [reflexivity|].
    intros b [-> | Hin] Hb.
    + specialize (Hb st). destruct (result (f b st)) as [v|e]; [discriminate|].
      exists e. left. reflexivity.
    + destruct (Hthrows b Hin Hb) as [e He]. exists e. right. exact He.
Qed.

Lemma awaitAll_throws {A} (promises : list (outcome A)) (e : exn) :
  In (Throw e) promises -> throwsAlways (awaitAll promises).
Proof.
  induction promises as [|[a|e'] rest IH]; intros Hin st; simpl.
  - contradiction.
  - destruct Hin as [Hhere | Hlater]; [discriminate|].
    rewrite result_bind. specialize (IH Hlater (st)).
    destruct (result (awaitAll rest st)); [discriminate | reflexivity].
  - reflexivity.
Qed.

Lemma convertShapes_aborts (shapeList : list string) (shape : string) :
  In shape shapeList -> throwsAlways (convertShape shape) ->
  throwsAlways (convertShapes shapeList).
Proof.
  intros Hin Hthrows st. unfold convertShapes.
  rewrite result_bind. cbn [unshiftNets bind get put result final].
  rewrite result_bind.
  destruct (mapAsync_returns convertShape shapeList
              {| nets := "" :: nets st; innerLayers := innerLayers st |})
    as (promises & Hrun & Hsome).
  rewrite Hrun. destruct (Hsome shape Hin Hthrows) as [e He].
  rewrite result_bind.
  pose proof (awaitAll_throws promises e He) as Hawait.
  match goal with
  | |- context [result (awaitAll promises ?s)] =>
      specialize (Hawait s); destruct (result (awaitAll promises s))
  end; [discriminate | reflexivity].
Qed.

Lemma convertBoardToArray_aborts (input : IEasyEDABoard)
    (heap : gmap loc (list string)) (shape : string) :
  In shape (Board.shape input) -> throwsAlways (convertShape shape) ->
  isThrow (settled (convertBoardToArray input heap)) = true.
Proof.
  intros Hin Hthrows. unfold convertBoardToArray.
  destruct (routerRule input) as [l|].
  - destruct (heap !! l) as [table|]; [|reflexivity].
    apply (convertShapes_aborts _ shape Hin Hthrows).
  - apply (convertShapes_aborts _ shape Hin Hthrows).
Qed.

End LayerResolver.

(** C6, as the code has it: a layer id that reads as a number [k] of
    the band 21-50 resolves to [In(k-20).Cu] and raises the inner-layer
    count to at least [k - 20]; the count never goes down, neither in a
    call of the resolver nor in the conversion of a shape; an id of the
    band 99-199 resolves to [null] with a warning and without a throw; an
    id that is neither a key of the static table, nor the name of a
    member of [Object.prototype], nor in a band makes the resolver throw,
    and a top-level record on such a layer, or a record on such a layer
    inside a footprint, makes [convertBoardToArray] reject.  For the name
    of a member of [Object.prototype] the resolver does not throw: it
    returns the member. *)
Theorem getLayerName_bands {env : Board.Imports}
    (id : option string) (st : Board.IConversionState) :
  (forall k, parseInt id = Some k -> (21 <= k <= 50)%Z ->
     Board.getLayerName id st =
     {| Board.result := Return (Board.Layer ("In" +:+ toStringZ (k - 20) +:+ ".Cu"));
        Board.final :=
          {| Board.nets := Board.nets st;
             Board.innerLayers := Z.max (Board.innerLayers st) (k - 20) |};
        Board.warnings := [] |}) /\
  (forall k, parseInt id = Some k -> (99 <= k <= 199)%Z ->
     Board.result (Board.getLayerName id st) = Return Board.NoLayer /\
     Board.final (Board.getLayerName id st) = st) /\
  (Spec.unknownLayer id = true <->
     lookupField Board.layers id = None /\
     inherited (showField id) = false /\
     Board.between 21 50 (parseInt id) = false /\
     Board.between 99 199 (parseInt id) = false) /\
  (Spec.unknownLayer id = true ->
     Board.getLayerName id st =
     Board.throw (Error ("Missing layer id: " +:+ showField id)) st) /\
  (Board.innerLayers st <= Board.innerLayers (Board.final (Board.getLayerName id st)))%Z /\
  (forall shape,
     (Board.innerLayers st
      <= Board.innerLayers (Board.final (Board.convertShape shape st)))%Z) /\
  (forall input heap shape kind args i,
     In shape (Board.shape input) ->
     split "~" shape = kind :: args ->
     Spec.layerField kind = Some i ->
     args !! i = id ->
     Spec.unknownLayer id = true ->
     isThrow (Board.settled (Board.convertBoardToArray input heap)) = true) /\
  (forall input heap shape libArgs sub kind args i,
     In shape (Board.shape input) ->
     split "~" shape = "LIB" :: libArgs ->
     In sub (tail (splitStr "#@$" (join "~" libArgs))) ->
     split "~" sub = kind :: args ->
     Spec.libLayerField kind args = Some i ->
     args !! i = id ->
     Spec.unknownLayer id = true ->
     isThrow (Board.settled (Board.convertBoardToArray input heap)) = true) /\
  (inherited (showField id) = true ->
     Board.getLayerName id st = Board.ret (Board.Member (showField id)) st).
Proof.
  repeat apply conj.
  - intros k Hparse Hband. apply getLayerName_inner; assumption.
  - intros k Hparse Hband. rewrite (getLayerName_tolerated id k st Hparse Hband).
    split; reflexivity.
  - unfold Spec.unknownLayer, read.
    destruct (lookupField Board.layers id); [discriminate|].
    destruct (inherited (showField id)); [discriminate|].
    destruct (Board.between 21 50 (parseInt id)), (Board.between 99 199 (parseInt id));
      try discriminate.
    intros _. repeat split.
  - unfold Spec.unknownLayer, read.
    intros (Hnone & Hown & Hout1 & Hout2). rewrite Hnone, Hown, Hout1, Hout2. reflexivity.
  - apply getLayerName_unknown.
  - apply growing_getLayerName.
  - intros shape. apply growing_convertShape.
  - intros input heap shape kind args i Hin Hsplit Hkind Hfield Hid.
    apply (convertBoardToArray_aborts input heap shape Hin).
    apply (throwsAlways_convertShape shape kind args i Hsplit Hkind).
    rewrite Hfield. exact Hid.
  - intros input heap shape libArgs sub kind args i Hin Hsplit Hsub Hsubsplit Hkind Hfield Hid.
    apply (convertBoardToArray_aborts input heap shape Hin).
    apply (throwsAlways_convertShape_lib shape sub libArgs Hsplit Hsub).
    intros footprint transform.
    apply (throwsAlways_convertLibShape footprint transform sub kind args i Hsubsplit Hkind).
    rewrite Hfield. exact Hid.
  - apply getLayerName_inherited.
Qed.

(** The ids ["21"], ["150"] and ["9"], and a board with a track on layer 9. *)
Lemma getLayerName_bands_witness :
  let st := {| Board.nets := [""]; Board.innerLayers := 0 |} in
  Board.getLayerName (Some "21") st =
    {| Board.result := Return (Board.Layer "In1.Cu");
       Board.final := {| Board.nets := [""]; Board.innerLayers := 1 |};
       Board.warnings := [] |} /\
  Board.result (Board.getLayerName (Some "150") st) = Return Board.NoLayer /\
  Board.result (Board.getLayerName (Some "9") st) = Throw (Error "Missing layer id: 9") /\
  isThrow
    (Board.settled
       (Board.convertBoardToArray (env := Earlier.imports)
          {| Board.routerRule := None;
             Board.shape := ["VIA~4000~3000~2~~1~gge1~0";
                             "TRACK~1~9~~4000 3000 4010 3000~gge2~0"] |} ∅)) = true.
Proof.
  intros st.
  split; [|split; [|split]].
  - destruct (getLayerName_bands (env := Earlier.imports) (Some "21") st) as (Hinner & _).
    rewrite (Hinner 21%Z) by (reflexivity || lia). reflexivity.
  - destruct (getLayerName_bands (env := Earlier.imports) (Some "150") st)
      as (_ & Htolerated & _).
    apply (Htolerated 150%Z); [reflexivity | lia].
  - destruct (getLayerName_bands (env := Earlier.imports) (Some "9") st)
      as (_ & _ & _ & Hunknown & _).
    rewrite Hunknown by reflexivity. reflexivity.
  - destruct (getLayerName_bands (env := Earlier.imports) (Some "9") st)
      as (_ & _ & _ & _ & _ & _ & Haborts & _).
    apply (Haborts _ _ "TRACK~1~9~~4000 3000 4010 3000~gge2~0" "TRACK"
             ["1"; "9"; ""; "4000 3000 4010 3000"; "gge2"; "0"] 1%nat).
    + right. left. reflexivity.
    + reflexivity.
    + reflexivity.
    + reflexivity.
    + reflexivity.
Defined.

(** C6 as stated fails: the layer id ["constructor"] is outside the
    static table and outside the two bands, and the resolver does not
    throw on it.  It returns the member of that name which the table
    inherits from [Object.prototype], and the board with a circle on that
    layer is converted: its [gr_circle] holds the member as its layer. *)
Lemma getLayerName_returns_an_inherited_member :
  let st := {| Board.nets := [""]; Board.innerLayers := 0 |} in
  lookupField Board.layers (Some "constructor") = None /\
  parseInt (Some "constructor") = None /\
  Board.getLayerName (Some "constructor") st =
    {| Board.result := Return (Board.Member "constructor");
       Board.final := st; Board.warnings := [] |} /\
  exists center end_ width,
    Board.convertBoardToArray (env := Earlier.imports)
      {| Board.routerRule := None;
         Board.shape := ["CIRCLE~4000~3000~10~1~constructor~gge1"] |} ∅ =
    {| Board.settled :=
         Return (Arr (Laws.preamble 0 ++
                      [Arr [Str "net"; Num (ofZ 0); Str ""];
                       Arr [Str "gr_circle"; center; end_;
                            Arr [Str "layer"; Proto "constructor"]; width]]));
       Board.heapAfter := ∅;
       Board.console := [] |}.
Proof.
  intros st. split; [reflexivity|]. split; [reflexivity|]. split; [reflexivity|].
  eexists _, _, _. js_compute. reflexivity.
Qed.

(** ** The net field of vias and pads *)

(** C7: the node of a via always ends with a net field that holds what
    [getNetId] resolved, whatever that is; a pad that is converted has at
    its place of the net field either [null], which the encoder leaves
    out, or the net field, and it has the net field exactly when the
    resolved id is strictly positive. *)
Theorem net_field_of_via_and_pad {env : Board.Imports} :
  (forall args parentCoords st,
     exists netId,
       Board.result (Board.getNetId (args !! 3%nat) st) = Return netId /\
       Board.result (Board.convertVia args parentCoords st) =
       Return
         (Arr [Str "via";
               Board.kiAt (ofField (args !! 0%nat)) (ofField (args !! 1%nat))
                          undefined parentCoords;
               Arr [Str "size"; Num (Board.kiUnits (ofField (args !! 2%nat)))];
               Arr [Str "drill";
                    Num (mul (Board.kiUnits (ofField (args !! 4%nat))) (ofZ 2))];
               Arr [Str "layers"; Str "F.Cu"; Str "B.Cu"];
               Arr [Str "net"; Num (ofZ netId)]])) /\
  (forall args transform st node,
     Board.result (Board.convertPad args transform st) = Return node ->
     node <> null ->
     exists items netId,
       node = Arr items /\
       length items = 10%nat /\
       Board.result (Board.getNetId (args !! 6%nat) st) = Return netId /\
       items !! 8%nat =
       Some (if (0 <? netId)%Z
             then Arr [Str "net"; Num (ofZ netId); ofField (args !! 6%nat)]
             else null)).
Proof.
  split.
  - intros args parentCoords st. unfold Board.convertVia.
    destruct (getNetId_returns (args !! 3%nat) st) as (netId & Hnet & _).
    exists netId. split; [exact Hnet|]. rewrite result_bind, Hnet. reflexivity.
  - intros args transform st node Hrun Hnode. unfold Board.convertPad in Hrun.
    destruct (args !! 9%nat) as [points|]; [|discriminate Hrun].
    destruct (Board.isCustom _ && String.eqb points "").
    { rewrite result_bind in Hrun. cbn in Hrun. congruence. }
    rewrite result_bind in Hrun.
    destruct (getNetId_returns (args !! 6%nat) st) as (netId & Hnet & _).
    rewrite Hnet in Hrun.
    destruct (if Board.isCustom (args !! 0%nat) && _ then _ else _)
      as [actualWidth actualHeight].
    destruct (read Board.padLayers (args !! 5%nat)) as [ls| |]; try discriminate Hrun.
    injection Hrun as <-. eexists _, netId.
    split; [reflexivity|]. split; [reflexivity|]. split; [exact Hnet|]. reflexivity.
Qed.

(** A rectangular pad on the net ["GND"], which the table holds at 1. *)
Lemma net_field_of_via_and_pad_witness :
  let args :=
    ["RECT"; "4010"; "3010"; "6"; "4"; "1"; "GND"; "1"; "0";
     "4007 3008 4013 3008 4013 3012 4007 3012"; "0"; "gge7"; "0"; ""; "Y"; "0"] in
  let transform :=
    {| Board.origin := {| Board.x := Fin 0; Board.y := Fin 0 |};
       Board.angle := Num (Fin 0) |} in
  let st := {| Board.nets := [""; "GND"]; Board.innerLayers := 0 |} in
  exists items,
    Board.result (Board.convertPad (env := Earlier.imports) args transform st)
      = Return (Arr items) /\
    items !! 8%nat = Some (Arr [Str "net"; Num (ofZ 1); Str "GND"]).
Proof.
  intros args transform st.
  destruct (Board.result (Board.convertPad (env := Earlier.imports) args transform st))
    as [node|e] eqn:Hrun; [|js_compute in Hrun; discriminate Hrun].
  destruct (proj2 (net_field_of_via_and_pad (env := Earlier.imports))
              args transform st node Hrun)
    as (items & netId & Hnode & _ & Hnet & Hfield).
  - js_compute in Hrun. injection Hrun as <-. discriminate.
  - subst node. exists items. split; [reflexivity|].
    js_compute in Hnet. injection Hnet as <-. exact Hfield.
Defined.

(** ** Tracks *)

Section Tracks.
Import Board.
Context {env : Imports}.

(** What the resolver answers does not depend on the state. *)
Lemma getLayerName_result (id : option string) (st st' : IConversionState) :
  result (getLayerName id st) = result (getLayerName id st').
Proof.
  unfold getLayerName. destruct (read layers id); [reflexivity|reflexivity|].
  destruct (between 21 50 (parseInt id)); [reflexivity|].
  destruct (between 99 199 (parseInt id)); reflexivity.
Qed.

(** A list of [N] points gives [N - 1] pairs of consecutive points. *)
Lemma pointPairs_length {A} (f : value -> value -> value -> value -> A)
    (N : nat) (coordList : list string) :
  length coordList = (2 * N)%nat -> length (pointPairs f coordList) = (N - 1)%nat.
Proof.
  revert coordList. induction N as [|N IH]; intros coordList Hlen.
  - destruct coordList; [reflexivity | discriminate Hlen].
  - destruct coordList as [|a [|b rest]]; try (simpl in Hlen; lia).
    assert (Hrest : length rest = (2 * N)%nat) by (simpl in Hlen; lia).
    specialize (IH rest Hrest).
    destruct rest as [|c rest'].
    + simpl in Hrest. assert (N = 0)%nat as -> by lia. reflexivity.
    + change (pointPairs f (a :: b :: c :: rest'))
        with (f (Str a) (Str b) (Str c) (ofField (head rest'))
                :: pointPairs f (c :: rest')).
      cbn [length] in *. rewrite IH. lia.
Qed.

(** The [k]-th pair joins the points [k] and [k + 1]. *)
Lemma pointPairs_lookup {A} (f : value -> value -> value -> value -> A)
    (N : nat) (coordList : list string) (k : nat) :
  length coordList = (2 * N)%nat -> (k < N - 1)%nat ->
  pointPairs f coordList !! k =
  Some (f (ofField (coordList !! (2 * k)%nat))
          (ofField (coordList !! (2 * k + 1)%nat))
          (ofField (coordList !! (2 * k + 2)%nat))
          (ofField (coordList !! (2 * k + 3)%nat))).
Proof.
  revert coordList k. induction N as [|N IH]; intros coordList k Hlen Hk; [lia|].
  destruct coordList as [|a [|b rest]]; try (simpl in Hlen; lia).
  assert (Hrest : length rest = (2 * N)%nat) by (simpl in Hlen; lia).
  destruct rest as [|c rest']; [simpl in Hrest; lia|].
  change (pointPairs f (a :: b :: c :: rest'))
    with (f (Str a) (Str b) (Str c) (ofField (head rest'))
            :: pointPairs f (c :: rest')).
  destruct k as [|k].
  - destruct rest'; reflexivity.
  - change ((f (Str a) (Str b) (Str c) (ofField (head rest'))
               :: pointPairs f (c :: rest')) !! S k)
      with (pointPairs f (c :: rest') !! k).
    rewrite (IH (c :: rest') k Hrest) by lia.
    replace (2 * S k)%nat with (S (S (2 * k))) by lia.
    replace (S (S (2 * k)) + 1)%nat with (S (S (2 * k + 1))) by lia.
    replace (S (S (2 * k)) + 2)%nat with (S (S (2 * k + 2))) by lia.
    replace (S (S (2 * k)) + 3)%nat with (S (S (2 * k + 3))) by lia.
    reflexivity.
Qed.

End Tracks.

(** C8: a track whose coordinate list has [N >= 2] points and whose layer
    resolves to a name is converted to [N - 1] nodes; the [k]-th runs
    from point [k] to point [k + 1]; all of them have the same kind,
    width, layer, net field and lock state; and for a track of the board
    (kind ['segment'] asked for) the kind is ['segment'] on a copper layer
    and ['gr_line'] on any other layer. *)
Theorem convertTrack_segments {env : Board.Imports}
    (args : list string) (objName : string)
    (parentCoords : option Board.IParentTransform) (st : Board.IConversionState)
    (coords layerName : string) (N : nat) :
  args !! 3%nat = Some coords ->
  length (split " " coords) = (2 * N)%nat ->
  (2 <= N)%nat ->
  Board.result (Board.getLayerName (args !! 1%nat) st) = Return (Board.Layer layerName) ->
  exists netId kind nodes,
    Board.result (Board.getNetId (args !! 2%nat) st) = Return netId /\
    Board.result (Board.convertTrack args objName parentCoords st) = Return nodes /\
    length nodes = (N - 1)%nat /\
    (forall k, (k < N - 1)%nat ->
       nodes !! k =
       Some (Arr ([Str kind] ++
                  Board.kiStartEnd
                    (ofField (split " " coords !! (2 * k)%nat))
                    (ofField (split " " coords !! (2 * k + 1)%nat))
                    (ofField (split " " coords !! (2 * k + 2)%nat))
                    (ofField (split " " coords !! (2 * k + 3)%nat))
                    parentCoords ++
                  [Arr [Str "width"; Num (Board.kiUnits (ofField (args !! 0%nat)))];
                   Arr [Str "layer"; Str layerName];
                   if Board.isCopper layerName && (0 <? netId)%Z
                   then Arr [Str "net"; Num (ofZ netId)] else null;
                   if fieldIs (args !! 5%nat) "1"
                   then Arr [Str "status"; Num (ofZ 40000)] else null]))) /\
    (objName = "segment" ->
       (kind = "gr_line" <-> Board.isCopper layerName = false) /\
       (kind = "segment" <-> Board.isCopper layerName = true)) /\
    (objName <> "segment" -> kind = objName).
Proof.
  intros Hcoords Hlen HN Hlayer.
  destruct (getNetId_returns (args !! 2%nat) st) as (netId & Hnet & _).
  exists netId,
    (if String.eqb objName "segment" && negb (Board.isCopper layerName)
     then "gr_line" else objName).
  eexists. split; [exact Hnet|].
  split; [|split; [|split; [|split]]].
  - unfold Board.convertTrack. rewrite result_bind, Hnet, Hcoords.
    rewrite result_bind. cbn [Board.ret Board.result Board.final].
    rewrite result_bind.
    rewrite (getLayerName_result _ _ st), Hlayer. reflexivity.
  - apply pointPairs_length. exact Hlen.
  - intros k Hk. rewrite (pointPairs_lookup _ N _ k Hlen Hk). reflexivity.
  - intros ->.
    destruct (Board.isCopper layerName); cbn; split; split; intros; congruence.
  - intros Hother. rewrite (string_eqb_false _ _ Hother). reflexivity.
Qed.

(** A track of three points on the front copper layer: two segments. *)
Lemma convertTrack_segments_witness :
  exists nodes,
    Board.result
      (Board.convertTrack (env := Earlier.imports)
         ["0.2"; "1"; ""; "2000 2000 2000 2100 2100 2100"; "g1"; "0"]
         "segment" None {| Board.nets := [""]; Board.innerLayers := 0 |})
    = Return nodes /\ length nodes = 2%nat.
Proof.
  destruct (convertTrack_segments (env := Earlier.imports)
              ["0.2"; "1"; ""; "2000 2000 2000 2100 2100 2100"; "g1"; "0"]
              "segment" None {| Board.nets := [""]; Board.innerLayers := 0 |}
              "2000 2000 2000 2100 2100 2100" "F.Cu" 3)
    as (netId & kind & nodes & _ & Hrun & Hlen & _).
  - reflexivity.
  - reflexivity.
  - lia.
  - reflexivity.
  - exists nodes. split; [exact Hrun | exact Hlen].
Defined.

(** ** The position of a text *)

Section TextPosition.
Import Board.
Context {env : Imports}.

(** The position [convertText] hands to [kiAt], for every kind of text. *)
Lemma convertText_at (args : list string) (objName : string)
    (parentCoords : option IParentTransform) (st : IConversionState)
    (layerName : resolved) :
  result (textLayer (args !! 6%nat) (String.eqb objName "fp_text")
            (fieldIs (args !! 0%nat) "N") st) = Return layerName ->
  layerName <> NoLayer ->
  exists items,
    result (convertText args objName parentCoords st) = Return (Arr items) /\
    items !! 0%nat = Some (Str objName) /\
    items !! 3%nat =
    Some (kiAt
            (Num (add (parseFloat (ofField (args !! 1%nat)))
                      (xOffset (parseFloat (ofField (args !! 4%nat))))))
            (Num (add (parseFloat (ofField (args !! 2%nat)))
                      (yOffset (parseFloat (ofField (args !! 4%nat))))))
            (ofField (args !! 4%nat)) parentCoords).
Proof.
  intros Hlayer Hsome. unfold convertText. rewrite result_bind, Hlayer.
  destruct layerName as [name| |key]; [|contradiction|];
    (eexists; split; [reflexivity|]; split; reflexivity).
Qed.

End TextPosition.

(** C2, as the code has it: [convertText] makes no difference between a
    text of a footprint and a text of the board.  For either kind, when
    the layer of the text resolves to something other than [null], the
    position it hands to [kiAt] is the declared position plus the two
    offsets computed from the declared angle. *)
Theorem convertText_offsets_every_text {env : Board.Imports}
    (args : list string) (objName : string)
    (parentCoords : option Board.IParentTransform) (st : Board.IConversionState)
    (layerName : Board.resolved) :
  Board.result
    (Board.textLayer (args !! 6%nat) (String.eqb objName "fp_text")
       (fieldIs (args !! 0%nat) "N") st) = Return layerName ->
  layerName <> Board.NoLayer ->
  exists items,
    Board.result (Board.convertText args objName parentCoords st) = Return (Arr items) /\
    items !! 0%nat = Some (Str objName) /\
    items !! 3%nat =
    Some (Board.kiAt
            (Num (add (parseFloat (ofField (args !! 1%nat)))
                      (Board.xOffset (parseFloat (ofField (args !! 4%nat))))))
            (Num (add (parseFloat (ofField (args !! 2%nat)))
                      (Board.yOffset (parseFloat (ofField (args !! 4%nat))))))
            (ofField (args !! 4%nat)) parentCoords).
Proof.
  intros Hlayer Hsome.
  apply (convertText_at args objName parentCoords st layerName Hlayer Hsome).
Qed.

(** A text of the board on the front silkscreen. *)
Lemma convertText_offsets_every_text_witness :
  exists items,
    Board.result
      (Board.convertText (env := Earlier.imports)
         ["L"; "4000"; "3000"; "0.8"; "0"; ""; "3"; ""; "8"; "Hi"; ""; ""; "gge9"; ""; "0"]
         "gr_text" None {| Board.nets := [""]; Board.innerLayers := 0 |})
    = Return (Arr items) /\
    items !! 0%nat = Some (Str "gr_text").
Proof.
  destruct (convertText_offsets_every_text (env := Earlier.imports)
              ["L"; "4000"; "3000"; "0.8"; "0"; ""; "3"; ""; "8"; "Hi"; ""; ""; "gge9"; ""; "0"]
              "gr_text" None {| Board.nets := [""]; Board.innerLayers := 0 |}
              (Board.Layer "F.SilkS"))
    as (items & Hrun & Hkind & _).
  - reflexivity.
  - discriminate.
  - exists items. split; [exact Hrun | exact Hkind].
Defined.

(** C2 as stated fails: a text of the board with the position
    (4000, 3000) and the angle 0 is handed to [kiAt] at
    (4000 - 0.64, 3000 - 1.92), and with the [kiAt] of the earlier version
    the node it gets is not the node of the declared position. *)
Lemma convertText_moves_board_text :
  let args :=
    ["L"; "4000"; "3000"; "0.8"; "0"; ""; "3"; ""; "8"; "Hi"; ""; ""; "gge9"; ""; "0"] in
  exists items,
    Board.result
      (Board.convertText (env := Earlier.imports) args "gr_text" None
         {| Board.nets := [""]; Board.innerLayers := 0 |}) = Return (Arr items) /\
    items !! 3%nat =
      Some (Legacy.kiAt (Num (Fin (4000 - 0.64))) (Num (Fin (3000 - 1.92)))
              (Str "0") None) /\
    items !! 3%nat <> Some (Legacy.kiAt (Str "4000") (Str "3000") (Str "0") None).
Proof.
  intros args.
  assert (Hsin : Math_sin (div (mul Math_PI (Fin 0)) (ofZ 180)) = Fin 0).
  { unfold Math_PI, ofZ. cbn [mul div]. rewrite Reqb_false by lra.
    cbn [Math_sin]. f_equal.
    replace (PI * 0 / 180)%R with 0%R by lra. apply sin_0. }
  assert (Hx : add (Fin 4000) (Board.xOffset (Fin 0)) = Fin (4000 - 0.64)).
  { unfold Board.xOffset. rewrite Hsin. cbn [mul sub add neg]. f_equal. lra. }
  assert (Hy : add (Fin 3000) (Board.yOffset (Fin 0)) = Fin (3000 - 1.92)).
  { unfold Board.yOffset. rewrite Hsin. cbn [mul sub add neg]. f_equal. lra. }
  destruct (convertText_at (env := Earlier.imports) args "gr_text" None
              {| Board.nets := [""]; Board.innerLayers := 0 |} (Board.Layer "F.SilkS")
              eq_refl ltac:(discriminate))
    as (items & Hrun & _ & Hat).
  exists items. split; [exact Hrun|].
  assert (Hat' : items !! 3%nat =
            Some (Legacy.kiAt (Num (Fin (4000 - 0.64))) (Num (Fin (3000 - 1.92)))
                    (Str "0") None)).
  { rewrite Hat. cbn [Board.kiAt Earlier.imports Earlier.parent]. subst args.
    cbn [lookup list_lookup ofField].
    replace (parseFloat (Str "4000")) with (Fin 4000) by (js_compute; reflexivity).
    replace (parseFloat (Str "3000")) with (Fin 3000) by (js_compute; reflexivity).
    replace (parseFloat (Str "0")) with (Fin 0) by (js_compute; reflexivity).
    rewrite Hx, Hy. reflexivity. }
  split; [exact Hat'|].
  rewrite Hat'. intros Hsame. js_compute in Hsame.
  injection Hsame as Hsame _. lra.
Qed.

(** ** Arcs *)

(** C9, as the code has it: for an arc whose layer resolves and whose
    path matches, [convertArc] returns [null] when a coordinate of the
    computed centre is not a number, so that the centre of an emitted node
    is a pair of numbers (the other children are emitted as they come);
    otherwise the node it emits carries the centre, and as its end the
    start point of the arc when the sweep flag is ['1'] and the end point
    of the arc when it is not. *)
Theorem convertArc_center_and_end {env : Board.Imports}
    (args : list string) (objName : string)
    (transform : option Board.IParentTransform) (st : Board.IConversionState)
    (layerName path startPoint arcParams : string) :
  Board.result (Board.getLayerName (args !! 1%nat) st) = Return (Board.Layer layerName) ->
  args !! 3%nat = Some path ->
  Board.matchArcPath (collapseSeparators path) = Some (startPoint, arcParams) ->
  let startXY := split " " startPoint in
  let params := split " " arcParams in
  let start :=
    Board.kiCoords (ofField (startXY !! 0%nat)) (ofField (startXY !! 1%nat)) transform in
  let end_ :=
    Board.kiCoords (ofField (params !! 5%nat)) (ofField (params !! 6%nat)) transform in
  let transformAngle := default undefined (Board.angle <$> transform) in
  let r :=
    Board.rotate
      {| Board.x := Board.kiUnits (ofField (params !! 0%nat));
         Board.y := Board.kiUnits (ofField (params !! 1%nat)) |}
      (if truthyV transformAngle then transformAngle else Num (ofZ 0)) in
  let arc :=
    Board.computeArc (Board.x start) (Board.y start) (Board.x r) (Board.y r)
      (parseFloat (ofField (params !! 2%nat)))
      (fieldIs (params !! 3%nat) "1") (fieldIs (params !! 4%nat) "1")
      (Board.x end_) (Board.y end_) in
  let endPoint := if fieldIs (params !! 4%nat) "1" then start else end_ in
  (isNaN (Board.cx arc) || isNaN (Board.cy arc) = true ->
     Board.result (Board.convertArc args objName transform st) = Return null) /\
  (isNaN (Board.cx arc) || isNaN (Board.cy arc) = false ->
     Board.result (Board.convertArc args objName transform st) =
     Return
       (Arr [Str objName;
             Arr [Str "start"; Num (Board.cx arc); Num (Board.cy arc)];
             Arr [Str "end"; Num (Board.x endPoint); Num (Board.y endPoint)];
             Arr [Str "angle"; Num (Math_abs (Board.extent arc))];
             Arr [Str "width"; Num (Board.kiUnits (ofField (args !! 0%nat)))];
             Arr [Str "layer"; Str layerName]]) /\
     Spec.hasNaN (Arr [Str "start"; Num (Board.cx arc); Num (Board.cy arc)]) = false).
Proof.
  intros Hlayer Hpath Hmatch startXY params start end_ transformAngle r arc endPoint.
  unfold Board.convertArc. rewrite result_bind, Hlayer, Hpath, Hmatch.
  fold startXY params. fold start end_. fold transformAngle. fold r. fold arc.
  split; intros Hcenter; rewrite Hcenter.
  - rewrite result_bind. reflexivity.
  - split; [reflexivity|].
    cbn [Spec.hasNaN existsb]. rewrite orb_false_r. exact Hcenter.
Qed.

(** A half circle on the front silkscreen, drawn with the sweep flag set. *)
Lemma convertArc_center_and_end_witness :
  exists centre width,
    Board.result
      (Board.convertArc (env := Earlier.imports)
         ["1"; "3"; ""; "M 4000,3000 A 10 10 0 0 1 4020 3000"; ""; "gge5"; "0"]
         "gr_arc" None {| Board.nets := [""]; Board.innerLayers := 0 |})
    = Return
        (Arr [Str "gr_arc"; centre;
              Arr [Str "end";
                   Num (Board.x (Earlier.kiCoords (Str "4000") (Str "3000") None));
                   Num (Board.y (Earlier.kiCoords (Str "4000") (Str "3000") None))];
              Arr [Str "angle"; Num (Math_abs (ofZ 180))]; width;
              Arr [Str "layer"; Str "F.SilkS"]]).
Proof.
  destruct (convertArc_center_and_end (env := Earlier.imports)
              ["1"; "3"; ""; "M 4000,3000 A 10 10 0 0 1 4020 3000"; ""; "gge5"; "0"]
              "gr_arc" None {| Board.nets := [""]; Board.innerLayers := 0 |}
              "F.SilkS" "M 4000,3000 A 10 10 0 0 1 4020 3000"
              "4000 3000 " "10 10 0 0 1 4020 3000" eq_refl eq_refl eq_refl)
    as [_ Hnode].
  destruct Hnode as [Hrun _]; [js_compute; reflexivity|].
  eexists _, _. exact Hrun.
Defined.

(** C9 as stated fails in its remark that no not-a-number is ever
    emitted: an arc with a well-formed path and a width that is no number
    is converted, with the [kiUnits] of the earlier version, to a node
    whose width is not a number. *)
Lemma convertArc_emits_NaN_width :
  exists items,
    Board.result
      (Board.convertArc (env := Earlier.imports)
         [""; "3"; ""; "M 4000,3000 A 10 10 0 0 1 4020 3000"; ""; "gge5"; "0"]
         "gr_arc" None {| Board.nets := [""]; Board.innerLayers := 0 |})
    = Return (Arr items) /\
    items !! 4%nat = Some (Arr [Str "width"; Num NaN]) /\
    Spec.hasNaN (Arr items) = true.
Proof.
  eexists. split; [js_compute; reflexivity|].
  split; [reflexivity|]. js_compute. reflexivity.
Qed.

(** ** Pads on a layer the pad converter does not know *)

Section PadLayers.
Import Board Spec.
Context {env : Imports}.

(** The layer table of the pad converter has the keys 1, 2 and 11. *)
Lemma padLayers_none (layerId : option string) :
  layerId <> Some "1" -> layerId <> Some "2" -> layerId <> Some "11" ->
  lookupField padLayers layerId = None.
Proof.
  intros H1 H2 H11. destruct layerId as [s|]; [|reflexivity].
  unfold lookupField, padLayers, showField. cbn [assoc].
  rewrite !string_eqb_false by congruence. reflexivity.
Qed.

(** With an empty point list the rectangle test fails, so the pad is
    dropped exactly when its declared shape is the polygon. *)
Lemma dropped_test (shape : option string) (points : string) :
  isCustom
    (if isCustom shape &&
        isRectangle (map (fun p => parseFloat (Str p)) (split " " points))
     then Some "RECT" else shape) && String.eqb points ""
  = isCustom shape && String.eqb points "".
Proof.
  destruct (String.eqb points "") eqn:Hempty.
  - apply String.eqb_eq in Hempty. subst points.
    change (isRectangle (map (fun p => parseFloat (Str p)) (split " " ""))) with false.
    rewrite andb_false_r. reflexivity.
  - rewrite !andb_false_r. reflexivity.
Qed.

Lemma convertPad_dropped (args : list string) (transform : IParentTransform)
    (st : IConversionState) :
  droppedPolygon args = true ->
  convertPad args transform st =
  {| result := Return null; final := st;
     warnings := ["PAD " +:+ showField (args !! 11%nat) +:+
                  " is a polygon, but has no points defined"] |}.
Proof.
  unfold droppedPolygon, convertPad. intros Hdropped.
  destruct (args !! 9%nat) as [points|]; [|rewrite andb_false_r in Hdropped; discriminate].
  cbn [fieldIs] in Hdropped. rewrite dropped_test, Hdropped. reflexivity.
Qed.

Lemma throwsAlways_convertPad (args : list string) (transform : IParentTransform) :
  lookupField padLayers (args !! 5%nat) = None ->
  droppedPolygon args = false ->
  throwsAlways (convertPad args transform).
Proof.
  unfold droppedPolygon, convertPad. intros Hlayer Hkept st.
  destruct (args !! 9%nat) as [points|]; [|reflexivity].
  cbn [fieldIs] in Hkept. rewrite dropped_test, Hkept.
  rewrite result_bind.
  destruct (getNetId_returns (args !! 6%nat) st) as (netId & -> & _).
  destruct (if isCustom (args !! 0%nat) && _ then _ else _) as [actualWidth actualHeight].
  unfold read. rewrite Hlayer. destruct (inherited _); reflexivity.
Qed.

(** A pad record of the board that is no ellipse. *)
Lemma throwsAlways_convertShape_pad (shape : string) (args : list string) :
  split "~" shape = "PAD" :: args ->
  fieldIs (args !! 0%nat) "ELLIPSE" = false ->
  (forall transform, throwsAlways (convertPad args transform)) ->
  throwsAlways (convertShape shape).
Proof.
  intros Hsplit Hshape Hpad. unfold convertShape. rewrite Hsplit.
  cbn [head tail default from_option Datatypes.id].
  change (String.eqb "PAD" "VIA") with false. change (String.eqb "PAD" "TRACK") with false.
  change (String.eqb "PAD" "TEXT") with false. change (String.eqb "PAD" "ARC") with false.
  change (String.eqb "PAD" "COPPERAREA") with false.
  change (String.eqb "PAD" "SOLIDREGION") with false.
  change (String.eqb "PAD" "CIRCLE") with false. change (String.eqb "PAD" "HOLE") with false.
  change (String.eqb "PAD" "LIB") with false. change (String.eqb "PAD" "PAD") with true.
  cbv iota. apply throwsAlways_bind. unfold convertPadToVia. rewrite Hshape.
  cbn [negb]. apply throwsAlways_bind, Hpad.
Qed.

(** A pad record inside a footprint. *)
Lemma throwsAlways_convertLibShape_pad (id : option string) (transform : IParentTransform)
    (sub : string) (args : list string) :
  split "~" sub = "PAD" :: args ->
  (forall t, throwsAlways (convertPad args t)) ->
  throwsAlways (convertLibShape id transform sub).
Proof.
  intros Hsplit Hpad. unfold convertLibShape. rewrite Hsplit.
  cbn [head tail default from_option Datatypes.id].
  change (String.eqb "PAD" "TRACK") with false. change (String.eqb "PAD" "TEXT") with false.
  change (String.eqb "PAD" "ARC") with false. change (String.eqb "PAD" "HOLE") with false.
  change (String.eqb "PAD" "PAD") with true.
  cbv iota. apply throwsAlways_bind, Hpad.
Qed.

End PadLayers.

(** C10, as the code has it: for a pad whose layer id is none of ['1'],
    ['2'] and ['11'] the layer lookup of [convertPad] finds no list of
    layers: it reads [undefined], or, when the id names a member of
    [Object.prototype], that member.  If the pad is a polygon without
    points it has been dropped with a warning before the lookup is
    reached; every other such pad makes [convertPad] throw, and a board
    that holds it, as a pad record of its own that is no ellipse or
    inside a footprint, is rejected as a whole. *)
Theorem convertPad_unknown_layer {env : Board.Imports}
    (args : list string) :
  args !! 5%nat <> Some "1" ->
  args !! 5%nat <> Some "2" ->
  args !! 5%nat <> Some "11" ->
  read Board.padLayers (args !! 5%nat) =
    (if inherited (showField (args !! 5%nat))
     then Inherited (showField (args !! 5%nat)) else Missing) /\
  (Spec.droppedPolygon args = true ->
     forall transform st,
       Board.result (Board.convertPad args transform st) = Return null /\
       Board.warnings (Board.convertPad args transform st) =
         ["PAD " +:+ showField (args !! 11%nat) +:+
          " is a polygon, but has no points defined"]) /\
  (Spec.droppedPolygon args = false ->
     (forall transform st,
        isThrow (Board.result (Board.convertPad args transform st)) = true) /\
     (forall input heap shape,
        In shape (Board.shape input) ->
        split "~" shape = "PAD" :: args ->
        fieldIs (args !! 0%nat) "ELLIPSE" = false ->
        isThrow (Board.settled (Board.convertBoardToArray input heap)) = true) /\
     (forall input heap shape libArgs sub,
        In shape (Board.shape input) ->
        split "~" shape = "LIB" :: libArgs ->
        In sub (tail (splitStr "#@$" (join "~" libArgs))) ->
        split "~" sub = "PAD" :: args ->
        isThrow (Board.settled (Board.convertBoardToArray input heap)) = true)).
Proof.
  intros H1 H2 H11.
  pose proof (padLayers_none (args !! 5%nat) H1 H2 H11) as Hnone.
  split; [unfold read; rewrite Hnone; reflexivity|]. split.
  - intros Hdropped transform st.
    rewrite (convertPad_dropped args transform st Hdropped). split; reflexivity.
  - intros Hkept.
    assert (Hpad : forall transform, Spec.throwsAlways (Board.convertPad args transform)).
    { intros transform. apply throwsAlways_convertPad; assumption. }
    split; [exact Hpad|]. split.
    + intros input heap shape Hin Hsplit Hshape.
      apply (convertBoardToArray_aborts input heap shape Hin).
      apply (throwsAlways_convertShape_pad shape args Hsplit Hshape Hpad).
    + intros input heap shape libArgs sub Hin Hsplit Hsub Hpadsplit.
      apply (convertBoardToArray_aborts input heap shape Hin).
      apply (throwsAlways_convertShape_lib shape sub libArgs Hsplit Hsub).
      intros id transform.
      apply (throwsAlways_convertLibShape_pad id transform sub args Hpadsplit Hpad).
Qed.

(** A footprint with a rectangular pad on layer 5. *)
Lemma convertPad_unknown_layer_witness :
  let pad :=
    ["RECT"; "4010"; "3010"; "6"; "4"; "5"; "GND"; "1"; "0"; ""; "0"; "gge7"; "0"; ""; "Y"; "0"] in
  let lib :=
    "LIB~4000~3000~package`R0603~0~~gge3~1~~~0#@$PAD~RECT~4010~3010~6~4~5~GND~1~0~~0~gge7~0~~Y~0" in
  (forall transform st,
     isThrow (Board.result (Board.convertPad (env := Earlier.imports) pad transform st))
     = true) /\
  isThrow
    (Board.settled
       (Board.convertBoardToArray (env := Earlier.imports)
          {| Board.routerRule := None; Board.shape := [lib] |} ∅)) = true.
Proof.
  intros pad lib.
  destruct (convertPad_unknown_layer (env := Earlier.imports) pad)
    as (_ & _ & Hkept); try discriminate.
  destruct (Hkept eq_refl) as (Hpad & _ & Hlib).
  split; [exact Hpad|].
  apply (Hlib _ _ lib
           ["4000"; "3000"; "package`R0603"; "0"; ""; "gge3"; "1"; ""; ""; "0#@$PAD";
            "RECT"; "4010"; "3010"; "6"; "4"; "5"; "GND"; "1"; "0"; ""; "0"; "gge7";
            "0"; ""; "Y"; "0"]
           "PAD~RECT~4010~3010~6~4~5~GND~1~0~~0~gge7~0~~Y~0").
  - left. reflexivity.
  - reflexivity.
  - left. reflexivity.
  - reflexivity.
Defined.

(** C10 as stated fails: a polygon pad on layer 5 without points does not
    make the pad converter throw; it is dropped with a warning.  And on
    the layer id ["constructor"] the lookup does not yield [undefined]:
    it reads the member of that name which the table inherits from
    [Object.prototype] (a rectangular pad on that layer throws all the
    same: the member cannot be spread). *)
Lemma convertPad_drops_polygon_on_unknown_layer :
  let pad := ["POLYGON"; "4000"; "3000"; "10"; "10"; "5"; ""; "1"; "0"; ""; "0"; "gge1"] in
  let other :=
    ["RECT"; "4010"; "3010"; "6"; "4"; "constructor"; "GND"; "1"; "0"; ""; "0"; "gge7"] in
  let transform :=
    {| Board.origin := {| Board.x := Fin 0; Board.y := Fin 0 |};
       Board.angle := Num (Fin 0) |} in
  let st := {| Board.nets := [""]; Board.innerLayers := 0 |} in
  pad !! 5%nat = Some "5" /\
  Board.convertPad (env := Earlier.imports) pad transform st =
    {| Board.result := Return null; Board.final := st;
       Board.warnings := ["PAD gge1 is a polygon, but has no points defined"] |} /\
  isThrow (Board.result (Board.convertPad (env := Earlier.imports) pad transform st))
  = false /\
  read Board.padLayers (other !! 5%nat) = Inherited "constructor" /\
  Board.result (Board.convertPad (env := Earlier.imports) other transform st)
  = Throw (TypeError "layers[layerId] is not iterable").
Proof.
  intros pad other transform st. split; [reflexivity|].
  assert (Hrun : Board.convertPad (env := Earlier.imports) pad transform st =
            {| Board.result := Return null; Board.final := st;
               Board.warnings := ["PAD gge1 is a polygon, but has no points defined"] |}).
  { js_compute. reflexivity. }
  split; [exact Hrun|]. split; [rewrite Hrun; reflexivity|].
  split; [reflexivity|]. js_compute. reflexivity.
Qed.

(** * Further properties *)

(** ** The conversion state changes through the two resolvers only *)

Section StateFootprint.
Import Board Laws.
Context {env : Imports}.
Variable R : IConversionState -> IConversionState -> Prop.
Hypothesis R_refl : forall st, R st st.
Hypothesis R_trans : forall a b c, R a b -> R b c -> R a c.
Hypothesis R_net : forall name, respects R (getNetId name).
Hypothesis R_layer : forall id, respects R (getLayerName id).

Lemma respects_ret {A} (a : A) : respects R (ret a).
Proof. intros st. apply R_refl. Qed.

Lemma respects_throw {A} (e : exn) : respects R (@throw A e).
Proof. intros st. apply R_refl. Qed.

Lemma respects_warn (message : string) : respects R (warn message).
Proof. intros st. apply R_refl. Qed.

Lemma respects_get : respects R get.
Proof. intros st. apply R_refl. Qed.

Lemma respects_bind {A B} (m : M A) (k : A -> M B) :
  respects R m -> (forall a, respects R (k a)) -> respects R (bind m k).
Proof.
  intros Hm Hk st. rewrite final_bind.
  destruct (result (m st)) as [a|e].
  - eapply R_trans; [apply Hm | apply Hk].
  - apply Hm.
Qed.

Lemma respects_settle {A} (m : M A) : respects R m -> respects R (settle m).
Proof. intros Hm st. apply Hm. Qed.

Ltac respects_step :=
  match goal with
  | |- respects R (bind _ _) => apply respects_bind; [|intros ?]
  | |- respects R (ret _) => apply respects_ret
  | |- respects R (throw _) => apply respects_throw
  | |- respects R (warn _) => apply respects_warn
  | |- respects R (getNetId _) => apply R_net
  | |- respects R (getLayerName _) => apply R_layer
  | |- respects R (settle _) => apply respects_settle
  | |- respects R (match ?x with _ => _ end) => destruct x
  end.

Ltac respects_auto := repeat respects_step.

Lemma respects_convertVia args parentCoords : respects R (convertVia args parentCoords).
Proof. unfold convertVia. respects_auto. Qed.

Lemma respects_convertTrack args objName parentCoords :
  respects R (convertTrack args objName parentCoords).
Proof. unfold convertTrack. respects_auto. Qed.

Lemma respects_textLayer layer footprint isName :
  respects R (textLayer layer footprint isName).
Proof. unfold textLayer. respects_auto. Qed.

Lemma respects_convertText args objName parentCoords :
  respects R (convertText args objName parentCoords).
Proof.
  unfold convertText. apply respects_bind; [apply respects_textLayer|].
  intros layerName. respects_auto.
Qed.

Lemma respects_convertArc args objName transform :
  respects R (convertArc args objName transform).
Proof. unfold convertArc. respects_auto. Qed.

Lemma respects_convertPad args transform : respects R (convertPad args transform).
Proof. unfold convertPad. respects_auto. Qed.

Lemma respects_convertPadToVia args parentCoords :
  respects R (convertPadToVia args parentCoords).
Proof.
  unfold convertPadToVia. destruct (negb _).
  - apply respects_bind; [apply respects_convertPad|]. intros pad. respects_auto.
  - respects_auto.
Qed.

Lemma respects_convertCircle args type parentCoords :
  respects R (convertCircle args type parentCoords).
Proof. unfold convertCircle. respects_auto. Qed.

Lemma respects_pathToPolygon path parentCoords :
  respects R (pathToPolygon path parentCoords).
Proof. unfold pathToPolygon. respects_auto. Qed.

Lemma respects_convertPolygon args parentCoords :
  respects R (convertPolygon args parentCoords).
Proof.
  unfold convertPolygon. destruct (negb _); [respects_auto|].
  apply respects_bind; [apply R_layer|].
  intros [layerName| |key]; try (respects_auto; fail);
    (apply respects_bind; [apply respects_pathToPolygon|]; intros polygon; respects_auto).
Qed.

Lemma respects_forEach {A B} (body : A -> M (list B)) (l : list A) :
  (forall a, respects R (body a)) -> respects R (forEach body l).
Proof.
  intros Hbody. induction l as [|a l IH]; simpl.
  - apply respects_ret.
  - apply respects_bind; [apply Hbody|]. intros pushed.
    apply respects_bind; [exact IH|]. intros more. apply respects_ret.
Qed.

Lemma respects_convertLibShape id transform shape :
  respects R (convertLibShape id transform shape).
Proof.
  unfold convertLibShape.
  repeat match goal with
         | |- respects R (if ?b then _ else _) => destruct b
         end;
    first [ apply respects_convertTrack
          | apply respects_bind;
            [ first [ apply respects_convertText | apply respects_convertArc
                    | apply respects_convertPad | apply respects_convertCircle
                    | apply respects_convertPolygon | apply respects_warn ]
            | intros ?; apply respects_ret ]
          | apply respects_ret ].
Qed.

Lemma respects_convertLib args : respects R (convertLib args).
Proof.
  unfold convertLib. destruct (args !! 2%nat); [|apply respects_throw].
  apply respects_bind; [|intros converted; apply respects_ret].
  apply respects_forEach. intros shape. apply respects_convertLibShape.
Qed.

Lemma respects_convertCopperArea args : respects R (convertCopperArea args).
Proof. unfold convertCopperArea. respects_auto. Qed.

Lemma respects_convertSolidRegion args : respects R (convertSolidRegion args).
Proof.
  unfold convertSolidRegion.
  apply respects_bind; [apply R_layer|].
  intros [layerName| |key]; try (respects_auto; fail);
    (apply respects_bind; [apply respects_pathToPolygon|]; intros polygon; respects_auto).
Qed.

Lemma respects_convertShape shape : respects R (convertShape shape).
Proof.
  unfold convertShape.
  repeat match goal with
         | |- respects R (if ?b then _ else _) => destruct b
         end;
    first [ apply respects_ret
          | apply respects_bind;
            [ first [ apply respects_convertVia | apply respects_convertTrack
                    | apply respects_convertText | apply respects_convertArc
                    | apply respects_convertCopperArea | apply respects_convertSolidRegion
                    | apply respects_convertCircle | apply respects_convertLib
                    | apply respects_convertPadToVia | apply respects_warn ]
            | intros ?; apply respects_ret ] ].
Qed.

Lemma respects_mapAsync {A B} (f : A -> M B) (l : list A) :
  (forall a, respects R (f a)) -> respects R (mapAsync f l).
Proof.
  intros Hf. induction l as [|a l IH]; simpl.
  - apply respects_ret.
  - apply respects_bind; [apply respects_settle, Hf|]. intros o.
    apply respects_bind; [exact IH|]. intros os. apply respects_ret.
Qed.

End StateFootprint.

(** ** The run of a whole board, step by step *)

Section WholeRun.
Import Board Laws.
Context {env : Imports}.

(** Awaiting settled promises reads them; it touches neither the state
    nor the console. *)
Lemma awaitAll_pure {A} (promises : list (outcome A)) (st : IConversionState) :
  final (awaitAll promises st) = st /\ warnings (awaitAll promises st) = [] /\
  match firstThrow promises with
  | Some e => result (awaitAll promises st) = Throw e
  | None => isThrow (result (awaitAll promises st)) = false
  end.
Proof.
  induction promises as [|[a|e] rest IH]; simpl.
  - repeat split.
  - destruct IH as (Hfinal & Hwarn & Hres).
    rewrite final_bind, warnings_bind, result_bind.
    destruct (firstThrow rest) as [e|].
    + rewrite Hres. repeat split; assumption.
    + destruct (result (awaitAll rest st)); [|discriminate Hres].
      cbn [ret final warnings result]. rewrite Hfinal, Hwarn. repeat split.
  - repeat split.
Qed.

(** [mapAsync] never throws. *)
Lemma mapAsync_settles {A B} (f : A -> M B) (l : list A) (st : IConversionState) :
  exists promises, result (mapAsync f l st) = Return promises.
Proof.
  destruct (mapAsync_returns f l st) as (promises & Hrun & _).
  exists promises. exact Hrun.
Qed.

(** The three components of the run of [convertShapes], in terms of the
    conversions of the shapes. *)
Lemma convertShapes_run (shapeList : list string) (st : IConversionState) :
  let conversions := mapAsync convertShape shapeList (seeded st) in
  final (convertShapes shapeList st) = final conversions /\
  warnings (convertShapes shapeList st) = warnings conversions /\
  exists promises,
    result conversions = Return promises /\
    result (convertShapes shapeList st) =
    match result (awaitAll promises (final conversions)) with
    | Return converted =>
        Return (Arr (preamble (innerLayers (final conversions)) ++
                     List.filter notNullish
                       (netNodes (nets (final conversions)) ++ flatten converted)))
    | Throw e => Throw e
    end.
Proof.
  intros conversions.
  destruct (mapAsync_settles convertShape shapeList (seeded st)) as (promises & Hrun).
  fold conversions in Hrun.
  unfold convertShapes.
  rewrite final_bind, warnings_bind, result_bind.
  cbn [unshiftNets bind get put result final warnings app].
  change {| nets := "" :: nets st; innerLayers := innerLayers st |} with (seeded st).
  rewrite final_bind, warnings_bind, result_bind.
  fold conversions. rewrite Hrun.
  destruct (awaitAll_pure promises (final conversions)) as (Hfinal & Hwarn & _).
  rewrite final_bind, warnings_bind, result_bind, Hwarn.
  split; [|split].
  - destruct (result (awaitAll promises (final conversions))); [|exact Hfinal].
    cbn [bind get ret result final]. exact Hfinal.
  - destruct (result (awaitAll promises (final conversions)));
      cbn [bind get ret result final warnings app]; apply app_nil_r.
  - exists promises. split; [reflexivity|].
    destruct (result (awaitAll promises (final conversions))); [|reflexivity].
    cbn [bind get ret result final]. rewrite Hfinal. reflexivity.
Qed.

End WholeRun.

(** ** The net table *)

Section NetTable.
Import Board Laws.
Context {env : Imports}.

Lemma indexOfFrom_absent (l : list string) (name : string) (i : Z) :
  (0 <= i)%Z -> indexOfFrom i l name = (-1)%Z -> name ∉ l.
Proof.
  revert i. induction l as [|y l IH]; intros i Hi Hnone; simpl in Hnone.
  - apply not_elem_of_nil.
  - destruct (String.eqb y name) eqn:Heq; [lia|].
    apply not_elem_of_cons. split.
    + intros ->. rewrite String.eqb_refl in Heq. discriminate Heq.
    + apply (IH (i + 1)%Z); [lia | exact Hnone].
Qed.

(** A name that is found is found at the same place in a longer table. *)
Lemma indexOfFrom_app_found (l more : list string) (name : string) (i : Z) :
  (0 <= i)%Z -> (0 <= indexOfFrom i l name)%Z ->
  indexOfFrom i (l ++ more) name = indexOfFrom i l name.
Proof.
  revert i. induction l as [|y l IH]; intros i Hi Hfound; simpl in *.
  - lia.
  - destruct (String.eqb y name); [reflexivity|].
    apply IH; [lia | exact Hfound].
Qed.

Lemma indexOfFrom_app_absent (l more : list string) (name : string) (i : Z) :
  name ∉ l ->
  indexOfFrom i (l ++ more) name = indexOfFrom (i + Z.of_nat (length l)) more name.
Proof.
  revert i. induction l as [|y l IH]; intros i Habsent; simpl.
  - rewrite Z.add_0_r. reflexivity.
  - apply not_elem_of_cons in Habsent. destruct Habsent as [Hne Habsent].
    rewrite string_eqb_false by congruence.
    rewrite (IH (i + 1)%Z Habsent). f_equal. lia.
Qed.

(** The three ways [getNetId] can go. *)
Lemma getNetId_cases (name : option string) (st : IConversionState) :
  (result (getNetId name st) = Return (-1)%Z /\ final (getNetId name st) = st /\
   (name = None \/ name = Some "")) \/
  (exists s, name = Some s /\ s <> "" /\
     (0 <= indexOfFrom 0 (nets st) s)%Z /\
     result (getNetId name st) = Return (indexOfFrom 0 (nets st) s) /\
     final (getNetId name st) = st) \/
  (exists s, name = Some s /\ s <> "" /\ (s ∉ nets st) /\
     result (getNetId name st) = Return (Z.of_nat (length (nets st))) /\
     final (getNetId name st) =
       {| nets := nets st ++ [s]; innerLayers := innerLayers st |}).
Proof.
  unfold getNetId. destruct name as [name|]; [|left; repeat split; left; reflexivity].
  cbn [truthyV]. rewrite negb_involutive.
  destruct (String.eqb name "") eqn:Hempty.
  - apply String.eqb_eq in Hempty. subst name.
    left. repeat split. right. reflexivity.
  - apply String.eqb_neq in Hempty. right.
    unfold bind, get, put, ret; simpl.
    destruct (0 <=? indexOfFrom 0 (nets st) name)%Z eqn:Hfound; simpl.
    + left. exists name. repeat split; try assumption. apply Z.leb_le. exact Hfound.
    + right. exists name. apply Z.leb_gt in Hfound.
      assert (Hnone : indexOfFrom 0 (nets st) name = (-1)%Z).
      { destruct (indexOfFrom_range (nets st) name 0) as [Hnone | Hsome]; [exact Hnone | lia]. }
      repeat split; try assumption.
      * apply (indexOfFrom_absent _ _ 0%Z); [lia | exact Hnone].
      * rewrite length_app. simpl. f_equal. lia.
Qed.

(** A name the table holds is resolved without any effect. *)
Lemma getNetId_found (s : string) (st : IConversionState) :
  s <> "" -> (0 <= indexOfFrom 0 (nets st) s)%Z ->
  getNetId (Some s) st =
  {| result := Return (indexOfFrom 0 (nets st) s); final := st; warnings := [] |}.
Proof.
  intros Hne Hfound. unfold getNetId. cbn [truthyV]. rewrite negb_involutive.
  rewrite string_eqb_false by exact Hne.
  unfold bind, get, put, ret; simpl.
  apply Z.leb_le in Hfound. rewrite Hfound. reflexivity.
Qed.

Lemma getLayerName_nets (id : option string) (st : IConversionState) :
  nets (final (getLayerName id st)) = nets st.
Proof.
  unfold getLayerName. destruct (read layers id); [reflexivity|reflexivity|].
  destruct (between 21 50 (parseInt id)); [reflexivity|].
  destruct (between 99 199 (parseInt id)); reflexivity.
Qed.


Lemma keeps_refl (P : IConversionState -> Prop) (st : IConversionState) : keeps P st st.
Proof. intros HP. exact HP. Qed.

Lemma keeps_trans (P : IConversionState -> Prop) (a b c : IConversionState) :
  keeps P a b -> keeps P b c -> keeps P a c.
Proof. intros Hab Hbc HP. apply Hbc, Hab, HP. Qed.

Lemma getNetId_distinct (name : option string) :
  respects (keeps distinctNets) (getNetId name).
Proof.
  intros st Hdistinct. unfold distinctNets in *.
  destruct (getNetId_cases name st)
    as [(_ & -> & _) | [(s & _ & _ & _ & _ & ->) | (s & _ & _ & Hfresh & _ & ->)]];
    try exact Hdistinct.
  cbn [nets]. apply NoDup_app. split; [exact Hdistinct|]. split.
  - intros x Hx Hs. apply list_elem_of_singleton in Hs. subst x. contradiction.
  - apply NoDup_singleton.
Qed.

Lemma getLayerName_distinct (id : option string) :
  respects (keeps distinctNets) (getLayerName id).
Proof.
  intros st Hdistinct. unfold distinctNets in *.
  rewrite getLayerName_nets. exact Hdistinct.
Qed.

Lemma between_inv (lo hi : Z) (n : option Z) :
  between lo hi n = true -> exists k, n = Some k /\ (lo <= k <= hi)%Z.
Proof.
  destruct n as [k|]; simpl; [|discriminate].
  intros Hin. apply andb_prop in Hin. destruct Hin as [Hlo Hhi].
  exists k. split; [reflexivity | lia].
Qed.



End NetTable.

(** [X1]: whatever a converter does to the conversion state it does by
    calls of [getNetId] and [getLayerName].  Any relation between states
    that is reflexive and transitive and holds across every call of these
    two holds across the conversion of every shape, whether it returns or
    throws, and across the conversion of all the shapes of a board, from
    the pre-seeded state to the state the run ends in. *)
Theorem state_changes_through_resolvers_only {env : Board.Imports}
    (R : Board.IConversionState -> Board.IConversionState -> Prop) :
  (forall st, R st st) ->
  (forall a b c, R a b -> R b c -> R a c) ->
  (forall name, Laws.respects R (Board.getNetId name)) ->
  (forall id, Laws.respects R (Board.getLayerName id)) ->
  (forall shape, Laws.respects R (Board.convertShape shape)) /\
  (forall shapeList st,
     R (Laws.seeded st) (Board.final (Board.convertShapes shapeList st))).
Proof.
  intros Hrefl Htrans Hnet Hlayer.
  assert (Hshape : forall shape, Laws.respects R (Board.convertShape shape)).
  { intros shape. apply respects_convertShape; assumption. }
  split; [exact Hshape|].
  intros shapeList st.
  destruct (convertShapes_run shapeList st) as (-> & _).
  apply (respects_mapAsync R Hrefl Htrans). exact Hshape.
Qed.

(** For the relation "the state has only grown", on a via. *)
Lemma state_changes_through_resolvers_only_witness :
  let st := {| Board.nets := [""]; Board.innerLayers := 0 |} in
  Spec.extends st
    (Board.final (Board.convertShape (env := Earlier.imports)
                    "VIA~4010~3010~2~GND~0.5~gge5~0" st)) /\
  Spec.extends (Laws.seeded st)
    (Board.final (Board.convertShapes (env := Earlier.imports)
                    ["VIA~4010~3010~2~GND~0.5~gge5~0"; "TRACK~1~21~VCC~4000 3000 4010 3000~gge6~0"]
                    st)).
Proof.
  intros st.
  destruct (state_changes_through_resolvers_only (env := Earlier.imports) Spec.extends
              extends_refl extends_trans growing_getNetId growing_getLayerName)
    as [Hshape Hboard].
  split; [apply Hshape | apply Hboard].
Defined.

(** ** Names and ids *)

Section NetIds.
Import Board Laws.
Context {env : Imports}.

Lemma getNetId_again (netName : option string) (st st' : IConversionState) :
  Spec.extends (final (getNetId netName st)) st' ->
  getNetId netName st' =
  {| result := result (getNetId netName st); final := st'; warnings := [] |}.
Proof.
  intros [[more Hmore] _].
  destruct (getNetId_cases netName st)
    as [(Hres & _ & Hname) |
        [(s & -> & Hne & Hfound & Hres & Hfinal) | (s & -> & Hne & Hfresh & Hres & Hfinal)]].
  - rewrite Hres. destruct Hname as [-> | ->]; reflexivity.
  - rewrite Hres. rewrite Hfinal in Hmore.
    assert (Hsame : indexOfFrom 0 (nets st') s = indexOfFrom 0 (nets st) s).
    { rewrite Hmore. apply indexOfFrom_app_found; [lia | exact Hfound]. }
    rewrite (getNetId_found s st' Hne) by (rewrite Hsame; exact Hfound).
    rewrite Hsame. reflexivity.
  - rewrite Hres. rewrite Hfinal in Hmore. cbn [nets] in Hmore.
    assert (Hat : indexOfFrom 0 (nets st ++ [s]) s = Z.of_nat (length (nets st))).
    { rewrite (indexOfFrom_app_absent _ _ _ _ Hfresh). simpl.
      rewrite String.eqb_refl. lia. }
    assert (Hsame : indexOfFrom 0 (nets st') s = Z.of_nat (length (nets st))).
    { rewrite Hmore, <- Hat. apply indexOfFrom_app_found; [lia | rewrite Hat; lia]. }
    rewrite (getNetId_found s st' Hne) by (rewrite Hsame; lia).
    rewrite Hsame. reflexivity.
Qed.

End NetIds.

(** [X2]: a net name keeps its id.  Once [getNetId] has resolved a name,
    resolving the same name again, at once or after any number of shapes
    have been converted in between, gives the same id, appends nothing to
    the net table and writes no warning. *)
Theorem getNetId_same_name_same_id {env : Board.Imports}
    (netName : option string) (shapeList : list string) (st : Board.IConversionState) :
  let first := Board.getNetId netName st in
  let later := Board.final (Board.mapAsync Board.convertShape shapeList (Board.final first)) in
  Board.getNetId netName later =
  {| Board.result := Board.result first; Board.final := later; Board.warnings := [] |}.
Proof.
  intros first later. apply getNetId_again.
  apply growing_mapAsync. intros shape. apply growing_convertShape.
Qed.

(** [X3]: the net table names every net once.  If the net list of the
    input has no name twice and does not hold the empty name, then at the
    end of the run, whether it returns or rejects, the input's list
    begins with the empty name and still has no name twice: the net nodes
    of the document have distinct names and the ids of distinct names
    differ. *)
Theorem net_table_has_no_duplicates {env : Board.Imports}
    (input : Board.IEasyEDABoard) (heap : gmap Board.loc (list string))
    (l : Board.loc) (table : list string) :
  Board.routerRule input = Some l ->
  heap !! l = Some table ->
  NoDup table ->
  "" ∉ table ->
  exists added,
    Board.heapAfter (Board.convertBoardToArray input heap) !! l
      = Some ("" :: table ++ added) /\
    NoDup ("" :: table ++ added).
Proof.
  intros Hrule Hheap Hdistinct Hempty.
  set (st := {| Board.nets := table; Board.innerLayers := 0 |}).
  destruct (convertShapes_nets (Board.shape input) st) as [added Hadded].
  exists added. split.
  - unfold Board.convertBoardToArray. rewrite Hrule, Hheap. cbn [Board.heapAfter].
    rewrite lookup_insert_eq. fold st. rewrite Hadded. reflexivity.
  - change ("" :: table ++ added) with ("" :: Board.nets st ++ added).
    rewrite <- Hadded.
    assert (Hkeeps : Laws.keeps Laws.distinctNets (Laws.seeded st)
                       (Board.final (Board.convertShapes (Board.shape input) st))).
    { destruct (convertShapes_run (Board.shape input) st) as (-> & _).
      apply (respects_mapAsync (Laws.keeps Laws.distinctNets)
               (keeps_refl _) (keeps_trans _)).
      intros shape.
      apply (respects_convertShape (Laws.keeps Laws.distinctNets)
               (keeps_refl _) (keeps_trans _) getNetId_distinct getLayerName_distinct). }
    apply Hkeeps. unfold Laws.distinctNets, Laws.seeded, st. cbn [Board.nets].
    apply NoDup_cons. split; assumption.
Qed.

(** A board with two nets, a via on a new net and a track on a known one. *)
Lemma net_table_has_no_duplicates_witness :
  let input :=
    {| Board.routerRule := Some 1%positive;
       Board.shape := ["VIA~4010~3010~2~VCC~0.5~gge5~0";
                       "TRACK~1~1~GND~4000 3000 4010 3000~gge6~0"] |} in
  let heap : gmap Board.loc (list string) := {[ 1%positive := ["GND"; "SIG"] ]} in
  exists added,
    Board.heapAfter (Board.convertBoardToArray (env := Earlier.imports) input heap)
      !! 1%positive = Some ("" :: ["GND"; "SIG"] ++ added) /\
    NoDup ("" :: ["GND"; "SIG"] ++ added).
Proof.
  intros input heap.
  apply (net_table_has_no_duplicates (env := Earlier.imports) input heap 1%positive).
  - reflexivity.
  - apply lookup_singleton_eq.
  - apply NoDup_cons. split.
    + intros Hin. apply elem_of_cons in Hin. destruct Hin as [Hin | Hin]; [discriminate|].
      apply elem_of_nil in Hin. exact Hin.
    + apply NoDup_singleton.
  - intros Hin. apply elem_of_cons in Hin. destruct Hin as [Hin | Hin]; [discriminate|].
    apply elem_of_cons in Hin. destruct Hin as [Hin | Hin]; [discriminate|].
    apply elem_of_nil in Hin. exact Hin.
Defined.

(** ** The document *)

Section Document.
Import Board Laws.
Context {env : Imports}.

Lemma filter_imap_kept {A} (f : nat -> A -> value) (l : list A) :
  (forall i a, notNullish (f i a) = true) ->
  List.filter notNullish (imap f l) = imap f l.
Proof.
  revert f. induction l as [|a l IH]; intros f Hf; [reflexivity|].
  cbn [imap List.filter]. rewrite Hf. f_equal. apply IH. intros i b. apply Hf.
Qed.

Lemma filter_netNodes (table : list string) :
  List.filter notNullish (netNodes table) = netNodes table.
Proof. unfold netNodes. apply filter_imap_kept. intros i a. reflexivity. Qed.

Lemma filter_kept (l : list value) :
  Forall (fun v => notNullish v = true) (List.filter notNullish l).
Proof.
  apply Forall_forall. intros v Hv. apply list_elem_of_In in Hv.
  apply List.filter_In in Hv. destruct Hv as [_ Hv]. exact Hv.
Qed.


Lemma innerLayerRows_elem (count i : Z) :
  (1 <= i <= count)%Z ->
  Arr [Num (ofZ i); Str ("In" +:+ toStringZ i +:+ ".Cu"); Str "signal"]
    ∈ innerLayerRows count.
Proof.
  intros Hi. unfold innerLayerRows. apply list_elem_of_In.
  apply (List.in_map (fun i => Arr [Num (ofZ i); Str ("In" +:+ toStringZ i +:+ ".Cu");
                                    Str "signal"])).
  apply list_elem_of_In. apply elem_of_seqZ. lia.
Qed.



Lemma convertShapes_document (shapeList : list string) (st : IConversionState)
    (doc : value) :
  result (convertShapes shapeList st) = Return doc ->
  exists objs,
    doc = Arr (preamble (innerLayers (final (convertShapes shapeList st))) ++
               netNodes (nets (final (convertShapes shapeList st))) ++ objs) /\
    Forall (fun v => notNullish v = true) objs.
Proof.
  intros Hdoc.
  destruct (convertShapes_run shapeList st) as (Hfinal & _ & promises & _ & Hres).
  rewrite Hres in Hdoc. rewrite Hfinal.
  destruct (result (awaitAll promises _)) as [converted|e]; [|discriminate Hdoc].
  injection Hdoc as <-.
  exists (List.filter notNullish (flatten converted)). split.
  - rewrite List.filter_app, filter_netNodes. reflexivity.
  - apply filter_kept.
Qed.

End Document.



(** ** Inner layers in use *)

Section InnerLayers.
Import Board Laws Spec.
Context {env : Imports}.

Ltac grow :=
  repeat first
    [ apply growing_ret | apply growing_throw | apply growing_warn
    | apply growing_getNetId | apply growing_getLayerName
    | apply growing_pathToPolygon
    | apply growing_bind; [|intros ?]
    | match goal with |- growing (match ?x with _ => _ end) => destruct x end ].

Lemma raisesTo_first {A B} (bound : Z) (m : M A) (k : A -> M B) :
  raisesTo bound m -> (forall a, growing (k a)) -> raisesTo bound (bind m k).
Proof.
  intros Hm Hk st. rewrite result_bind, final_bind. specialize (Hm st).
  destruct (result (m st)) as [a|e]; [|discriminate].
  intros _. specialize (Hm eq_refl).
  destruct (Hk a (final (m st))) as [_ Hle]. lia.
Qed.

Lemma raisesTo_later {A B} (bound : Z) (m : M A) (k : A -> M B) :
  (forall a, raisesTo bound (k a)) -> raisesTo bound (bind m k).
Proof.
  intros Hk st. rewrite result_bind, final_bind.
  destruct (result (m st)) as [a|e]; [apply Hk | discriminate].
Qed.

Lemma raisesTo_throw {A} (bound : Z) (e : exn) : raisesTo bound (@throw A e).
Proof. intros st. discriminate. Qed.

Lemma raisesTo_getLayerName (id : option string) (k : Z) :
  parseInt id = Some k -> (21 <= k <= 50)%Z -> raisesTo (k - 20) (getLayerName id).
Proof.
  intros Hparse Hband st _. rewrite (getLayerName_inner id k st Hparse Hband).
  cbn [final innerLayers]. lia.
Qed.

Lemma raisesTo_convertShape (shape kind : string) (args : list string) (i : nat) (k : Z) :
  split "~" shape = kind :: args ->
  layerField kind = Some i ->
  parseInt (args !! i) = Some k -> (21 <= k <= 50)%Z ->
  raisesTo (k - 20) (convertShape shape).
Proof.
  intros Hsplit Hkind Hparse Hband.
  pose proof (fun id H => raisesTo_getLayerName id k H Hband) as Hlayer.
  unfold convertShape. rewrite Hsplit.
  cbn [head tail default from_option Datatypes.id].
  unfold layerField in Hkind.
  destruct (String.eqb kind "VIA") eqn:Evia.
  { apply String.eqb_eq in Evia. subst kind. discriminate Hkind. }
  destruct (String.eqb kind "TRACK").
  { injection Hkind as <-. apply raisesTo_first; [|intros; grow].
    unfold convertTrack. apply raisesTo_later. intros netId.
    apply raisesTo_later. intros coordList.
    apply raisesTo_first; [apply Hlayer, Hparse | intros; grow]. }
  destruct (String.eqb kind "TEXT").
  { injection Hkind as <-. apply raisesTo_first; [|intros; grow].
    unfold convertText, textLayer.
    apply raisesTo_first; [|intros; grow].
    apply raisesTo_first; [apply Hlayer, Hparse | intros; grow]. }
  destruct (String.eqb kind "ARC").
  { injection Hkind as <-. apply raisesTo_first; [|intros; grow].
    unfold convertArc.
    apply raisesTo_first; [apply Hlayer, Hparse | intros; grow]. }
  destruct (String.eqb kind "COPPERAREA").
  { injection Hkind as <-. apply raisesTo_first; [|intros; grow].
    unfold convertCopperArea. apply raisesTo_later. intros netId.
    apply raisesTo_first; [apply Hlayer, Hparse | intros; grow]. }
  destruct (String.eqb kind "SOLIDREGION").
  { injection Hkind as <-. apply raisesTo_first; [|intros; grow].
    unfold convertSolidRegion.
    apply raisesTo_first; [apply Hlayer, Hparse | intros; grow]. }
  destruct (String.eqb kind "CIRCLE").
  { injection Hkind as <-. apply raisesTo_first; [|intros; grow].
    unfold convertCircle.
    apply raisesTo_first; [apply Hlayer, Hparse | intros; grow]. }
  discriminate Hkind.
Qed.

(** The promises of [mapAsync], one by one. *)
Lemma mapAsync_cons {A B} (f : A -> M B) (a : A) (l : list A) (st : IConversionState) :
  exists promises,
    result (mapAsync f l (final (f a st))) = Return promises /\
    result (mapAsync f (a :: l) st) = Return (result (f a st) :: promises) /\
    final (mapAsync f (a :: l) st) = final (mapAsync f l (final (f a st))) /\
    warnings (mapAsync f (a :: l) st) =
      warnings (f a st) ++ warnings (mapAsync f l (final (f a st))).
Proof.
  destruct (mapAsync_settles f l (final (f a st))) as [promises Hrun].
  exists promises. split; [exact Hrun|].
  cbn [mapAsync]. rewrite result_bind, final_bind, warnings_bind.
  cbn [settle result final warnings].
  rewrite result_bind, final_bind, warnings_bind, Hrun.
  cbn [ret result final warnings]. rewrite app_nil_r. repeat split.
Qed.

Lemma mapAsync_raises (bound : Z) (shapeList : list string) (shape : string)
    (st : IConversionState) (promises : list (outcome value)) :
  In shape shapeList ->
  raisesTo bound (convertShape shape) ->
  result (mapAsync convertShape shapeList st) = Return promises ->
  firstThrow promises = None ->
  (bound <= innerLayers (final (mapAsync convertShape shapeList st)))%Z.
Proof.
  revert st promises. induction shapeList as [|a l IH]; intros st promises Hin Hraises Hrun Hnone.
  - contradiction.
  - destruct (mapAsync_cons convertShape a l st) as (rest & Hrest & Hall & Hfinal & _).
    rewrite Hall in Hrun. injection Hrun as <-. rewrite Hfinal.
    cbn [firstThrow] in Hnone.
    destruct (result (convertShape a st)) as [v|e] eqn:Ha; [|discriminate Hnone].
    destruct Hin as [-> | Hin].
    + specialize (Hraises st). rewrite Ha in Hraises. specialize (Hraises eq_refl).
      destruct (growing_mapAsync convertShape l
                  (fun s => growing_convertShape s) (final (convertShape shape st)))
        as [_ Hle].
      lia.
    + apply (IH _ rest Hin Hraises Hrest Hnone).
Qed.

Lemma convertShapes_raises (bound : Z) (shapeList : list string) (shape : string)
    (st : IConversionState) (doc : value) :
  In shape shapeList ->
  raisesTo bound (convertShape shape) ->
  result (convertShapes shapeList st) = Return doc ->
  (bound <= innerLayers (final (convertShapes shapeList st)))%Z.
Proof.
  intros Hin Hraises Hdoc.
  destruct (convertShapes_run shapeList st) as (Hfinal & _ & promises & Hrun & Hres).
  rewrite Hfinal. apply (mapAsync_raises bound shapeList shape _ promises Hin Hraises Hrun).
  rewrite Hres in Hdoc.
  destruct (awaitAll_pure promises (final (mapAsync convertShape shapeList (seeded st))))
    as (_ & _ & Hfirst).
  destruct (firstThrow promises) as [e|]; [|reflexivity].
  rewrite Hfirst in Hdoc. discriminate Hdoc.
Qed.

End InnerLayers.

(** [X5]: an inner layer in use is declared.  When a board that
    [convertBoardToArray] converts without rejecting holds, at its top
    level, a track, text, arc, copper area, filled region or circle whose
    layer id reads as a number [k] of the band 21-50, then the layer
    table of the document has the row [(k-20 "In<k-20>.Cu" signal)] of
    the layer the shape was put on. *)
Theorem inner_layer_in_use_is_declared {env : Board.Imports}
    (input : Board.IEasyEDABoard) (heap : gmap Board.loc (list string)) (doc : value)
    (shape kind : string) (args : list string) (i : nat) (k : Z) :
  Board.settled (Board.convertBoardToArray input heap) = Return doc ->
  In shape (Board.shape input) ->
  split "~" shape = kind :: args ->
  Spec.layerField kind = Some i ->
  parseInt (args !! i) = Some k ->
  (21 <= k <= 50)%Z ->
  exists n rest,
    doc = Arr (Laws.preamble n ++ rest) /\
    Arr [Num (ofZ (k - 20)); Str ("In" +:+ toStringZ (k - 20) +:+ ".Cu"); Str "signal"]
      ∈ Board.innerLayerRows n.
Proof.
  intros Hdoc Hin Hsplit Hkind Hparse Hband.
  pose proof (raisesTo_convertShape shape kind args i k Hsplit Hkind Hparse Hband) as Hraises.
  assert (Hrun : exists st,
            Board.settled (Board.convertBoardToArray input heap) =
              Board.result (Board.convertShapes (Board.shape input) st)).
  { unfold Board.convertBoardToArray in *.
    destruct (Board.routerRule input) as [l|].
    - destruct (heap !! l) as [table|]; [|discriminate Hdoc].
      eexists. reflexivity.
    - eexists. reflexivity. }
  destruct Hrun as (st & Hsettled). rewrite Hsettled in Hdoc.
  pose proof (convertShapes_raises _ _ shape st doc Hin Hraises Hdoc) as Hle.
  destruct (convertShapes_document _ _ _ Hdoc) as (objs & -> & _).
  eexists _, _. split; [reflexivity|].
  apply innerLayerRows_elem. lia.
Qed.

(** A track on layer 22, the second inner layer. *)
Lemma inner_layer_in_use_is_declared_witness :
  let input :=
    {| Board.routerRule := None;
       Board.shape := ["TRACK~1~22~GND~4000 3000 4010 3000~gge6~0"] |} in
  exists doc,
    Board.settled (Board.convertBoardToArray (env := Earlier.imports) input ∅) = Return doc /\
    exists n rest,
      doc = Arr (Laws.preamble n ++ rest) /\
      Arr [Num (ofZ (22 - 20)); Str ("In" +:+ toStringZ (22 - 20) +:+ ".Cu"); Str "signal"]
        ∈ Board.innerLayerRows n.
Proof.
  intros input.
  assert (Hrun : exists doc,
            Board.settled (Board.convertBoardToArray (env := Earlier.imports) input ∅)
              = Return doc).
  { unfold Board.convertBoardToArray. subst input. cbn [Board.routerRule Board.shape].
    cbn [Board.settled]. js_compute. eexists. reflexivity. }
  destruct Hrun as [doc Hdoc]. exists doc. split; [exact Hdoc|].
  apply (inner_layer_in_use_is_declared (env := Earlier.imports) input ∅ doc
           "TRACK~1~22~GND~4000 3000 4010 3000~gge6~0" "TRACK"
           ["1"; "22"; "GND"; "4000 3000 4010 3000"; "gge6"; "0"] 1 22 Hdoc).
  - left. reflexivity.
  - reflexivity.
  - reflexivity.
  - reflexivity.
  - lia.
Defined.

(** ** A board that is rejected *)

Section Rejection.
Import Board Laws.
Context {env : Imports}.

Lemma mapAsync_promises (shapeList : list string) (st : IConversionState) :
  exists promises,
    result (mapAsync convertShape shapeList st) = Return promises /\
    length promises = length shapeList /\
    final (mapAsync convertShape shapeList st) = stateAfter shapeList st /\
    forall j shape,
      shapeList !! j = Some shape ->
      promises !! j =
        Some (result (convertShape shape (stateAfter (take j shapeList) st))).
Proof.
  revert st. induction shapeList as [|a l IH]; intros st.
  - exists []. repeat split. intros j shape Hj. destruct j; discriminate Hj.
  - destruct (mapAsync_cons convertShape a l st) as (rest & Hrest & Hall & Hfinal & _).
    destruct (IH (final (convertShape a st))) as (rest' & Hrest' & Hlen & Hstate & Hget).
    rewrite Hrest in Hrest'. injection Hrest' as <-.
    exists (result (convertShape a st) :: rest).
    split; [exact Hall|]. split; [cbn [length]; rewrite Hlen; reflexivity|].
    split; [rewrite Hfinal, Hstate; reflexivity|].
    intros [|j] shape Hj.
    + injection Hj as <-. reflexivity.
    + apply (Hget j shape Hj).
Qed.

End Rejection.

(** [X6]: a rejection does not stop the conversion.  Every shape of the
    board is converted, in the order of the list and on the state the
    shapes before it have left, whether those returned or threw; the run
    rejects with the error of the first shape in that order that threw,
    and returns when none did.  Either way the net list of the input is
    left as the conversion of all the shapes has made it: it also holds
    the names that shapes after the failing one have interned. *)
Theorem rejected_board_is_converted_to_the_end {env : Board.Imports}
    (input : Board.IEasyEDABoard) (heap : gmap Board.loc (list string))
    (l : Board.loc) (table : list string) :
  Board.routerRule input = Some l ->
  heap !! l = Some table ->
  let start := Laws.seeded {| Board.nets := table; Board.innerLayers := 0 |} in
  let run := Board.convertBoardToArray input heap in
  exists promises,
    length promises = length (Board.shape input) /\
    (forall j shape,
       Board.shape input !! j = Some shape ->
       promises !! j =
         Some (Board.result
                 (Board.convertShape shape
                    (Laws.stateAfter (take j (Board.shape input)) start)))) /\
    Board.heapAfter run !! l =
      Some (Board.nets (Laws.stateAfter (Board.shape input) start)) /\
    match Laws.firstThrow promises with
    | Some e => Board.settled run = Throw e
    | None => isThrow (Board.settled run) = false
    end.
Proof.
  intros Hrule Hheap start run.
  destruct (mapAsync_promises (Board.shape input) start)
    as (promises & Hrun & Hlen & Hstate & Hget).
  exists promises. split; [exact Hlen|]. split; [exact Hget|].
  destruct (convertShapes_run (Board.shape input)
              {| Board.nets := table; Board.innerLayers := 0 |})
    as (Hfinal & _ & promises' & Hrun' & Hres).
  fold start in Hfinal, Hrun', Hres.
  rewrite Hrun in Hrun'. injection Hrun' as <-.
  subst run. unfold Board.convertBoardToArray. rewrite Hrule, Hheap.
  cbn [Board.heapAfter Board.settled]. split.
  - rewrite lookup_insert_eq, Hfinal, Hstate. reflexivity.
  - rewrite Hres.
    destruct (awaitAll_pure promises
                (Board.final (Board.mapAsync Board.convertShape (Board.shape input) start)))
      as (_ & _ & Hfirst).
    destruct (Laws.firstThrow promises) as [e|].
    + rewrite Hfirst. reflexivity.
    + destruct (Board.result (Board.awaitAll promises _)); [reflexivity|].
      discriminate Hfirst.
Qed.

(** A via, a track on the unknown layer 9, and a via on a net of its
    own after it. *)
Lemma rejected_board_is_converted_to_the_end_witness :
  let input :=
    {| Board.routerRule := Some 1%positive;
       Board.shape := ["VIA~4010~3010~2~GND~0.5~gge5~0";
                       "TRACK~1~9~GND~4000 3000 4010 3000~gge6~0";
                       "VIA~4020~3010~2~VCC~0.5~gge7~0"] |} in
  let heap : gmap Board.loc (list string) := {[ 1%positive := ["GND"] ]} in
  let start := Laws.seeded {| Board.nets := ["GND"]; Board.innerLayers := 0 |} in
  let run := Board.convertBoardToArray (env := Earlier.imports) input heap in
  Board.nets (Laws.stateAfter (env := Earlier.imports) (Board.shape input) start)
    = [""; "GND"; "VCC"] /\
  exists promises,
    length promises = length (Board.shape input) /\
    (forall j shape,
       Board.shape input !! j = Some shape ->
       promises !! j =
         Some (Board.result
                 (Board.convertShape (env := Earlier.imports) shape
                    (Laws.stateAfter (env := Earlier.imports)
                       (take j (Board.shape input)) start)))) /\
    Board.heapAfter run !! 1%positive =
      Some (Board.nets (Laws.stateAfter (env := Earlier.imports)
                          (Board.shape input) start)) /\
    match Laws.firstThrow promises with
    | Some e => Board.settled run = Throw e
    | None => isThrow (Board.settled run) = false
    end.
Proof.
  intros input heap start run. split; [js_compute; reflexivity|].
  apply (rejected_board_is_converted_to_the_end (env := Earlier.imports)
           input heap 1%positive ["GND"]).
  - reflexivity.
  - apply lookup_singleton_eq.
Defined.

(** ** Nothing is left out in silence *)

Section Diagnostics.
Import Board Laws.
Context {env : Imports}.

Lemma warned_l {A} (l k : list A) : l <> [] -> l ++ k <> [].
Proof. intros Hl Happ. apply app_eq_nil in Happ. destruct Happ as [-> _]. apply Hl. reflexivity. Qed.

Lemma warned_r {A} (l k : list A) : k <> [] -> l ++ k <> [].
Proof. intros Hk Happ. apply app_eq_nil in Happ. destruct Happ as [_ ->]. apply Hk. reflexivity. Qed.

(** The resolver answers [null] only after a warning. *)
Lemma getLayerName_warned (id : option string) (st : IConversionState) :
  result (getLayerName id st) = Return NoLayer -> warnings (getLayerName id st) <> [].
Proof.
  unfold getLayerName. destruct (read layers id); [discriminate|discriminate|].
  destruct (between 21 50 (parseInt id)); [discriminate|].
  destruct (between 99 199 (parseInt id)); discriminate.
Qed.

Lemma textLayer_warned layer footprint isName (st : IConversionState) :
  result (textLayer layer footprint isName st) = Return NoLayer ->
  warnings (textLayer layer footprint isName st) <> [].
Proof.
  unfold textLayer. rewrite result_bind, warnings_bind.
  pose proof (getLayerName_warned layer st) as Hlayer.
  destruct (result (getLayerName layer st)) as [[name| |key]|e]; [| | |discriminate].
  - destruct (footprint && isName); discriminate.
  - intros _. apply warned_l, Hlayer. reflexivity.
  - destruct (footprint && isName); discriminate.
Qed.

Lemma convertText_warned args objName parentCoords (st : IConversionState) :
  result (convertText args objName parentCoords st) = Return null ->
  warnings (convertText args objName parentCoords st) <> [].
Proof.
  unfold convertText. rewrite result_bind, warnings_bind.
  match goal with
  | |- context [result (textLayer ?a ?b ?c st)] =>
      pose proof (textLayer_warned a b c st) as Hlayer;
      destruct (result (textLayer a b c st)) as [[name| |key]|e]; [| | |discriminate]
  end.
  - discriminate.
  - intros _. apply warned_l, Hlayer. reflexivity.
  - discriminate.
Qed.

Lemma convertArc_warned args objName transform (st : IConversionState) :
  result (convertArc args objName transform st) = Return null ->
  warnings (convertArc args objName transform st) <> [].
Proof.
  unfold convertArc. rewrite result_bind, warnings_bind.
  pose proof (getLayerName_warned (args !! 1%nat) st) as Hlayer.
  destruct (result (getLayerName (args !! 1%nat) st)) as [[name| |key]|e];
    [| | |discriminate].
  1, 3: intros Hnull; apply warned_r; revert Hnull;
    (destruct (args !! 3%nat) as [path|]; [|discriminate]);
    (destruct (matchArcPath (collapseSeparators path)) as [[startPoint arcParams]|];
      [|discriminate]);
    match goal with |- context [if ?b then _ else _] => destruct b end; discriminate.
  intros _. apply warned_l, Hlayer. reflexivity.
Qed.

Lemma convertCircle_warned args type parentCoords (st : IConversionState) :
  result (convertCircle args type parentCoords st) = Return null ->
  warnings (convertCircle args type parentCoords st) <> [].
Proof.
  unfold convertCircle. rewrite result_bind, warnings_bind.
  pose proof (getLayerName_warned (args !! 4%nat) st) as Hlayer.
  destruct (result (getLayerName (args !! 4%nat) st)) as [[name| |key]|e];
    [| | |discriminate].
  - discriminate.
  - intros _. apply warned_l, Hlayer. reflexivity.
  - discriminate.
Qed.

Lemma convertCopperArea_warned args (st : IConversionState) :
  result (convertCopperArea args st) = Return null ->
  warnings (convertCopperArea args st) <> [].
Proof.
  unfold convertCopperArea. rewrite result_bind, warnings_bind.
  destruct (getNetId_returns (args !! 2%nat) st) as (netId & -> & ->).
  rewrite result_bind, warnings_bind. cbn [app].
  set (st' := final (getNetId (args !! 2%nat) st)).
  pose proof (getLayerName_warned (args !! 1%nat) st') as Hlayer.
  destruct (result (getLayerName (args !! 1%nat) st')) as [[name| |key]|e];
    [| | |discriminate].
  - destruct (args !! 3%nat); discriminate.
  - intros _. apply warned_l, Hlayer. reflexivity.
  - destruct (args !! 3%nat); discriminate.
Qed.

Lemma pathToPolygon_warned path parentCoords (st : IConversionState) :
  result (pathToPolygon path parentCoords st) = Return None ->
  warnings (pathToPolygon path parentCoords st) <> [].
Proof.
  unfold pathToPolygon. destruct path as [path|]; [|discriminate].
  destruct (containsChar "A" path); discriminate.
Qed.

Lemma convertSolidRegion_warned args (st : IConversionState) :
  result (convertSolidRegion args st) = Return null ->
  warnings (convertSolidRegion args st) <> [].
Proof.
  unfold convertSolidRegion. rewrite result_bind, warnings_bind.
  pose proof (getLayerName_warned (args !! 0%nat) st) as Hlayer.
  destruct (result (getLayerName (args !! 0%nat) st)) as [[name| |key]|e];
    [| | |discriminate].
  1, 3: intros Hnull; apply warned_r; revert Hnull;
    set (st' := final (getLayerName (args !! 0%nat) st));
    rewrite result_bind, warnings_bind;
    pose proof (pathToPolygon_warned (args !! 2%nat) None st') as Hpath;
    (destruct (result (pathToPolygon (args !! 2%nat) None st')) as [polygon|e];
      [|discriminate]);
    rewrite result_bind, warnings_bind;
    destruct (getNetId_returns (args !! 1%nat)
                (final (pathToPolygon (args !! 2%nat) None st')))
      as (netId & -> & ->);
    (destruct polygon as [polygonPoints|];
      [ intros Hnull; apply warned_r; revert Hnull; cbn [app];
        (destruct (fieldIs (args !! 3%nat) "cutout"); [discriminate|]);
        destruct (fieldIs (args !! 3%nat) "solid" || fieldIs (args !! 3%nat) "npth");
          discriminate
      | intros _; apply warned_l, Hpath; reflexivity ]).
  intros _. apply warned_l, Hlayer. reflexivity.
Qed.

Lemma convertPolygon_warned args parentCoords (st : IConversionState) :
  result (convertPolygon args parentCoords st) = Return null ->
  warnings (convertPolygon args parentCoords st) <> [].
Proof.
  unfold convertPolygon. destruct (negb _); [discriminate|].
  rewrite result_bind, warnings_bind.
  pose proof (getLayerName_warned (args !! 0%nat) st) as Hlayer.
  destruct (result (getLayerName (args !! 0%nat) st)) as [[name| |key]|e];
    [| | |discriminate].
  1, 3: intros Hnull; apply warned_r; revert Hnull;
    set (st' := final (getLayerName (args !! 0%nat) st));
    rewrite result_bind, warnings_bind;
    pose proof (pathToPolygon_warned (args !! 2%nat) parentCoords st') as Hpath;
    (destruct (result (pathToPolygon (args !! 2%nat) parentCoords st')) as [[points|]|e];
      [| |discriminate]);
    [ discriminate | intros _; apply warned_l, Hpath; reflexivity ].
  intros _. apply warned_l, Hlayer. reflexivity.
Qed.

Lemma convertPad_warned args transform (st : IConversionState) :
  result (convertPad args transform st) = Return null ->
  warnings (convertPad args transform st) <> [].
Proof.
  unfold convertPad. destruct (args !! 9%nat) as [points|]; [|discriminate].
  match goal with |- context [if ?b then _ else _] => destruct b end; [discriminate|].
  rewrite result_bind.
  destruct (getNetId_returns (args !! 6%nat) st) as (netId & -> & _).
  match goal with |- context [let '(_, _) := ?p in _] => destruct p end.
  destruct (read padLayers (args !! 5%nat)); discriminate.
Qed.

(** A track is made of nodes; none of them is [null]. *)
Lemma convertTrack_nodes args objName parentCoords (st : IConversionState) nodes :
  result (convertTrack args objName parentCoords st) = Return nodes ->
  null ∉ nodes.
Proof.
  unfold convertTrack. rewrite result_bind.
  destruct (getNetId_returns (args !! 2%nat) st) as (netId & -> & _).
  rewrite result_bind.
  destruct (args !! 3%nat) as [coords|]; [|discriminate].
  cbn [ret result final]. rewrite result_bind.
  destruct (result (getLayerName (args !! 1%nat) _)) as [[name| |key]|e];
    [| | |discriminate].
  - intros [= <-] Hnull. apply list_elem_of_In in Hnull.
    apply pointPairs_elem in Hnull. destruct Hnull as (a & b & c & d & Hnull).
    discriminate Hnull.
  - intros [= <-]. apply not_elem_of_nil.
  - destruct (String.eqb objName "segment"); [discriminate|].
    destruct (pointPairs _ _); [|discriminate].
    intros [= <-]. apply not_elem_of_nil.
Qed.

Lemma node_warned (m : M value) (st : IConversionState) (v : value) :
  (result (m st) = Return null -> warnings (m st) <> []) ->
  result (bind m (fun node => ret (Arr [node])) st) = Return v ->
  leftOut v = true ->
  warnings (bind m (fun node => ret (Arr [node])) st) <> [].
Proof.
  intros Hm. rewrite result_bind, warnings_bind.
  destruct (result (m st)) as [node|e]; [|discriminate].
  cbn [ret result warnings]. intros [= <-] Hleft.
  destruct node; try discriminate Hleft.
  apply warned_l, Hm. reflexivity.
Qed.

Lemma convertVia_node args parentCoords (st : IConversionState) :
  result (convertVia args parentCoords st) <> Return null.
Proof.
  unfold convertVia. rewrite result_bind.
  destruct (getNetId_returns (args !! 3%nat) st) as (netId & -> & _). discriminate.
Qed.

Lemma convertPadToVia_node args parentCoords (st : IConversionState) :
  result (convertPadToVia args parentCoords st) <> Return null.
Proof.
  unfold convertPadToVia. destruct (negb _); rewrite result_bind.
  - destruct (result (convertPad args _ st)); discriminate.
  - destruct (getNetId_returns (args !! 6%nat) st) as (netId & -> & _). discriminate.
Qed.

Lemma convertLib_node args (st : IConversionState) :
  result (convertLib args st) <> Return null.
Proof.
  unfold convertLib. destruct (args !! 2%nat); [|discriminate].
  rewrite result_bind.
  destruct (result (forEach _ _ st)); discriminate.
Qed.

Lemma child_warned (m : M value) (st : IConversionState) (nodes : list value) :
  (result (m st) = Return null -> warnings (m st) <> []) ->
  result (bind m (fun node => ret [node]) st) = Return nodes ->
  null ∈ nodes ->
  warnings (bind m (fun node => ret [node]) st) <> [].
Proof.
  intros Hm. rewrite result_bind, warnings_bind.
  destruct (result (m st)) as [node|e]; [|discriminate].
  cbn [ret result warnings]. intros [= <-] Hnull.
  apply list_elem_of_singleton in Hnull. subst node.
  apply warned_l, Hm. reflexivity.
Qed.

End Diagnostics.

(** [X7]: no shape is left out in silence.  When [convertShape] returns
    [null] (an unknown kind of shape) or an array that holds only the
    [null] of its converter (a text, arc, copper area, filled region or
    circle that was dropped), it has written at least one warning to the
    console.  A via, a hole, a footprint and a pad are never dropped, and
    a track gives nodes, none of which is [null]. *)
Theorem dropped_shape_is_warned_about {env : Board.Imports}
    (shape : string) (st : Board.IConversionState) (v : value) :
  Board.result (Board.convertShape shape st) = Return v ->
  Laws.leftOut v = true ->
  Board.warnings (Board.convertShape shape st) <> [].
Proof.
  unfold Board.convertShape.
  repeat match goal with
         | |- context [if String.eqb ?a ?b then _ else _] => destruct (String.eqb a b)
         end.
  - intros Hv Hleft.
    apply (node_warned _ _ _ (fun H => False_ind _ (convertVia_node _ _ _ H)) Hv Hleft).
  - rewrite result_bind, warnings_bind.
    pose proof (convertTrack_nodes (tail (split "~" shape)) "segment" None st) as Hnodes.
    destruct (Board.result (Board.convertTrack _ _ _ st)) as [nodes|e]; [|discriminate].
    cbn [Board.ret Board.result]. intros [= <-] Hleft. exfalso.
    destruct nodes as [|[] [|]]; try discriminate Hleft.
    apply (Hnodes _ eq_refl). apply elem_of_cons. left. reflexivity.
  - apply node_warned, convertText_warned.
  - apply node_warned, convertArc_warned.
  - apply node_warned, convertCopperArea_warned.
  - apply node_warned, convertSolidRegion_warned.
  - apply node_warned, convertCircle_warned.
  - unfold Board.convertHole. cbn [Board.ret Board.result]. intros [= <-]. discriminate.
  - intros Hv Hleft.
    apply (node_warned _ _ _ (fun H => False_ind _ (convertLib_node _ _ H)) Hv Hleft).
  - intros Hv Hleft.
    apply (node_warned _ _ _ (fun H => False_ind _ (convertPadToVia_node _ _ _ H)) Hv Hleft).
  - intros _ _. discriminate.
Qed.

(** A text on layer 100, which the resolver tolerates and leaves out. *)
Lemma dropped_shape_is_warned_about_witness :
  let shape := "TEXT~L~4000~3000~0.8~0~0~100~~10~hello~~~gge9~~0" in
  let st := {| Board.nets := [""]; Board.innerLayers := 0 |} in
  Board.result (Board.convertShape (env := Earlier.imports) shape st)
    = Return (Arr [null]) /\
  Board.warnings (Board.convertShape (env := Earlier.imports) shape st) <> [].
Proof.
  intros shape st.
  assert (Hrun : Board.result (Board.convertShape (env := Earlier.imports) shape st)
                 = Return (Arr [null])) by (js_compute; reflexivity).
  split; [exact Hrun|].
  apply (dropped_shape_is_warned_about (env := Earlier.imports) shape st (Arr [null]) Hrun).
  reflexivity.
Defined.

(** [X8]: inside a footprint nothing is left out in silence either.  When
    the conversion of a record of a footprint gives a [null] child (a
    text, arc, pad, circle or filled region that was dropped), a warning
    has been written; a hole is never dropped and a track gives no [null]
    node. *)
Theorem dropped_footprint_child_is_warned_about {env : Board.Imports}
    (id : option string) (transform : Board.IParentTransform) (sub : string)
    (st : Board.IConversionState) (nodes : list value) :
  Board.result (Board.convertLibShape id transform sub st) = Return nodes ->
  null ∈ nodes ->
  Board.warnings (Board.convertLibShape id transform sub st) <> [].
Proof.
  unfold Board.convertLibShape.
  repeat match goal with
         | |- context [if String.eqb ?a ?b then _ else _] => destruct (String.eqb a b)
         end.
  - intros Hnodes Hnull. exfalso.
    apply (convertTrack_nodes _ _ _ _ _ Hnodes Hnull).
  - apply child_warned, convertText_warned.
  - apply child_warned, convertArc_warned.
  - unfold Board.convertLibHole. cbn [Board.ret Board.result]. intros [= <-] Hnull.
    apply list_elem_of_singleton in Hnull. discriminate Hnull.
  - apply child_warned, convertPad_warned.
  - apply child_warned, convertCircle_warned.
  - apply child_warned, convertPolygon_warned.
  - intros _ _. discriminate.
Qed.

(** A polygon pad without points inside a footprint. *)
Lemma dropped_footprint_child_is_warned_about_witness :
  let sub := "PAD~POLYGON~4000~3000~10~10~1~~1~0~~0~gge1" in
  let transform :=
    {| Board.origin := {| Board.x := Fin 0; Board.y := Fin 0 |};
       Board.angle := Num (Fin 0) |} in
  let st := {| Board.nets := [""]; Board.innerLayers := 0 |} in
  Board.result (Board.convertLibShape (env := Earlier.imports) (Some "gge3") transform sub st)
    = Return [null] /\
  Board.warnings (Board.convertLibShape (env := Earlier.imports) (Some "gge3") transform sub st)
    <> [].
Proof.
  intros sub transform st.
  assert (Hrun : Board.result
                   (Board.convertLibShape (env := Earlier.imports) (Some "gge3") transform sub st)
                 = Return [null]) by (js_compute; reflexivity).
  split; [exact Hrun|].
  apply (dropped_footprint_child_is_warned_about (env := Earlier.imports)
           (Some "gge3") transform sub st [null] Hrun).
  apply elem_of_cons. left. reflexivity.
Defined.

(** ** Pads *)

Section Pads.
Import Board Laws.
Context {env : Imports}.

Lemma lt_asym (a b : number) : lt a b = true -> lt b a = false.
Proof.
  destruct a as [|sa|p], b as [|sb|q]; simpl; try discriminate; try reflexivity.
  - destruct sa, sb; simpl; try discriminate; reflexivity.
  - intros ->. reflexivity.
  - intros Hneg. apply negb_true_iff in Hneg. exact Hneg.
  - unfold Rltb. destruct (Rlt_dec p q); [|discriminate].
    intros _. destruct (Rlt_dec q p); [lra | reflexivity].
Qed.

Lemma Math_max_notBelow (a : number) (bound : R) :
  notBelow bound (Math_max a (Fin bound)).
Proof.
  destruct a as [|s|p]; simpl.
  - exact I.
  - destruct s; simpl; [lra | reflexivity].
  - unfold Rltb. destruct (Rlt_dec p bound); simpl; lra.
Qed.

Lemma gt_truthy (a : number) : gt a (ofZ 0) = true -> truthy a = true.
Proof.
  destruct a as [|s|p]; simpl; try discriminate; try reflexivity.
  unfold Rltb, Reqb. destruct (Rlt_dec 0 p); [|discriminate].
  intros _. destruct (Req_dec_T p 0); [lra | reflexivity].
Qed.

(** The node of a pad that is not dropped. *)
Lemma convertPad_node (args : list string) (transform : IParentTransform)
    (st : IConversionState) (v : value) :
  result (convertPad args transform st) = Return v ->
  v = null \/
  exists num kind at_ actualWidth actualHeight layers_ net_ primitives,
    let swap := gt actualWidth actualHeight in
    let realWidth := if swap then actualHeight else actualWidth in
    let realHeight := if swap then actualWidth else actualHeight in
    (isCustom (args !! 0%nat) = false ->
       actualWidth = parseFloat (ofField (args !! 3%nat)) /\
       actualHeight = parseFloat (ofField (args !! 4%nat))) /\
    at_ = kiAt (ofField (args !! 1%nat)) (ofField (args !! 2%nat))
            (Num (if swap
                  then sub (parseFloat (ofField (args !! 10%nat))) (ofZ 90)
                  else parseFloat (ofField (args !! 10%nat))))
            (Some transform) /\
    v = Arr [Str "pad"; num;
             Str (if gt (kiUnits (ofField (args !! 8%nat))) (ofZ 0)
                  then "thru_hole" else "smd");
             kind; at_;
             Arr [Str "size";
                  Num (Math_max (kiUnits (Num realWidth)) (Fin 0.01));
                  Num (Math_max (kiUnits (Num realHeight)) (Fin 0.01))];
             layers_;
             getDrill (kiUnits (ofField (args !! 8%nat)))
                      (kiUnits (ofField (args !! 12%nat)));
             net_; primitives].
Proof.
  unfold convertPad. destruct (args !! 9%nat) as [points|]; [|discriminate].
  match goal with |- context [if ?b then _ else _] => destruct b end.
  { cbn [bind warn ret result]. intros [= <-]. left. reflexivity. }
  rewrite result_bind.
  destruct (getNetId_returns (args !! 6%nat) st) as (netId & -> & _).
  destruct (isCustom (args !! 0%nat) &&
            isRectangle (map (fun p => parseFloat (Str p)) (split " " points)))
    eqn:Hrect.
  - destruct (rectangleSize _ _) as [actualWidth actualHeight].
    destruct (read padLayers (args !! 5%nat)) as [ls| |]; try discriminate.
    cbn [ret result]. intros [= <-]. right.
    eexists _, _, _, actualWidth, actualHeight, _, _, _.
    split; [|split; reflexivity].
    intros Hcustom. rewrite Hcustom in Hrect. discriminate Hrect.
  - destruct (read padLayers (args !! 5%nat)) as [ls| |]; try discriminate.
    cbn [ret result]. intros [= <-]. right.
    eexists _, _, _, (parseFloat (ofField (args !! 3%nat))),
            (parseFloat (ofField (args !! 4%nat))), _, _, _.
    split; [intros _; split; reflexivity | split; reflexivity].
Qed.

End Pads.

(** [X9]: the size of a pad.  A converted pad has at index 5 the node
    [(size w h)] with [w = max(kiUnits(a), 0.01)] and
    [h = max(kiUnits(b), 0.01)], where [a] and [b] are the two extents of
    the pad with the one that is not the greater first: when the width
    exceeds the height the two are exchanged and the rotation the
    position is given is turned back by 90 degrees.  Neither [w] nor [h]
    is ever below 0.01 (each is at least 0.01, or plus infinity, or not a
    number).  For a pad that is no polygon the two extents are the
    declared width and height. *)
Theorem convertPad_size_is_ordered_and_clamped {env : Board.Imports}
    (args : list string) (transform : Board.IParentTransform)
    (st : Board.IConversionState) (items : list value) :
  Board.result (Board.convertPad args transform st) = Return (Arr items) ->
  exists a b swapped,
    items !! 5%nat =
      Some (Arr [Str "size";
                 Num (Math_max (Board.kiUnits (Num a)) (Fin 0.01));
                 Num (Math_max (Board.kiUnits (Num b)) (Fin 0.01))]) /\
    gt a b = false /\
    Laws.notBelow 0.01 (Math_max (Board.kiUnits (Num a)) (Fin 0.01)) /\
    Laws.notBelow 0.01 (Math_max (Board.kiUnits (Num b)) (Fin 0.01)) /\
    items !! 4%nat =
      Some (Board.kiAt (ofField (args !! 1%nat)) (ofField (args !! 2%nat))
              (Num (if swapped : bool
                    then sub (parseFloat (ofField (args !! 10%nat))) (ofZ 90)
                    else parseFloat (ofField (args !! 10%nat))))
              (Some transform)) /\
    (Board.isCustom (args !! 0%nat) = false ->
       swapped = gt (parseFloat (ofField (args !! 3%nat)))
                    (parseFloat (ofField (args !! 4%nat))) /\
       (a, b) = if swapped
                then (parseFloat (ofField (args !! 4%nat)),
                      parseFloat (ofField (args !! 3%nat)))
                else (parseFloat (ofField (args !! 3%nat)),
                      parseFloat (ofField (args !! 4%nat)))).
Proof.
  intros Hrun.
  destruct (convertPad_node args transform st _ Hrun)
    as [Hnull | (num & kind & at_ & aw & ah & ls & net_ & prim & Hdecl & Hat & Hnode)];
    [discriminate Hnull|].
  injection Hnode as ->.
  exists (if gt aw ah then ah else aw), (if gt aw ah then aw else ah), (gt aw ah).
  split; [reflexivity|]. split.
  - destruct (gt aw ah) eqn:Hswap; [|exact Hswap].
    unfold gt in *. apply lt_asym. exact Hswap.
  - split; [apply Math_max_notBelow|]. split; [apply Math_max_notBelow|].
    split; [cbn [lookup list_lookup]; rewrite Hat; reflexivity|].
    intros Hcustom. destruct (Hdecl Hcustom) as [-> ->].
    split; [reflexivity|]. destruct (gt _ _); reflexivity.
Qed.

(** A rectangular pad that is wider than high. *)
Lemma convertPad_size_is_ordered_and_clamped_witness :
  let args :=
    ["RECT"; "4010"; "3010"; "6"; "4"; "1"; "GND"; "1"; "0"; ""; "0"; "gge7"; "0"; ""; "Y"; "0"] in
  let transform :=
    {| Board.origin := {| Board.x := Fin 0; Board.y := Fin 0 |};
       Board.angle := Num (Fin 0) |} in
  let st := {| Board.nets := [""; "GND"]; Board.innerLayers := 0 |} in
  exists items,
    Board.result (Board.convertPad (env := Earlier.imports) args transform st)
      = Return (Arr items) /\
    exists a b swapped,
      items !! 5%nat =
        Some (Arr [Str "size";
                   Num (Math_max (Board.kiUnits (Imports := Earlier.imports) (Num a)) (Fin 0.01));
                   Num (Math_max (Board.kiUnits (Imports := Earlier.imports) (Num b)) (Fin 0.01))]) /\
      gt a b = false /\
      Laws.notBelow 0.01
        (Math_max (Board.kiUnits (Imports := Earlier.imports) (Num a)) (Fin 0.01)) /\
      Laws.notBelow 0.01
        (Math_max (Board.kiUnits (Imports := Earlier.imports) (Num b)) (Fin 0.01)) /\
      items !! 4%nat =
        Some (Board.kiAt (Imports := Earlier.imports)
                (ofField (args !! 1%nat)) (ofField (args !! 2%nat))
                (Num (if swapped : bool
                      then sub (parseFloat (ofField (args !! 10%nat))) (ofZ 90)
                      else parseFloat (ofField (args !! 10%nat))))
                (Some transform)) /\
      (Board.isCustom (args !! 0%nat) = false ->
         swapped = gt (parseFloat (ofField (args !! 3%nat)))
                      (parseFloat (ofField (args !! 4%nat))) /\
         (a, b) = if swapped
                  then (parseFloat (ofField (args !! 4%nat)),
                        parseFloat (ofField (args !! 3%nat)))
                  else (parseFloat (ofField (args !! 3%nat)),
                        parseFloat (ofField (args !! 4%nat)))).
Proof.
  intros args transform st.
  assert (Hrun : exists items,
            Board.result (Board.convertPad (env := Earlier.imports) args transform st)
              = Return (Arr items)).
  { js_compute. eexists. reflexivity. }
  destruct Hrun as [items Hrun]. exists items. split; [exact Hrun|].
  apply (convertPad_size_is_ordered_and_clamped (env := Earlier.imports)
           args transform st items Hrun).
Defined.

(** [X10]: the drill of a pad and its type.  A converted pad is typed
    [thru_hole] when the hole radius, in KiCad units, is above zero and
    [smd] otherwise; its drill child (index 7) is left out ([null])
    exactly when that radius is zero or not a number.  So a pad typed
    [thru_hole] always has its drill, oval when the hole length is
    neither zero nor [NaN]; and a pad with a negative hole radius is
    typed [smd] and still given a drill. *)
Theorem convertPad_drill_and_type {env : Board.Imports}
    (args : list string) (transform : Board.IParentTransform)
    (st : Board.IConversionState) (items : list value) :
  Board.result (Board.convertPad args transform st) = Return (Arr items) ->
  let hole := Board.kiUnits (ofField (args !! 8%nat)) in
  let holeLength := Board.kiUnits (ofField (args !! 12%nat)) in
  items !! 2%nat = Some (Str (if gt hole (ofZ 0) then "thru_hole" else "smd")) /\
  items !! 7%nat = Some (Board.getDrill hole holeLength) /\
  (items !! 7%nat = Some null <-> truthy hole = false) /\
  (items !! 2%nat = Some (Str "thru_hole") ->
     items !! 7%nat =
       Some (if truthy holeLength
             then Arr [Str "drill"; Str "oval"; Num (mul hole (ofZ 2)); Num holeLength]
             else Arr [Str "drill"; Num (mul hole (ofZ 2))])) /\
  (lt hole (ofZ 0) = true ->
     items !! 2%nat = Some (Str "smd") /\ items !! 7%nat <> Some null).
Proof.
  intros Hrun hole holeLength.
  destruct (convertPad_node args transform st _ Hrun)
    as [Hnull | (num & kind & at_ & aw & ah & ls & net_ & prim & _ & _ & Hnode)];
    [discriminate Hnull|].
  pose proof (f_equal (fun v => match v with Arr l => l | _ => [] end) Hnode) as Hitems.
  cbv beta iota in Hitems. subst items. cbn [lookup list_lookup]. fold hole holeLength.
  split; [reflexivity|]. split; [reflexivity|].
  clear Hrun. clearbody hole holeLength.
  assert (Hdrill : Board.getDrill hole holeLength = null <-> truthy hole = false).
  { unfold Board.getDrill. destruct (truthy hole); simpl.
    - destruct (truthy holeLength); split; discriminate.
    - split; reflexivity. }
  split; [|split].
  - rewrite <- Hdrill. split; [intros [= ->]; reflexivity | intros ->; reflexivity].
  - intros Htype.
    assert (Hpos : gt hole (ofZ 0) = true).
    { revert Htype. destruct (gt hole (ofZ 0)); [reflexivity | discriminate]. }
    apply gt_truthy in Hpos. unfold Board.getDrill. rewrite Hpos. simpl.
    destruct (truthy holeLength); reflexivity.
  - intros Hneg. split.
    + unfold gt. rewrite (lt_asym _ _ Hneg). reflexivity.
    + intros [= Hnone]. apply Hdrill in Hnone.
      destruct hole as [|s|r]; simpl in *; try discriminate.
      unfold Rltb, Reqb in *.
      destruct (Rlt_dec r 0); [|discriminate Hneg].
      destruct (Req_dec_T r 0); [lra | discriminate Hnone].
Qed.

(** A pad with a hole of radius 0.5. *)
Lemma convertPad_drill_and_type_witness :
  let args :=
    ["ELLIPSE"; "4010"; "3010"; "6"; "6"; "11"; "GND"; "1"; "0.5"; ""; "0"; "gge7"; "0"; "";
     "Y"; "0"] in
  let transform :=
    {| Board.origin := {| Board.x := Fin 0; Board.y := Fin 0 |};
       Board.angle := Num (Fin 0) |} in
  let st := {| Board.nets := [""; "GND"]; Board.innerLayers := 0 |} in
  exists items,
    Board.result (Board.convertPad (env := Earlier.imports) args transform st)
      = Return (Arr items) /\
    items !! 2%nat =
      Some (Str (if gt (Legacy.kiUnits (Str "0.5")) (ofZ 0) then "thru_hole" else "smd")) /\
    (items !! 7%nat = Some null <-> truthy (Legacy.kiUnits (Str "0.5")) = false).
Proof.
  intros args transform st.
  assert (Hrun : exists items,
            Board.result (Board.convertPad (env := Earlier.imports) args transform st)
              = Return (Arr items)).
  { js_compute. eexists. reflexivity. }
  destruct Hrun as [items Hrun]. exists items. split; [exact Hrun|].
  destruct (convertPad_drill_and_type (env := Earlier.imports) args transform st items Hrun)
    as (Htype & _ & Hdrill & _).
  split; [exact Htype | exact Hdrill].
Defined.

(** ** Shapes on a layer the resolver tolerates *)

Lemma run_eta {A} (r : Board.run A) :
  r = {| Board.result := Board.result r; Board.final := Board.final r;
         Board.warnings := Board.warnings r |}.
Proof. destruct r. reflexivity. Qed.

(** [X11]: a track or a copper area on a layer of the band 99-199 is
    left out, with the resolver's warning and without a throw, but its
    net name has been interned before the layer was looked at: the net
    table ends up with the name although no node of the document refers
    to it. *)
Theorem tolerated_layer_still_interns_the_net {env : Board.Imports}
    (args : list string) (k : Z) (coords : string) (st : Board.IConversionState) :
  parseInt (args !! 1%nat) = Some k ->
  (99 <= k <= 199)%Z ->
  args !! 3%nat = Some coords ->
  let warning := "Warning: unsupported layer id: " +:+ toStringZ k in
  (forall objName parentCoords,
     Board.convertTrack args objName parentCoords st =
     {| Board.result := Return [];
        Board.final := Board.final (Board.getNetId (args !! 2%nat) st);
        Board.warnings := [warning] |}) /\
  Board.convertCopperArea args st =
    {| Board.result := Return null;
       Board.final := Board.final (Board.getNetId (args !! 2%nat) st);
       Board.warnings := [warning] |} /\
  (forall name, args !! 2%nat = Some name -> name <> "" ->
     name ∈ Board.nets (Board.final (Board.getNetId (args !! 2%nat) st))).
Proof.
  intros Hparse Hband Hcoords warning.
  destruct (getNetId_returns (args !! 2%nat) st) as (netId & Hres & Hwarn).
  split; [|split].
  - intros objName parentCoords. rewrite (run_eta (Board.convertTrack _ _ _ _)).
    unfold Board.convertTrack. rewrite Hcoords.
    repeat (rewrite ?result_bind, ?final_bind, ?warnings_bind, ?Hres, ?Hwarn,
              ?(getLayerName_tolerated _ k _ Hparse Hband);
            cbn [Board.ret Board.result Board.final Board.warnings app]).
    reflexivity.
  - rewrite (run_eta (Board.convertCopperArea _ _)).
    unfold Board.convertCopperArea.
    repeat (rewrite ?result_bind, ?final_bind, ?warnings_bind, ?Hres, ?Hwarn,
              ?(getLayerName_tolerated _ k _ Hparse Hband);
            cbn [Board.ret Board.result Board.final Board.warnings app]).
    reflexivity.
  - intros name Hname Hne. rewrite Hname.
    destruct (getNetId_cases (Some name) st)
      as [(_ & _ & [Hnone | Hempty]) |
          [(s & [= <-] & _ & Hfound & _ & ->) | (s & [= <-] & _ & _ & _ & ->)]].
    + discriminate Hnone.
    + injection Hempty as ->. contradiction.
    + apply (list_elem_of_lookup_2 _ (Z.to_nat (indexOfFrom 0 (Board.nets st) name - 0))).
      apply indexOfFrom_lookup; [lia | exact Hfound].
    + cbn [Board.nets]. apply elem_of_app. right. apply elem_of_cons. left. reflexivity.
Qed.

(** A track of the net [VCC] on layer 100. *)
Lemma tolerated_layer_still_interns_the_net_witness :
  let args := ["1"; "100"; "VCC"; "4000 3000 4010 3000"; "gge6"; "0"] in
  let st := {| Board.nets := [""; "GND"]; Board.innerLayers := 0 |} in
  Board.convertTrack (env := Earlier.imports) args "segment" None st =
    {| Board.result := Return [];
       Board.final := {| Board.nets := [""; "GND"; "VCC"]; Board.innerLayers := 0 |};
       Board.warnings := ["Warning: unsupported layer id: 100"] |} /\
  "VCC" ∈ Board.nets (Board.final (Board.getNetId (Some "VCC") st)).
Proof.
  intros args st.
  destruct (tolerated_layer_still_interns_the_net (env := Earlier.imports)
              args 100 "4000 3000 4010 3000" st)
    as (Htrack & _ & Hnet); [reflexivity | lia | reflexivity |].
  split.
  - rewrite Htrack. reflexivity.
  - apply (Hnet "VCC"); [reflexivity | discriminate].
Defined.

(** ** The names of the layers *)

Section LayerNames.
Import Board Laws.

Lemma assoc_In {A} (table : list (string * A)) (key : string) (a : A) :
  assoc table key = Some a -> In (key, a) table.
Proof.
  induction table as [|[k v] rest IH]; simpl; [discriminate|].
  destruct (String.eqb k key) eqn:Hk.
  - apply String.eqb_eq in Hk. subst k. intros [= <-]. left. reflexivity.
  - intros Hrest. right. apply IH, Hrest.
Qed.

(** What the resolver can answer: a name of its table, under the key it
    was asked for, or the name of an inner layer. *)
Lemma getLayerName_names (id : option string) (st : IConversionState) (name : string) :
  result (getLayerName id st) = Return (Layer name) ->
  (lookupField layers id = Some name /\ In (showField id, name) layers) \/
  (lookupField layers id = None /\
   exists k, parseInt id = Some k /\ (21 <= k <= 50)%Z /\ name = innerLayerName (k - 20)).
Proof.
  unfold getLayerName, read.
  destruct (lookupField layers id) as [found|] eqn:Hstatic.
  - intros [= <-]. left. split; [reflexivity|]. apply assoc_In. exact Hstatic.
  - destruct (inherited (showField id)); [discriminate|].
    destruct (between 21 50 (parseInt id)) eqn:Hband.
    + apply between_inv in Hband. destruct Hband as (k & Hk & Hrange).
      rewrite Hk. intros [= <-]. right. split; [reflexivity|].
      exists k. repeat split; try lia.
    + destruct (between 99 199 (parseInt id)); discriminate.
Qed.

(** A test that every entry of the table and every inner layer pass is
    passed by whatever the resolver answers. *)
Lemma getLayerName_checked (check : string -> string -> bool) (inner : string -> bool)
    (id : option string) (st : IConversionState) (name : string) :
  forallb (fun entry => check (fst entry) (snd entry)) layers = true ->
  forallb (fun j => inner (innerLayerName j)) (seqZ 1 30) = true ->
  result (getLayerName id st) = Return (Layer name) ->
  (lookupField layers id = Some name /\ check (showField id) name = true) \/
  (lookupField layers id = None /\ between 21 50 (parseInt id) = true /\
   inner name = true).
Proof.
  intros Hstatic Hinner Hname.
  destruct (getLayerName_names id st name Hname)
    as [[Hfound Hin] | (Hnone & k & Hk & Hrange & ->)].
  - left. split; [exact Hfound|].
    rewrite forallb_forall in Hstatic. apply (Hstatic _ Hin).
  - right. split; [exact Hnone|]. split.
    + rewrite Hk. simpl. apply andb_true_intro. split; apply Z.leb_le; lia.
    + rewrite forallb_forall in Hinner. apply (Hinner (k - 20)%Z).
      apply list_elem_of_In, elem_of_seqZ. lia.
Qed.

End LayerNames.

(** [X12]: where a text goes.  [textLayer] has the effect of
    [getLayerName] on the state and its warnings.  When the resolver
    answers a name, [textLayer] answers that name, but for the name of a
    footprint (a text of type [N] inside a footprint): that one is taken
    off the silkscreen, [F.SilkS] to [F.Fab] and [B.SilkS] to [B.Fab],
    and left where it is on every other name of a layer; the side of the
    board is never changed, so a text is mirrored on the layers it was
    declared mirrored on.  When the resolver answers a member of
    [Object.prototype], the name of a footprint makes [textLayer] throw
    (the member has no method [replace]) and any other text gets the
    member.  [null] and a throw of the resolver are passed on. *)
Theorem textLayer_takes_names_off_the_silkscreen
    (layer : option string) (footprint isName : bool) (st : Board.IConversionState) :
  Board.final (Board.textLayer layer footprint isName st)
    = Board.final (Board.getLayerName layer st) /\
  Board.warnings (Board.textLayer layer footprint isName st)
    = Board.warnings (Board.getLayerName layer st) /\
  match Board.result (Board.getLayerName layer st) with
  | Return (Board.Layer name) =>
      let placed := if footprint && isName then Laws.offSilk name else name in
      Board.result (Board.textLayer layer footprint isName st)
        = Return (Board.Layer placed) /\
      firstChar placed = firstChar name /\
      (footprint && isName = true -> placed <> "F.SilkS" /\ placed <> "B.SilkS")
  | Return (Board.Member key) =>
      Board.result (Board.textLayer layer footprint isName st)
        = if footprint && isName then Throw (TypeError "layerName.replace")
          else Return (Board.Member key)
  | other => Board.result (Board.textLayer layer footprint isName st) = other
  end.
Proof.
  unfold Board.textLayer. rewrite final_bind, warnings_bind, result_bind.
  destruct (Board.result (Board.getLayerName layer st)) as [[name| |key]|e] eqn:Hname.
  - set (check := fun name =>
           String.eqb (replaceFirst (chars ".SilkS") ".Fab" name) (Laws.offSilk name) &&
           match firstChar (Laws.offSilk name), firstChar name with
           | Some a, Some b => Ascii.eqb a b
           | _, _ => false
           end &&
           negb (String.eqb (Laws.offSilk name) "F.SilkS") &&
           negb (String.eqb (Laws.offSilk name) "B.SilkS")).
    assert (Hcheck : check name = true).
    { destruct (getLayerName_checked (fun _ => check) check layer st name)
        as [[_ Hok] | (_ & _ & Hok)]; try exact Hok; try exact Hname;
        vm_compute; reflexivity. }
    unfold check in Hcheck.
    apply andb_prop in Hcheck. destruct Hcheck as [Hcheck Hb].
    apply andb_prop in Hcheck. destruct Hcheck as [Hcheck Hf].
    apply andb_prop in Hcheck. destruct Hcheck as [Hreplace Hside].
    apply String.eqb_eq in Hreplace.
    apply negb_true_iff, String.eqb_neq in Hf, Hb.
    destruct (footprint && isName);
      cbn [Board.ret Board.result Board.final Board.warnings]; rewrite app_nil_r.
    + split; [reflexivity|]. split; [reflexivity|].
      split; [rewrite Hreplace; reflexivity|]. split.
      * destruct (firstChar (Laws.offSilk name)) as [a|], (firstChar name) as [b|];
          try discriminate Hside.
        apply Ascii.eqb_eq in Hside. subst a. reflexivity.
      * intros _. split; assumption.
    + split; [reflexivity|]. split; [reflexivity|].
      split; [reflexivity|]. split; [reflexivity | discriminate].
  - cbn [Board.ret Board.result Board.final Board.warnings]. rewrite app_nil_r.
    repeat split.
  - destruct (footprint && isName);
      cbn [Board.ret Board.throw Board.result Board.final Board.warnings];
      rewrite app_nil_r; repeat split.
  - repeat split.
Qed.

(** [X13]: which layers are copper.  A name the resolver answers is
    never the empty string, so the test [!layerName] of the converters
    holds for [null] only; and it ends in [.Cu], which is what makes a
    track a [segment] that carries its net, exactly for the layer ids
    ['1'] and ['2'] and for the ids of the band 21-50. *)
Theorem resolved_layer_is_copper_on_1_2_and_the_inner_band
    (id : option string) (st : Board.IConversionState) (name : string) :
  Board.result (Board.getLayerName id st) = Return (Board.Layer name) ->
  name <> "" /\
  (Board.isCopper name = true <->
   id = Some "1" \/ id = Some "2" \/ Board.between 21 50 (parseInt id) = true).
Proof.
  intros Hname.
  set (check := fun key name =>
         negb (String.eqb name "") &&
         Bool.eqb (Board.isCopper name) (String.eqb key "1" || String.eqb key "2")).
  set (inner := fun name => negb (String.eqb name "") && Board.isCopper name).
  destruct (getLayerName_checked check inner id st name)
    as [[Hfound Hok] | (_ & Hband & Hok)]; try exact Hname;
    try (vm_compute; reflexivity).
  - unfold check in Hok. apply andb_prop in Hok. destruct Hok as [Hne Hcopper].
    apply negb_true_iff, String.eqb_neq in Hne. apply Bool.eqb_prop in Hcopper.
    split; [exact Hne|]. rewrite Hcopper.
    destruct (layers_not_banded id name Hfound) as [Hout _].
    destruct id as [key|]; cbn [showField].
    + rewrite orb_true_iff, !String.eqb_eq. split.
      * intros [-> | ->]; [left | right; left]; reflexivity.
      * intros [[= ->] | [[= ->] | Hin]]; [left | right |]; try reflexivity.
        rewrite Hin in Hout. discriminate Hout.
    + split; [discriminate|]. intros [Hk | [Hk | Hin]]; try discriminate.
  - unfold inner in Hok. apply andb_prop in Hok. destruct Hok as [Hne Hcopper].
    apply negb_true_iff, String.eqb_neq in Hne.
    split; [exact Hne|]. rewrite Hcopper. split; [|reflexivity].
    intros _. right. right. exact Hband.
Qed.

(** The layer 23 is the third inner layer. *)
Lemma resolved_layer_is_copper_on_1_2_and_the_inner_band_witness :
  let st := {| Board.nets := [""]; Board.innerLayers := 0 |} in
  Board.result (Board.getLayerName (Some "23") st) = Return (Board.Layer "In3.Cu") /\
  "In3.Cu" <> "" /\
  (Board.isCopper "In3.Cu" = true <->
   Some "23" = Some "1" \/ Some "23" = Some "2" \/
   Board.between 21 50 (parseInt (Some "23")) = true).
Proof.
  intros st.
  assert (Hrun : Board.result (Board.getLayerName (Some "23") st) = Return (Board.Layer "In3.Cu"))
    by (vm_compute; reflexivity).
  split; [exact Hrun|].
  apply (resolved_layer_is_copper_on_1_2_and_the_inner_band (Some "23") st "In3.Cu" Hrun).
Defined.

(** ** Rectangles *)

Section Rectangles.
Import Board Laws.
Local Open Scope R_scope.

Lemma Math_max_Fin (a b : R) : Math_max (Fin a) (Fin b) = Fin (Rmax a b).
Proof.
  unfold Math_max, lt, Rltb, Rmax.
  destruct (Rlt_dec a b), (Rle_dec a b); f_equal; lra.
Qed.

Lemma Math_min_Fin (a b : R) : Math_min (Fin a) (Fin b) = Fin (Rmin a b).
Proof.
  unfold Math_min, lt, Rltb, Rmin.
  destruct (Rlt_dec b a), (Rle_dec a b); f_equal; lra.
Qed.

Lemma near_Fin (a b : R) : near (Fin a) (Fin b) = Rltb (Rabs (a - b)) 0.01.
Proof. reflexivity. Qed.

Lemma near_same (a : R) : near (Fin a) (Fin a) = true.
Proof.
  rewrite near_Fin. unfold Rltb.
  destruct (Rlt_dec (Rabs (a - a)) 0.01) as [|Hno]; [reflexivity|].
  exfalso. apply Hno. replace (a - a) with 0 by lra. rewrite Rabs_R0. lra.
Qed.

(** Only real numbers are near each other. *)
Lemma near_inv (a b : number) :
  near a b = true -> exists p q, a = Fin p /\ b = Fin q /\ Rabs (p - q) < 0.01.
Proof.
  destruct a as [|sa|p], b as [|sb|q]; try discriminate.
  - destruct sa, sb; discriminate.
  - rewrite near_Fin. unfold Rltb.
    destruct (Rlt_dec (Rabs (p - q)) 0.01); [|discriminate].
    intros _. exists p, q. repeat split. assumption.
Qed.

Lemma floor_IZR_half (m : Z) : floor (IZR m + / 2) = m.
Proof.
  unfold floor.
  assert (Hup : (m + 1)%Z = up (IZR m + / 2)).
  { apply tech_up; rewrite plus_IZR; lra. }
  rewrite <- Hup. lia.
Qed.

Lemma floor_div (m q : Z) :
  (0 < q)%Z -> floor (IZR m / IZR q) = (m / q)%Z.
Proof.
  intros Hq. unfold floor.
  assert (Hq' : 0 < IZR q) by (apply IZR_lt; exact Hq).
  pose proof (Z.div_mod m q ltac:(lia)) as Hdiv.
  pose proof (Z.mod_pos_bound m q Hq) as Hmod.
  assert (Hm : IZR m = IZR q * IZR (m / q) + IZR (m mod q)).
  { rewrite <- mult_IZR, <- plus_IZR. f_equal. exact Hdiv. }
  assert (Hr0 : 0 <= IZR (m mod q)) by (apply IZR_le; lia).
  assert (Hr1 : IZR (m mod q) < IZR q) by (apply IZR_lt; lia).
  assert (Hquot : IZR m / IZR q = IZR (m / q) + IZR (m mod q) / IZR q).
  { rewrite Hm. field. lra. }
  assert (Hfrac0 : 0 <= IZR (m mod q) / IZR q).
  { apply Rmult_le_pos; [exact Hr0 | left; apply Rinv_0_lt_compat; exact Hq']. }
  assert (Hfrac1 : IZR (m mod q) / IZR q < 1).
  { apply (Rmult_lt_reg_r (IZR q)); [exact Hq'|].
    unfold Rdiv. rewrite Rmult_assoc, Rinv_l by lra. lra. }
  assert (Hup : (m / q + 1)%Z = up (IZR m / IZR q)).
  { apply tech_up; rewrite plus_IZR, Hquot; lra. }
  rewrite <- Hup. lia.
Qed.

(** The test [Math.round(Math.abs(rotation)) % 180 === 90] on a whole
    number of degrees. *)
Lemma quarter_turn (n : Z) :
  JS.eqb (rem (Math_round (Math_abs (Fin (IZR n)))) (ofZ 180)) (ofZ 90)
  = (Z.abs n mod 180 =? 90)%Z.
Proof.
  cbn [Math_abs]. rewrite <- abs_IZR. cbn [Math_round].
  rewrite floor_IZR_half. unfold rem, ofZ.
  rewrite Reqb_false by lra.
  assert (Hpos : 0 <= IZR (Z.abs n)) by (apply IZR_le; lia).
  assert (Htrunc : trunc (IZR (Z.abs n) / 180) = (Z.abs n / 180)%Z).
  { unfold trunc. rewrite Rltb_false.
    - apply floor_div. lia.
    - apply Rmult_le_pos; [exact Hpos | lra]. }
  rewrite Htrunc. cbn [JS.eqb].
  pose proof (Z.div_mod (Z.abs n) 180 ltac:(lia)) as Hdiv.
  assert (Hrem : IZR (Z.abs n) - 180 * IZR (Z.abs n / 180) = IZR (Z.abs n mod 180)).
  { rewrite <- mult_IZR, <- minus_IZR. f_equal. lia. }
  rewrite Hrem. unfold Reqb.
  destruct (Req_dec_T (IZR (Z.abs n mod 180)) 90) as [Heq | Hne].
  - apply eq_IZR in Heq. rewrite Heq. reflexivity.
  - symmetry. apply Z.eqb_neq. intros Heq. apply Hne. rewrite Heq. reflexivity.
Qed.

Lemma extent_of_two (a c : R) :
  Rmax a (Rmax c (Rmax c a)) - Rmin a (Rmin c (Rmin c a)) = Rabs (c - a).
Proof.
  unfold Rmax, Rmin, Rabs.
  repeat match goal with
         | |- context [Rle_dec ?x ?y] =>
             is_var x; is_var y; destruct (Rle_dec x y); cbv beta iota
         end;
    destruct (Rcase_abs (c - a)); lra.
Qed.

Lemma extent_of_pairs (a c : R) :
  Rmax a (Rmax a (Rmax c c)) - Rmin a (Rmin a (Rmin c c)) = Rabs (c - a).
Proof.
  unfold Rmax, Rmin, Rabs.
  repeat match goal with
         | |- context [Rle_dec ?x ?y] =>
             is_var x; is_var y; destruct (Rle_dec x y); cbv beta iota
         end;
    destruct (Rcase_abs (c - a)); lra.
Qed.

End Rectangles.

(** [X14]: rectangles among the polygons.  The four corners of a
    rectangle with its sides along the axes, given one after another in
    either sense, pass [isRectangle], and [rectangleSize] measures the
    rectangle: its extent along [x] and its extent along [y], in this
    order, or in the other order when the rotation, a whole number [n] of
    degrees, is an odd multiple of 90 ([|n| mod 180 = 90]).  Conversely a
    point list passes [isRectangle] only when it has exactly eight
    entries, all of them real numbers ([NaN] from an entry that did not
    parse never passes), with each corner within 0.01 of the next along
    one axis, the axes taking turns. *)
Theorem rectangle_is_recognised_and_measured (a b c d : R) (n : Z) :
  let quarter := (Z.abs n mod 180 =? 90)%Z in
  let along := Fin (Rabs (c - a)) in
  let across := Fin (Rabs (d - b)) in
  Board.isRectangle (Laws.cornersAlongX a b c d) = true /\
  Board.isRectangle (Laws.cornersAlongY a b c d) = true /\
  Board.rectangleSize (Laws.cornersAlongX a b c d) (Fin (IZR n))
    = (if quarter then (across, along) else (along, across)) /\
  Board.rectangleSize (Laws.cornersAlongY a b c d) (Fin (IZR n))
    = (if quarter then (across, along) else (along, across)) /\
  (forall points,
     Board.isRectangle points = true ->
     exists x1 y1 x2 y2 x3 y3 x4 y4 : R,
       points = [Fin x1; Fin y1; Fin x2; Fin y2; Fin x3; Fin y3; Fin x4; Fin y4] /\
       ((Rabs (x1 - x2) < 0.01 /\ Rabs (y2 - y3) < 0.01 /\
         Rabs (x3 - x4) < 0.01 /\ Rabs (y4 - y1) < 0.01) \/
        (Rabs (y1 - y2) < 0.01 /\ Rabs (x2 - x3) < 0.01 /\
         Rabs (y3 - y4) < 0.01 /\ Rabs (x4 - x1) < 0.01))%R).
Proof.
  intros quarter along across.
  assert (Hsub : forall p q, sub (Fin p) (Fin q) = Fin (p - q)) by reflexivity.
  split; [|split; [|split; [|split]]].
  - unfold Board.isRectangle, Laws.cornersAlongX.
    cbn [length Nat.eqb negb Board.item nth]. rewrite !near_same. apply orb_true_r.
  - unfold Board.isRectangle, Laws.cornersAlongY.
    cbn [length Nat.eqb negb Board.item nth]. rewrite !near_same. reflexivity.
  - unfold Board.rectangleSize, Laws.cornersAlongX, Board.max4, Board.min4.
    cbn [Board.item nth]. rewrite quarter_turn, !Math_max_Fin, !Math_min_Fin, !Hsub.
    rewrite extent_of_two, extent_of_pairs. reflexivity.
  - unfold Board.rectangleSize, Laws.cornersAlongY, Board.max4, Board.min4.
    cbn [Board.item nth]. rewrite quarter_turn, !Math_max_Fin, !Math_min_Fin, !Hsub.
    rewrite extent_of_two, extent_of_pairs. reflexivity.
  - intros points. unfold Board.isRectangle.
    destruct points as [|x1 [|y1 [|x2 [|y2 [|x3 [|y3 [|x4 [|y4 [|extra rest]]]]]]]]];
      try discriminate.
    cbn [length Nat.eqb negb Board.item nth].
    intros Hrect. apply orb_prop in Hrect.
    destruct Hrect as [Hrect | Hrect];
      apply andb_prop in Hrect; destruct Hrect as [Hrect H4];
      apply andb_prop in Hrect; destruct Hrect as [Hrect H3];
      apply andb_prop in Hrect; destruct Hrect as [H1 H2];
      apply near_inv in H1, H2, H3, H4;
      destruct H1 as (p1 & q1 & Ea1 & Eb1 & H1);
      destruct H2 as (p2 & q2 & Ea2 & Eb2 & H2);
      destruct H3 as (p3 & q3 & Ea3 & Eb3 & H3);
      destruct H4 as (p4 & q4 & Ea4 & Eb4 & H4);
      repeat match goal with
             | H : ?v = Fin _ |- _ => is_var v; subst v
             | H : Fin _ = Fin _ |- _ => injection H as H; subst
             end.
    + eexists _, _, _, _, _, _, _, _. split; [reflexivity|]. left. repeat split; assumption.
    + eexists _, _, _, _, _, _, _, _. split; [reflexivity|]. right. repeat split; assumption.
Qed.

(** ** Polygon pads *)

Section PolygonPads.
Import Board Laws.
Context {env : Imports}.

(** A point list of [n] entries gives a polygon of [ceil(n / 2)] points. *)
Lemma pointListToPolygon_length (points : list string) (parentCoords : option IParentTransform) :
  length (pointListToPolygon points parentCoords) = ((length points + 1) / 2)%nat.
Proof.
  remember (length points) as n eqn:Hn. revert points Hn.
  induction n as [n IH] using lt_wf_ind. intros [|a [|b rest]] Hn.
  - subst n. reflexivity.
  - subst n. reflexivity.
  - cbn [pointListToPolygon length] in *.
    rewrite (IH (length rest)) by (lia || reflexivity). subst n.
    replace (S (S (length rest)) + 1)%nat with (length rest + 1 + 1 * 2)%nat by lia.
    rewrite Nat.div_add by lia. lia.
Qed.

End PolygonPads.

(** [X15]: a polygon pad that is a rectangle.  A pad of shape [POLYGON]
    whose point list passes [isRectangle] is converted as a [rect] pad:
    its shape child is [rect], it has no [primitives] child, and its
    size is the one [rectangleSize] measures, the smaller extent first.
    A pad of shape [POLYGON] whose points do not pass is converted as a
    [custom] pad with one [gr_poly] primitive of [ceil(n / 2)] points for
    a point list of [n] entries, placed relative to the pad's own
    position and rotation. *)
Theorem polygon_pad_is_rect_or_custom {env : Board.Imports}
    (args : list string) (transform : Board.IParentTransform)
    (st : Board.IConversionState) (points : string) (items : list value) :
  args !! 0%nat = Some "POLYGON" ->
  args !! 9%nat = Some points ->
  Board.result (Board.convertPad args transform st) = Return (Arr items) ->
  let pointList := map (fun p => parseFloat (Str p)) (split " " points) in
  let rotation := parseFloat (ofField (args !! 10%nat)) in
  if Board.isRectangle pointList then
    let size := Board.rectangleSize pointList rotation in
    let swap := gt (fst size) (snd size) in
    items !! 3%nat = Some (Str "rect") /\
    items !! 9%nat = Some null /\
    items !! 5%nat =
      Some (Arr [Str "size";
                 Num (Math_max (Board.kiUnits (Num (if swap then snd size else fst size)))
                               (Fin 0.01));
                 Num (Math_max (Board.kiUnits (Num (if swap then fst size else snd size)))
                               (Fin 0.01))])
  else
    exists polygon,
      items !! 3%nat = Some (Str "custom") /\
      items !! 9%nat =
        Some (Arr [Str "primitives";
                   Arr [Str "gr_poly"; Arr (Str "pts" :: polygon);
                        Arr [Str "width"; Num (Fin 0.1)]]]) /\
      polygon =
        Board.pointListToPolygon (split " " points)
          (Some {| Board.origin :=
                     Board.kiCoords (ofField (args !! 1%nat)) (ofField (args !! 2%nat)) None;
                   Board.angle := Num rotation |}) /\
      length polygon = ((length (split " " points) + 1) / 2)%nat /\
      points <> "".
Proof.
  intros Hshape Hpoints Hrun pointList rotation.
  unfold Board.convertPad in Hrun. rewrite Hpoints, Hshape in Hrun.
  fold pointList rotation in Hrun.
  change (Board.isCustom (Some "POLYGON")) with true in Hrun.
  cbn [andb] in Hrun.
  destruct (Board.isRectangle pointList) eqn:Hrect.
  - change (Board.isCustom (Some "RECT")) with false in Hrun. cbn [andb] in Hrun.
    rewrite result_bind in Hrun.
    destruct (getNetId_returns (args !! 6%nat) st) as (netId & Hnet & _).
    rewrite Hnet in Hrun.
    destruct (Board.rectangleSize pointList rotation) as [actualWidth actualHeight].
    destruct (read Board.padLayers (args !! 5%nat)) as [ls| |]; try discriminate Hrun.
    cbn [Board.ret Board.result] in Hrun.
    pose proof (f_equal (fun v => match v with Return (Arr l) => l | _ => [] end) Hrun)
      as Hitems.
    cbv beta iota in Hitems. subst items. cbn [fst snd]. repeat split.
  - change (Board.isCustom (Some "POLYGON")) with true in Hrun. cbn [andb] in Hrun.
    destruct (String.eqb points "") eqn:Hempty; [discriminate Hrun|].
    apply String.eqb_neq in Hempty.
    rewrite result_bind in Hrun.
    destruct (getNetId_returns (args !! 6%nat) st) as (netId & Hnet & _).
    rewrite Hnet in Hrun.
    destruct (read Board.padLayers (args !! 5%nat)) as [ls| |]; try discriminate Hrun.
    cbn [Board.ret Board.result] in Hrun.
    pose proof (f_equal (fun v => match v with Return (Arr l) => l | _ => [] end) Hrun)
      as Hitems.
    cbv beta iota in Hitems. subst items.
    eexists. split; [reflexivity|]. split; [reflexivity|]. split; [reflexivity|].
    split; [apply pointListToPolygon_length | exact Hempty].
Qed.

(** A triangle on the front copper layer. *)
Lemma polygon_pad_is_rect_or_custom_witness :
  let args :=
    ["POLYGON"; "4005"; "3005"; "10"; "10"; "1"; "GND"; "1"; "0";
     "4000 3000 4010 3000 4005 3010"; "0"; "gge7"; "0"; ""; "Y"; "0"] in
  let transform :=
    {| Board.origin := {| Board.x := Fin 0; Board.y := Fin 0 |};
       Board.angle := Num (Fin 0) |} in
  let st := {| Board.nets := [""; "GND"]; Board.innerLayers := 0 |} in
  exists items polygon,
    Board.result (Board.convertPad (env := Earlier.imports) args transform st)
      = Return (Arr items) /\
    items !! 3%nat = Some (Str "custom") /\
    items !! 9%nat =
      Some (Arr [Str "primitives";
                 Arr [Str "gr_poly"; Arr (Str "pts" :: polygon);
                      Arr [Str "width"; Num (Fin 0.1)]]]) /\
    length polygon = 3%nat.
Proof.
  intros args transform st.
  assert (Hrect :
            Board.isRectangle
              (map (fun p => parseFloat (Str p)) (split " " "4000 3000 4010 3000 4005 3010"))
            = false) by reflexivity.
  assert (Hrun : exists items,
            Board.result (Board.convertPad (env := Earlier.imports) args transform st)
              = Return (Arr items)).
  { js_compute. eexists. reflexivity. }
  destruct Hrun as [items Hrun]. exists items.
  pose proof (polygon_pad_is_rect_or_custom (env := Earlier.imports) args transform st
                "4000 3000 4010 3000 4005 3010" items eq_refl eq_refl Hrun)
    as Hpad.
  cbv zeta in Hpad. rewrite Hrect in Hpad.
  destruct Hpad as (polygon & Hkind & Hprim & _ & Hlen & _).
  exists polygon. repeat split; assumption.
Defined.

(** ** The path of an arc *)

Section ArcPaths.
Import Board Laws.

Lemma span_spec (p : ascii -> bool) (l : list ascii) :
  l = fst (span p l) ++ snd (span p l) /\
  Forall (fun c => p c = true) (fst (span p l)) /\
  match snd (span p l) with
  | [] => True
  | c :: _ => p c = false
  end.
Proof.
  induction l as [|c l IH]; simpl.
  - repeat split. constructor.
  - destruct (p c) eqn:Hc.
    + destruct (span p l) as [a b]. simpl in *. destruct IH as (-> & Hall & Hstop).
      repeat split; [constructor; assumption | exact Hstop].
    + simpl. repeat split; [constructor | exact Hc].
Qed.

Lemma span_stop (p : ascii -> bool) (run rest : list ascii) :
  Forall (fun c => p c = true) run ->
  match rest with [] => True | c :: _ => p c = false end ->
  span p (run ++ rest) = (run, rest).
Proof.
  intros Hrun Hstop. induction Hrun as [|c run Hc _ IH]; simpl.
  - destruct rest as [|c rest]; [reflexivity|]. simpl. rewrite Hstop. reflexivity.
  - rewrite Hc, IH. reflexivity.
Qed.

Lemma dropWhile_spec (p : ascii -> bool) (l : list ascii) :
  exists skipped, l = skipped ++ dropWhile p l /\ Forall (fun c => p c = true) skipped.
Proof.
  induction l as [|c l IH]; simpl.
  - exists []. split; [reflexivity | constructor].
  - destruct (p c) eqn:Hc.
    + destruct IH as (skipped & Hl & Hall). exists (c :: skipped).
      split; [simpl; f_equal; exact Hl | constructor; assumption].
    + exists []. split; [reflexivity | constructor].
Qed.

Lemma chars_of_list (l : list ascii) : chars (string_of_list_ascii l) = l.
Proof. apply list_ascii_of_string_of_list_ascii. Qed.

(** The group a run of class characters gives: what is left of the run
    after the white space before it, but at least its last character. *)
Lemma captureGroup_spec (run : list ascii) :
  match captureGroup run with
  | Some g =>
      g <> "" /\
      exists skipped, run = skipped ++ chars g /\
        Forall (fun c => isWhite c = true) skipped
  | None => run = []
  end.
Proof.
  unfold captureGroup.
  destruct (dropWhile_spec isWhite run) as (skipped & Hrun & Hskipped).
  destruct (dropWhile isWhite run) as [|c g] eqn:Hdrop.
  - rewrite app_nil_r in Hrun. subst skipped.
    destruct run as [|c run] using rev_ind; [reflexivity|].
    rewrite last_snoc. cbn [fmap option_fmap option_map]. split; [discriminate|].
    exists run. split; [reflexivity|].
    apply Forall_app in Hskipped. destruct Hskipped as [Hskipped _]. exact Hskipped.
  - split.
    + simpl. discriminate.
    + exists skipped. rewrite chars_of_list. split; assumption.
Qed.

Lemma white_is_arcChar (c : ascii) : isWhite c = true -> isArcChar c = true.
Proof. intros Hc. unfold isArcChar. rewrite Hc. apply orb_true_r. Qed.

Lemma arcRun_group (run : list ascii) (g : string) :
  Forall (fun c => isArcChar c = true) run ->
  captureGroup run = Some g ->
  g <> "" /\ Forall (fun c => isArcChar c = true) (chars g) /\
  exists skipped, run = skipped ++ chars g /\ Forall (fun c => isWhite c = true) skipped.
Proof.
  intros Hrun Hg. pose proof (captureGroup_spec run) as Hspec. rewrite Hg in Hspec.
  destruct Hspec as (Hne & skipped & Hsplit & Hskipped).
  split; [exact Hne|]. split.
  - rewrite Hsplit in Hrun. apply Forall_app in Hrun. destruct Hrun as [_ Hrun]. exact Hrun.
  - exists skipped. split; assumption.
Qed.

Lemma matchArcPath_some (s g1 g2 : string) :
  matchArcPath s = Some (g1, g2) ->
  exists run1 run2,
    chars s = "M"%char :: run1 ++ "A"%char :: run2 /\
    Forall (fun c => isArcChar c = true) run1 /\
    Forall (fun c => isArcChar c = true) run2 /\
    captureGroup run1 = Some g1 /\ captureGroup run2 = Some g2.
Proof.
  unfold matchArcPath. destruct (chars s) as [|c l]; [discriminate|].
  destruct (Ascii.eqb_spec c "M") as [-> | Hc].
  2: { destruct c as [[] [] [] [] [] [] [] []]; try discriminate. contradiction. }
  change (match "M"%char with
          | "M"%char => ?a
          | _ => ?b
          end) with a.
  pose proof (span_spec isArcChar l) as Hspan1.
  destruct (span isArcChar l) as [run1 l1]. cbn [fst snd] in Hspan1.
  destruct Hspan1 as (-> & Hrun1 & _).
  destruct l1 as [|c1 l2]; [discriminate|].
  destruct (Ascii.eqb_spec c1 "A") as [-> | Hc1].
  2: { destruct c1 as [[] [] [] [] [] [] [] []]; try discriminate. contradiction. }
  pose proof (span_spec isArcChar l2) as Hspan2.
  destruct (span isArcChar l2) as [run2 l3]. cbn [fst snd] in Hspan2.
  destruct Hspan2 as (-> & Hrun2 & _).
  destruct l3 as [|c3 l3]; [|discriminate].
  rewrite app_nil_r.
  destruct (captureGroup run1) as [h1|] eqn:Hg1; [|discriminate].
  destruct (captureGroup run2) as [h2|] eqn:Hg2; [|discriminate].
  intros [= <- <-]. exists run1, run2. repeat split; assumption.
Qed.

Lemma matchArcPath_complete (s : string) :
  arcPath s -> exists g1 g2, matchArcPath s = Some (g1, g2).
Proof.
  intros (run1 & run2 & [Hne1 Hrun1] & [Hne2 Hrun2] & Hs).
  unfold matchArcPath. rewrite Hs.
  rewrite (span_stop isArcChar run1 ("A"%char :: run2) Hrun1 eq_refl).
  rewrite <- (app_nil_r run2).
  rewrite (span_stop isArcChar run2 [] Hrun2 I). rewrite ?app_nil_r.
  pose proof (captureGroup_spec run1) as Hg1.
  pose proof (captureGroup_spec run2) as Hg2.
  destruct (captureGroup run1) as [g1|]; [|contradiction].
  destruct (captureGroup run2) as [g2|]; [|contradiction].
  exists g1, g2. reflexivity.
Qed.

End ArcPaths.

(** [X16]: the paths of arcs the converter reads.  The pattern of
    [convertArc] matches a string exactly when it is [M], a run, [A] and
    a run to the end, each run being at least one character out of
    digits, minus signs, dots and white space: one move and one arc, in
    absolute coordinates, and nothing else.  The two groups it captures
    are the two runs less the white space each begins with; a group is
    never empty. *)
Theorem arc_pattern_matches_one_move_and_one_arc (s : string) :
  match Board.matchArcPath s with
  | Some (g1, g2) =>
      Laws.arcPath s /\
      exists skipped1 skipped2,
        chars s = "M"%char :: skipped1 ++ chars g1 ++ "A"%char :: skipped2 ++ chars g2 /\
        Forall (fun c => isWhite c = true) skipped1 /\
        Forall (fun c => isWhite c = true) skipped2 /\
        g1 <> "" /\ g2 <> "" /\
        Forall (fun c => Board.isArcChar c = true) (chars g1) /\
        Forall (fun c => Board.isArcChar c = true) (chars g2)
  | None => ~ Laws.arcPath s
  end.
Proof.
  destruct (Board.matchArcPath s) as [[g1 g2]|] eqn:Hmatch.
  - destruct (matchArcPath_some s g1 g2 Hmatch)
      as (run1 & run2 & Hs & Hrun1 & Hrun2 & Hg1 & Hg2).
    destruct (arcRun_group run1 g1 Hrun1 Hg1) as (Hne1 & Hall1 & skipped1 & Hsplit1 & Hwhite1).
    destruct (arcRun_group run2 g2 Hrun2 Hg2) as (Hne2 & Hall2 & skipped2 & Hsplit2 & Hwhite2).
    split.
    + exists run1, run2. split; [|split; [|exact Hs]].
      * split; [|exact Hrun1]. intros ->. discriminate Hg1.
      * split; [|exact Hrun2]. intros ->. discriminate Hg2.
    + exists skipped1, skipped2.
      split; [rewrite Hs, Hsplit1, Hsplit2, <- app_assoc; reflexivity|].
      repeat split; assumption.
  - intros Hpath. destruct (matchArcPath_complete s Hpath) as (g1 & g2 & Hsome).
    rewrite Hsome in Hmatch. discriminate Hmatch.
Qed.

Section ArcLayers.
Import Board Laws.
Context {env : Imports}.

(** A layer that resolves to a name resolves without a warning. *)
Lemma getLayerName_silent (id : option string) (st : IConversionState) (name : string) :
  result (getLayerName id st) = Return (Layer name) -> warnings (getLayerName id st) = [].
Proof.
  unfold getLayerName. destruct (read layers id); [reflexivity|reflexivity|].
  destruct (between 21 50 (parseInt id)); [reflexivity|].
  destruct (between 99 199 (parseInt id)); discriminate.
Qed.

End ArcLayers.

(** [X17]: an arc with any other path is left out.  When the layer of
    an arc resolves to a name and its path, with every run of commas and
    white space read as one space, is not one move and one arc in the
    sense of the pattern (a second arc, a line, a relative command, a
    closing [Z]), [convertArc] returns [null] after the one warning
    [Invalid arc path: ...]; it does not throw, and the state is as the
    layer resolver left it. *)
Theorem convertArc_leaves_out_other_paths {env : Board.Imports}
    (args : list string) (objName : string) (transform : option Board.IParentTransform)
    (st : Board.IConversionState) (path name : string) :
  args !! 3%nat = Some path ->
  Board.result (Board.getLayerName (args !! 1%nat) st) = Return (Board.Layer name) ->
  ~ Laws.arcPath (collapseSeparators path) ->
  Board.convertArc args objName transform st =
  {| Board.result := Return null;
     Board.final := Board.final (Board.getLayerName (args !! 1%nat) st);
     Board.warnings := ["Invalid arc path: " +:+ path] |}.
Proof.
  intros Hpath Hlayer Hother.
  assert (Hnone : Board.matchArcPath (collapseSeparators path) = None).
  { destruct (Board.matchArcPath (collapseSeparators path)) as [[g1 g2]|] eqn:Hmatch;
      [|reflexivity].
    exfalso. apply Hother.
    destruct (matchArcPath_some _ g1 g2 Hmatch)
      as (run1 & run2 & Hs & Hrun1 & Hrun2 & Hg1 & Hg2).
    exists run1, run2. split; [|split; [|exact Hs]].
    - split; [|exact Hrun1]. intros ->. discriminate Hg1.
    - split; [|exact Hrun2]. intros ->. discriminate Hg2. }
  rewrite (run_eta (Board.convertArc _ _ _ _)). unfold Board.convertArc.
  rewrite result_bind, final_bind, warnings_bind, Hlayer, Hpath, Hnone.
  rewrite (getLayerName_silent _ _ _ Hlayer).
  reflexivity.
Qed.

(** A path of two arcs on the front silkscreen. *)
Lemma convertArc_leaves_out_other_paths_witness :
  let path := "M4000,3000 A10,10 0 0 1 4010,3010 A5,5 0 0 1 4020,3020" in
  let args := ["1"; "3"; ""; path; ""; "gge8"; "0"] in
  let st := {| Board.nets := [""]; Board.innerLayers := 0 |} in
  Board.convertArc (env := Earlier.imports) args "gr_arc" None st =
  {| Board.result := Return null; Board.final := st;
     Board.warnings :=
       ["Invalid arc path: M4000,3000 A10,10 0 0 1 4010,3010 A5,5 0 0 1 4020,3020"] |}.
Proof.
  intros path args st.
  apply (convertArc_leaves_out_other_paths (env := Earlier.imports)
           args "gr_arc" None st path "F.SilkS").
  - reflexivity.
  - reflexivity.
  - intros Hpath. destruct (matchArcPath_complete _ Hpath) as (g1 & g2 & Hsome).
    vm_compute in Hsome. discriminate Hsome.
Defined.

(** ** The text of a record *)

Section Records.

Lemma splitOn_nonempty (p : ascii -> bool) (s : string) : splitOn p s <> [].
Proof.
  induction s as [|c s IH]; simpl; [discriminate|].
  destruct (p c); [discriminate|]. destruct (splitOn p s); discriminate.
Qed.

Lemma join_cons (sep a : string) (rest : list string) :
  rest <> [] -> join sep (a :: rest) = a +:+ sep +:+ join sep rest.
Proof. destruct rest; [contradiction | reflexivity]. Qed.

(** Joining the fields of a record with the separator it was split at
    gives the record back. *)
Lemma join_split (sep : ascii) (s : string) :
  join (String sep EmptyString) (split sep s) = s.
Proof.
  unfold split. induction s as [|c s IH]; [reflexivity|].
  cbn [splitOn].
  destruct (Ascii.eqb_spec sep c) as [<- | Hc].
  - rewrite join_cons by apply splitOn_nonempty. rewrite IH. reflexivity.
  - pose proof (splitOn_nonempty (Ascii.eqb sep) s) as Hne.
    destruct (splitOn (Ascii.eqb sep) s) as [|a rest]; [contradiction|].
    destruct rest as [|b rest].
    + simpl in *. rewrite IH. reflexivity.
    + change (join (String sep EmptyString) (String c a :: b :: rest))
        with (String c (a +:+ String sep EmptyString +:+ join (String sep EmptyString) (b :: rest))).
      f_equal. exact IH.
Qed.

End Records.

(** [X18]: the fields of a record make up its text.  Joining the fields
    [split] cuts a string into, with the separator between them, gives
    the string back; in particular the fields after the kind of a shape,
    which [convertLib] rejoins with ['~'] before it cuts the footprint at
    ['#@$'], make up the text of the shape after its kind: nothing of
    the record is lost or reordered on the way to the shapes of the
    footprint. *)
Theorem record_fields_make_up_its_text (shape kind : string) (args : list string) :
  split "~" shape = kind :: args ->
  join "~" (split "~" shape) = shape /\
  (args <> [] -> shape = kind +:+ "~" +:+ join "~" args) /\
  (args = [] -> shape = kind).
Proof.
  intros Hsplit. pose proof (join_split "~" shape) as Hjoin.
  split; [exact Hjoin|]. rewrite Hsplit in Hjoin. split.
  - intros Hargs. rewrite join_cons in Hjoin by exact Hargs. symmetry. exact Hjoin.
  - intros ->. symmetry. exact Hjoin.
Qed.

(** A footprint with one pad. *)
Lemma record_fields_make_up_its_text_witness :
  let shape := "LIB~4000~3000~package`R0603~0~~gge3~1#@$PAD~RECT~4010~3010~6~4~1~GND~1~0~~0~gge7" in
  shape = "LIB" +:+ "~" +:+
          join "~" ["4000"; "3000"; "package`R0603"; "0"; ""; "gge3"; "1#@$PAD"; "RECT";
                    "4010"; "3010"; "6"; "4"; "1"; "GND"; "1"; "0"; ""; "0"; "gge7"].
Proof.
  intros shape.
  destruct (record_fields_make_up_its_text shape "LIB"
              ["4000"; "3000"; "package`R0603"; "0"; ""; "gge3"; "1#@$PAD"; "RECT";
               "4010"; "3010"; "6"; "4"; "1"; "GND"; "1"; "0"; ""; "0"; "gge7"] eq_refl)
    as (_ & Hargs & _).
  apply Hargs. discriminate.
Defined.

(** ** A pad of its own that is dropped *)

Section DroppedPads.
Import Board Spec.

Lemma isCustom_polygon (shape : option string) :
  isCustom shape = true -> shape = Some "POLYGON".
Proof.
  unfold isCustom, read, lookupField, padShapes.
  destruct shape as [s|]; cbn [showField assoc].
  - destruct (String.eqb "ELLIPSE" s); [discriminate|].
    destruct (String.eqb "RECT" s); [discriminate|].
    destruct (String.eqb "OVAL" s); [discriminate|].
    destruct (String.eqb "POLYGON" s) eqn:Hs; [|destruct (inherited s); discriminate].
    apply String.eqb_eq in Hs. subst s. reflexivity.
  - cbv. discriminate.
Qed.

End DroppedPads.

(** [X19]: a pad of its own that is dropped leaves an empty footprint.
    A pad record at the top level of the board that is a polygon without
    points is dropped by [convertPad] with a warning, but
    [convertPadToVia] has no test for it: it still returns the footprint
    [AutoGenerated:Pad_...] it wraps such a pad in, with [null] in the
    place of the pad, and [convertShape] puts that footprint into the
    document. *)
Theorem dropped_pad_leaves_an_empty_footprint {env : Board.Imports}
    (args : list string) (parentCoords : option Board.IParentTransform)
    (st : Board.IConversionState) :
  Spec.droppedPolygon args = true ->
  exists items,
    Board.convertPadToVia args parentCoords st =
      {| Board.result := Return (Arr items); Board.final := st;
         Board.warnings := ["PAD " +:+ showField (args !! 11%nat) +:+
                            " is a polygon, but has no points defined"] |} /\
    length items = 9%nat /\
    items !! 0%nat = Some (Str "module") /\
    items !! 1%nat =
      Some (Str ("AutoGenerated:Pad_" +:+
                 Board.toFixed (Board.kiUnits (ofField (args !! 3%nat))) 2 +:+ "mm")) /\
    items !! 8%nat = Some null /\
    Laws.leftOut (Arr [Arr items]) = false.
Proof.
  intros Hdropped.
  assert (Hshape : fieldIs (args !! 0%nat) "ELLIPSE" = false).
  { unfold Spec.droppedPolygon in Hdropped. apply andb_prop in Hdropped.
    destruct Hdropped as [Hcustom _]. apply isCustom_polygon in Hcustom.
    rewrite Hcustom. reflexivity. }
  eexists. split.
  - rewrite (run_eta (Board.convertPadToVia _ _ _)). unfold Board.convertPadToVia.
    rewrite Hshape. cbn [negb].
    rewrite result_bind, final_bind, warnings_bind.
    rewrite (convertPad_dropped args _ st Hdropped).
    cbn [Board.ret Board.result Board.final Board.warnings app]. reflexivity.
  - repeat split.
Qed.

(** A polygon pad without points on the front copper layer. *)
Lemma dropped_pad_leaves_an_empty_footprint_witness :
  let args := ["POLYGON"; "4000"; "3000"; "10"; "10"; "1"; ""; "1"; "0"; ""; "0"; "gge1"] in
  let st := {| Board.nets := [""]; Board.innerLayers := 0 |} in
  exists items,
    Board.result (Board.convertPadToVia (env := Earlier.imports) args None st)
      = Return (Arr items) /\
    items !! 0%nat = Some (Str "module") /\
    items !! 8%nat = Some null.
Proof.
  intros args st.
  destruct (dropped_pad_leaves_an_empty_footprint (env := Earlier.imports) args None st)
    as (items & Hrun & _ & Hmodule & _ & Hpad & _); [reflexivity|].
  exists items. rewrite Hrun. repeat split; assumption.
Defined.

(** ** The nets the nodes refer to *)

Section NetReferences.
Import Board Laws.
Context {env : Imports}.

(** The id of a name is the place of the name in the table. *)
Lemma getNetId_lookup (s : string) (st : IConversionState) (i : Z) :
  s <> "" ->
  result (getNetId (Some s) st) = Return i ->
  (0 <= i)%Z /\ nets (final (getNetId (Some s) st)) !! Z.to_nat i = Some s.
Proof.
  intros Hne Hres.
  destruct (getNetId_cases (Some s) st)
    as [(_ & _ & [Hnone | Hempty]) |
        [(s' & [= <-] & _ & Hfound & Hres' & ->) | (s' & [= <-] & _ & _ & Hres' & ->)]].
  - discriminate Hnone.
  - injection Hempty as ->. contradiction.
  - rewrite Hres' in Hres. injection Hres as <-. split; [exact Hfound|].
    pose proof (indexOfFrom_lookup (nets st) s 0 ltac:(lia) Hfound) as Hat.
    rewrite Z.sub_0_r in Hat. exact Hat.
  - rewrite Hres' in Hres. injection Hres as <-. split; [lia|].
    cbn [nets]. rewrite Nat2Z.id. rewrite lookup_app_r by lia.
    rewrite Nat.sub_diag. reflexivity.
Qed.

Lemma stateAfter_app (before after : list string) (st : IConversionState) :
  stateAfter (before ++ after) st = stateAfter after (stateAfter before st).
Proof. unfold stateAfter. apply fold_left_app. Qed.

Lemma stateAfter_extends (shapeList : list string) (st : IConversionState) :
  Spec.extends st (stateAfter shapeList st).
Proof.
  revert st. induction shapeList as [|shape rest IH]; intros st.
  - apply extends_refl.
  - cbn [stateAfter fold_left]. eapply extends_trans; [apply growing_convertShape|].
    apply IH.
Qed.

Lemma netNodes_lookup (table : list string) (k : nat) (name : string) :
  table !! k = Some name ->
  netNodes table !! k = Some (Arr [Str "net"; Num (ofZ (Z.of_nat k)); Str name]).
Proof.
  intros Hk. unfold netNodes. rewrite list_lookup_imap, Hk. reflexivity.
Qed.

(** What [convertShape] does with a via. *)
Lemma convertShape_via_run (shape : string) (args : list string) (st : IConversionState) :
  split "~" shape = "VIA" :: args ->
  exists i,
    result (getNetId (args !! 3%nat) st) = Return i /\
    final (convertShape shape st) = final (getNetId (args !! 3%nat) st) /\
    result (convertShape shape st) =
      Return (Arr [Arr [Str "via";
                        kiAt (ofField (args !! 0%nat)) (ofField (args !! 1%nat)) undefined None;
                        Arr [Str "size"; Num (kiUnits (ofField (args !! 2%nat)))];
                        Arr [Str "drill";
                             Num (mul (kiUnits (ofField (args !! 4%nat))) (ofZ 2))];
                        Arr [Str "layers"; Str "F.Cu"; Str "B.Cu"];
                        Arr [Str "net"; Num (ofZ i)]]]).
Proof.
  intros Hsplit.
  destruct (getNetId_returns (args !! 3%nat) st) as (i & Hres & _).
  exists i. split; [exact Hres|].
  unfold convertShape. rewrite Hsplit.
  cbn [head tail default from_option Datatypes.id].
  change (String.eqb "VIA" "VIA") with true. cbv iota.
  unfold convertVia.
  rewrite !final_bind, !result_bind, Hres. cbn [ret result final].
  split; reflexivity.
Qed.

End NetReferences.

(** [X20]: the net id of a via points at the node of its net.  When
    [convertBoardToArray] returns, a via of the board on a net with a
    name was converted to a node that ends in [(net i)], and the net
    node at place [i] of the document, the [i]-th after the layer table
    counting from 0, is [(net i name)] with the very name of the via's
    net: names that shapes after the via intern do not move it. *)
Theorem via_net_id_points_at_its_net_node {env : Board.Imports}
    (input : Board.IEasyEDABoard) (heap : gmap Board.loc (list string)) (doc : value)
    (j : nat) (shape : string) (args : list string) (name : string) :
  Board.settled (Board.convertBoardToArray input heap) = Return doc ->
  Board.shape input !! j = Some shape ->
  split "~" shape = "VIA" :: args ->
  args !! 3%nat = Some name ->
  name <> "" ->
  exists (i : Z) (items : list value) (n : Z) (table objs : list value),
    Board.result
      (Board.convertShape shape
         (Laws.stateAfter (take j (Board.shape input)) (Laws.initial input heap)))
      = Return (Arr [Arr items]) /\
    items !! 5%nat = Some (Arr [Str "net"; Num (ofZ i)]) /\
    (0 <= i)%Z /\
    doc = Arr (Laws.preamble n ++ table ++ objs) /\
    table !! Z.to_nat i = Some (Arr [Str "net"; Num (ofZ i); Str name]).
Proof.
  intros Hdoc Hj Hsplit Hnet Hname.
  assert (Hrun : exists st,
            Laws.initial input heap = Laws.seeded st /\
            Board.settled (Board.convertBoardToArray input heap) =
              Board.result (Board.convertShapes (Board.shape input) st)).
  { unfold Board.convertBoardToArray, Laws.initial in *.
    destruct (Board.routerRule input) as [l|].
    - destruct (heap !! l) as [table|]; [|discriminate Hdoc].
      eexists. split; reflexivity.
    - eexists. split; reflexivity. }
  destruct Hrun as (st & -> & Hsettled). rewrite Hsettled in Hdoc.
  set (before := Laws.stateAfter (take j (Board.shape input)) (Laws.seeded st)).
  destruct (convertShape_via_run shape args before Hsplit) as (i & Hid & Hfinal & Hnode).
  rewrite Hnet in Hid, Hfinal.
  destruct (getNetId_lookup name before i Hname Hid) as [Hpos Hat].
  destruct (convertShapes_document _ _ _ Hdoc) as (objs & -> & _).
  destruct (convertShapes_run (Board.shape input) st) as (Hend & _).
  destruct (mapAsync_promises (Board.shape input) (Laws.seeded st))
    as (promises & _ & _ & Hstate & _).
  rewrite Hend, Hstate.
  eexists i, _, _, _, objs. split; [exact Hnode|].
  split; [reflexivity|]. split; [exact Hpos|]. split; [reflexivity|].
  replace (ofZ i) with (ofZ (Z.of_nat (Z.to_nat i))) by (rewrite Z2Nat.id by lia; reflexivity).
  apply netNodes_lookup.
  rewrite <- (take_drop_middle (Board.shape input) j shape Hj).
  rewrite stateAfter_app. cbn [Laws.stateAfter fold_left]. fold before.
  rewrite Hfinal.
  destruct (stateAfter_extends (drop (S j) (Board.shape input))
              (Board.final (Board.getNetId (Some name) before))) as [[more Hmore] _].
  unfold Laws.stateAfter in Hmore. rewrite Hmore.
  apply lookup_app_l_Some. exact Hat.
Qed.

(** A via on the net VCC, before a via that interns another net. *)
Lemma via_net_id_points_at_its_net_node_witness :
  let input :=
    {| Board.routerRule := None;
       Board.shape := ["VIA~4010~3010~2~VCC~0.5~gge5~0"; "VIA~4020~3010~2~SIG~0.5~gge6~0"] |} in
  exists doc (i : Z) (n : Z) (table objs : list value),
    Board.settled (Board.convertBoardToArray (env := Earlier.imports) input ∅) = Return doc /\
    doc = Arr (Laws.preamble n ++ table ++ objs) /\
    table !! Z.to_nat i = Some (Arr [Str "net"; Num (ofZ i); Str "VCC"]).
Proof.
  intros input.
  assert (Hrun : exists doc,
            Board.settled (Board.convertBoardToArray (env := Earlier.imports) input ∅)
              = Return doc).
  { unfold Board.convertBoardToArray. subst input. cbn [Board.routerRule Board.shape].
    cbn [Board.settled]. js_compute. eexists. reflexivity. }
  destruct Hrun as [doc Hdoc].
  destruct (via_net_id_points_at_its_net_node (env := Earlier.imports) input ∅ doc 0
              "VIA~4010~3010~2~VCC~0.5~gge5~0" ["4010"; "3010"; "2"; "VCC"; "0.5"; "gge5"; "0"]
              "VCC" Hdoc)
    as (i & items & n & table & objs & _ & _ & _ & Hlayout & Hat);
    try reflexivity; try discriminate.
  exists doc, i, n, table, objs. repeat split; assumption.
Defined.

(** ** The console *)

Section Console.
Import Board Laws.
Context {env : Imports}.

Lemma mapAsync_warnings (shapeList : list string) (st : IConversionState) :
  warnings (mapAsync convertShape shapeList st) = consoleAfter shapeList st.
Proof.
  revert st. induction shapeList as [|shape rest IH]; intros st; [reflexivity|].
  destruct (mapAsync_cons convertShape shape rest st) as (promises & _ & _ & _ & Hwarn).
  rewrite Hwarn, IH. reflexivity.
Qed.

End Console.

(** [X21]: what the run writes to the console.  The warnings of a run of
    [convertBoardToArray] are the warnings of its shapes, shape after
    shape in the order of the list, each shape with the warnings of its
    own conversion in the state the shapes before it have left.  The run
    adds none of its own and loses none: a board that is rejected has
    still written the warnings of all its shapes, those after the failing
    one too. *)
Theorem console_holds_the_warnings_of_every_shape {env : Board.Imports}
    (input : Board.IEasyEDABoard) (heap : gmap Board.loc (list string)) :
  (forall l, Board.routerRule input = Some l -> heap !! l <> None) ->
  Board.console (Board.convertBoardToArray input heap) =
  Laws.consoleAfter (Board.shape input) (Laws.initial input heap).
Proof.
  intros Hheap. unfold Board.convertBoardToArray, Laws.initial.
  destruct (Board.routerRule input) as [l|].
  - specialize (Hheap l eq_refl).
    destruct (heap !! l) as [table|]; [|contradiction].
    cbn [Board.console default from_option Datatypes.id].
    destruct (convertShapes_run (Board.shape input)
                {| Board.nets := table; Board.innerLayers := 0 |}) as (_ & -> & _).
    apply mapAsync_warnings.
  - cbn [Board.console].
    destruct (convertShapes_run (Board.shape input)
                {| Board.nets := []; Board.innerLayers := 0 |}) as (_ & -> & _).
    apply mapAsync_warnings.
Qed.

(** A track on the unknown layer 9 between two texts on layers the
    resolver tolerates: the board is rejected, both warnings are there. *)
Lemma console_holds_the_warnings_of_every_shape_witness :
  let input :=
    {| Board.routerRule := None;
       Board.shape := ["TEXT~L~4000~3000~0.8~0~0~100~~10~one~~~gge1~~0";
                       "TRACK~1~9~GND~4000 3000 4010 3000~gge2~0";
                       "TEXT~L~4000~3000~0.8~0~0~101~~10~two~~~gge3~~0"] |} in
  Board.settled (Board.convertBoardToArray (env := Earlier.imports) input ∅)
    = Throw (Error "Missing layer id: 9") /\
  Board.console (Board.convertBoardToArray (env := Earlier.imports) input ∅)
    = ["Warning: unsupported layer id: 100"; "Warning: unsupported layer id: 101"].
Proof.
  intros input. split.
  - unfold Board.convertBoardToArray. subst input. cbn [Board.routerRule Board.shape].
    cbn [Board.settled]. js_compute. reflexivity.
  - rewrite (console_holds_the_warnings_of_every_shape (env := Earlier.imports) input ∅).
    + js_compute. reflexivity.
    + intros l Hl. discriminate Hl.
Defined.

(** ** The earlier version: angles *)

(** [X23]: how far [kiAngle] normalizes.  [kiAngle] takes one full turn
    off an angle above 180 degrees and leaves every other angle as it
    is; it takes nothing modulo 360.  So its answer lies in (-180, 180]
    exactly for the angles in (-180, 540]: an angle of more than 540
    degrees stays above 180, and an angle of -180 or less stays as it
    is. *)
Theorem kiAngle_takes_off_one_turn_only (s : string) (A : R) :
  parseFloat (Str s) = Fin A ->
  exists B : R,
    Legacy.kiAngle (Str s) = Num (Fin B) /\
    (180 < A -> B = A - 360)%R /\
    (A <= 180 -> B = A)%R /\
    ((-180 < B <= 180) <-> (-180 < A <= 540))%R.
Proof.
  intros Hparse. unfold Legacy.kiAngle. rewrite Hparse.
  cbn [isNaN negb gt lt ofZ sub add neg]. unfold Rltb.
  destruct (Rlt_dec 180 A) as [Hgt | Hle].
  - exists (A - 360)%R. split; [do 2 f_equal; lra|].
    split; [reflexivity|]. split; [lra|]. split; lra.
  - exists A. split; [reflexivity|].
    split; [lra|]. split; [reflexivity|]. split; lra.
Qed.

(** Two full turns and a half. *)
Lemma kiAngle_takes_off_one_turn_only_witness :
  exists B : R,
    Legacy.kiAngle (Str "900") = Num (Fin B) /\ (B = 900 - 360)%R /\
    ~ (-180 < B <= 180)%R.
Proof.
  destruct (kiAngle_takes_off_one_turn_only "900" 900) as (B & Hval & Hdown & _ & Hrange);
    [js_compute; reflexivity|].
  exists B. split; [exact Hval|]. split; [apply Hdown; lra|].
  intros Hin. apply Hrange in Hin. lra.
Defined.

(** ** The earlier version: arcs *)

Section LegacyArcs.

Lemma containsChar_In (c : ascii) (s : string) :
  containsChar c s = true <-> In c (chars s).
Proof.
  induction s as [|d s IH]; simpl.
  - split; [discriminate | contradiction].
  - rewrite orb_true_iff, IH. split.
    + intros [Hc | Hin]; [left; apply Ascii.eqb_eq in Hc; congruence | right; exact Hin].
    + intros [Hc | Hin]; [left; apply Ascii.eqb_eq; congruence | right; exact Hin].
Qed.

(** Collapsing the separators of a path keeps every other character. *)
Lemma containsChar_collapse (c : ascii) (inRun : bool) (s : string) :
  isSep c = false ->
  containsChar c (collapseFrom inRun s) = containsChar c s.
Proof.
  intros Hc. assert (Hspace : Ascii.eqb c " " = false).
  { destruct (Ascii.eqb_spec c " ") as [-> | _]; [discriminate Hc | reflexivity]. }
  revert inRun. induction s as [|d s IH]; intros inRun; [reflexivity|].
  cbn [collapseFrom containsChar].
  destruct (isSep d) eqn:Hd.
  - assert (Hcd : Ascii.eqb c d = false).
    { destruct (Ascii.eqb_spec c d) as [-> | _]; [congruence | reflexivity]. }
    rewrite Hcd. destruct inRun; cbn [containsChar]; rewrite ?Hspace; apply IH.
  - cbn [containsChar]. rewrite IH. reflexivity.
Qed.

Lemma legacy_matchArcPath_some (s g1 g2 : string) :
  Legacy.matchArcPath s = Some (g1, g2) ->
  exists run1 run2,
    chars s = "M"%char :: run1 ++ "A"%char :: run2 /\
    Forall (fun c => Legacy.isArcChar c = true) run1 /\
    Forall (fun c => Legacy.isArcChar c = true) run2.
Proof.
  unfold Legacy.matchArcPath. destruct (chars s) as [|c l]; [discriminate|].
  destruct (Ascii.eqb_spec c "M") as [-> | Hc].
  2: { destruct c as [[] [] [] [] [] [] [] []]; try discriminate. contradiction. }
  change (match "M"%char with
          | "M"%char => ?a
          | _ => ?b
          end) with a.
  pose proof (span_spec Legacy.isArcChar l) as Hspan1.
  destruct (span Legacy.isArcChar l) as [run1 l1]. cbn [fst snd] in Hspan1.
  destruct Hspan1 as (-> & Hrun1 & _).
  destruct l1 as [|c1 l2]; [discriminate|].
  destruct (Ascii.eqb_spec c1 "A") as [-> | Hc1].
  2: { destruct c1 as [[] [] [] [] [] [] [] []]; try discriminate. contradiction. }
  pose proof (span_spec Legacy.isArcChar l2) as Hspan2.
  destruct (span Legacy.isArcChar l2) as [run2 l3]. cbn [fst snd] in Hspan2.
  destruct Hspan2 as (-> & Hrun2 & _).
  destruct l3 as [|c3 l3]; [|discriminate].
  rewrite app_nil_r. intros _.
  exists run1, run2. repeat split; assumption.
Qed.

End LegacyArcs.

(** [X24]: in the earlier version an arc with a minus sign in its path
    is not converted.  The pattern of its [convertArc] knows digits, dots
    and white space only, and the result of [exec] is destructured
    without a test: on a path with a negative coordinate the match is
    [null] and [convertArc] throws a [TypeError] (where the current
    version, whose pattern takes the minus sign, reads the path). *)
Theorem legacy_convertArc_throws_on_a_minus_sign (args : list string) (path : string) :
  args !! 3%nat = Some path ->
  containsChar "-" path = true ->
  Legacy.matchArcPath (collapseSeparators path) = None /\
  Legacy.convertArc args = Throw (TypeError "exec(...) is not iterable").
Proof.
  intros Hpath Hminus.
  assert (Hnone : Legacy.matchArcPath (collapseSeparators path) = None).
  { destruct (Legacy.matchArcPath (collapseSeparators path)) as [[g1 g2]|] eqn:Hmatch;
      [|reflexivity].
    exfalso.
    destruct (legacy_matchArcPath_some _ g1 g2 Hmatch) as (run1 & run2 & Hs & Hrun1 & Hrun2).
    unfold collapseSeparators in Hs.
    rewrite <- (containsChar_collapse "-" false path eq_refl) in Hminus.
    apply containsChar_In in Hminus. rewrite Hs in Hminus.
    rewrite Forall_forall in Hrun1, Hrun2.
    destruct Hminus as [Hm | Hminus]; [discriminate Hm|].
    apply in_app_or in Hminus. destruct Hminus as [Hin | [Ha | Hin]].
    - apply list_elem_of_In, Hrun1 in Hin. discriminate Hin.
    - discriminate Ha.
    - apply list_elem_of_In, Hrun2 in Hin. discriminate Hin. }
  split; [exact Hnone|].
  unfold Legacy.convertArc. rewrite Hpath, Hnone. reflexivity.
Qed.

(** An arc that ends left of the board origin. *)
Lemma legacy_convertArc_throws_on_a_minus_sign_witness :
  Legacy.convertArc ["1"; "3"; ""; "M10,20 A5,5 0 0 1 -10,20"; ""; "gge8"; "0"]
  = Throw (TypeError "exec(...) is not iterable").
Proof.
  destruct (legacy_convertArc_throws_on_a_minus_sign
              ["1"; "3"; ""; "M10,20 A5,5 0 0 1 -10,20"; ""; "gge8"; "0"]
              "M10,20 A5,5 0 0 1 -10,20" eq_refl eq_refl) as [_ Hthrow].
  exact Hthrow.
Defined.

(** ** The earlier version: the objects of a board *)

Section LegacyBoard.
Import Legacy.

Lemma mapShapes_returns (nets shapeList : list string) (converted : list value) :
  answer (mapShapes nets shapeList) = Return converted ->
  Forall2 (fun shape v => answer (convertShape shape nets) = Return v) shapeList converted /\
  output (mapShapes nets shapeList) =
    concat (map (fun shape => output (convertShape shape nets)) shapeList).
Proof.
  revert converted. induction shapeList as [|shape rest IH]; intros converted; simpl.
  - intros [= <-]. split; [constructor | reflexivity].
  - destruct (answer (convertShape shape nets)) as [v|e] eqn:Hshape; [|discriminate].
    cbn [answer output].
    destruct (answer (mapShapes nets rest)) as [vs|e] eqn:Hrest; [|discriminate].
    intros [= <-]. destruct (IH vs eq_refl) as [Hall Hout].
    split; [constructor; assumption | rewrite Hout; reflexivity].
Qed.

Lemma mapShapes_throws (nets before after : list string) (shape : string) (e : exn) :
  Forall (fun s => exists v, answer (convertShape s nets) = Return v) before ->
  answer (convertShape shape nets) = Throw e ->
  answer (mapShapes nets (before ++ shape :: after)) = Throw e /\
  output (mapShapes nets (before ++ shape :: after)) =
    concat (map (fun s => output (convertShape s nets)) before) ++
    output (convertShape shape nets).
Proof.
  intros Hbefore Hshape. induction Hbefore as [|s before [v Hs] _ IH]; simpl.
  - rewrite Hshape. cbn [answer output]. split; reflexivity.
  - rewrite Hs. cbn [answer output]. destruct IH as [-> ->].
    split; [reflexivity | apply app_assoc].
Qed.

Lemma flatten_keeps_null (converted : list value) :
  In null converted -> In null (flatten converted).
Proof.
  intros Hin. unfold flatten. apply in_concat.
  exists [null]. split; [|left; reflexivity].
  apply (in_map (fun v => match v with Arr items => items | _ => [v] end) _ _ Hin).
Qed.

End LegacyBoard.

(** [X25]: in the earlier version the first shape that throws ends the
    conversion.  The shapes are converted one after another; when one
    throws, the error is the error of the run and no shape after it is
    converted: the console holds the lines of the shapes before it and
    its own, and nothing else.  (The current version converts all the
    shapes before it rejects.) *)
Theorem legacy_conversion_stops_at_the_first_throw
    (routerRuleNets before after : list string) (shape : string) (e : exn) :
  let nets := "" :: routerRuleNets in
  Forall (fun s => exists v, Legacy.answer (Legacy.convertShape s nets) = Return v)
         before ->
  Legacy.answer (Legacy.convertShape shape nets) = Throw e ->
  Legacy.answer (Legacy.outputObjs routerRuleNets (before ++ shape :: after))
    = Throw e /\
  Legacy.output (Legacy.outputObjs routerRuleNets (before ++ shape :: after)) =
    concat (map (fun s => Legacy.output (Legacy.convertShape s nets)) before) ++
    Legacy.output (Legacy.convertShape shape nets).
Proof.
  intros nets Hbefore Hshape.
  destruct (mapShapes_throws nets before after shape e Hbefore Hshape) as [Hanswer Houtput].
  unfold Legacy.outputObjs. fold nets. cbn [Legacy.answer Legacy.output].
  rewrite Hanswer, Houtput. split; reflexivity.
Qed.

(** A shape of an unknown kind, a text on layer 15, and a second
    unknown shape that is never reached. *)
Lemma legacy_conversion_stops_at_the_first_throw_witness :
  Legacy.answer
    (Legacy.outputObjs ["GND"]
       (["CIRCLE~4000~3000~5~1~3~gge2"] ++
        "TEXT~L~4000~3000~0.8~0~0~15~~10~hello~~~gge9~~0" :: ["HOLE~4000~3000~2~gge4"]))
    = Throw (TypeError "layerName[0]") /\
  Legacy.output
    (Legacy.outputObjs ["GND"]
       (["CIRCLE~4000~3000~5~1~3~gge2"] ++
        "TEXT~L~4000~3000~0.8~0~0~15~~10~hello~~~gge9~~0" :: ["HOLE~4000~3000~2~gge4"]))
    = ["Unsupported shape CIRCLE"].
Proof.
  destruct (legacy_conversion_stops_at_the_first_throw ["GND"]
              ["CIRCLE~4000~3000~5~1~3~gge2"] ["HOLE~4000~3000~2~gge4"]
              "TEXT~L~4000~3000~0.8~0~0~15~~10~hello~~~gge9~~0"
              (TypeError "layerName[0]")) as [Hanswer Houtput].
  - constructor; [|constructor]. exists null. reflexivity.
  - reflexivity.
  - split; [exact Hanswer|]. rewrite Houtput. reflexivity.
Defined.

(** [X26]: the objects of a board in the earlier version.  When no shape
    throws, the objects are one node [(net i name)] for the empty name
    and for every net of the input, in this order, and then what the
    shapes were converted to, flattened by one level.  A shape of a kind
    the earlier version does not know is converted to [null], and
    [flatten] keeps it: a [null] is among the objects that are handed to
    the encoder.  (The current version filters them out.) *)
Theorem legacy_objects_keep_the_null_of_an_unknown_shape
    (routerRuleNets shapeList : list string) (objs : list value) :
  let nets := "" :: routerRuleNets in
  Legacy.answer (Legacy.outputObjs routerRuleNets shapeList) = Return objs ->
  exists converted,
    Forall2 (fun shape v =>
               Legacy.answer (Legacy.convertShape shape nets) = Return v)
            shapeList converted /\
    objs =
      Arr [Str "net"; Num (ofZ 0); Str ""] ::
      imap (fun idx net => Arr [Str "net"; Num (ofZ (Z.of_nat (S idx))); Str net])
           routerRuleNets ++
      Legacy.flatten converted /\
    (forall shape,
       In shape shapeList ->
       Legacy.answer (Legacy.convertShape shape nets) = Return null ->
       In null objs).
Proof.
  intros nets. unfold Legacy.outputObjs. fold nets. cbn [Legacy.answer].
  destruct (Legacy.answer (Legacy.mapShapes nets shapeList)) as [converted|e] eqn:Hmap;
    [|discriminate].
  intros [= <-]. exists converted.
  destruct (mapShapes_returns nets shapeList converted Hmap) as [Hall _].
  split; [exact Hall|]. split; [reflexivity|].
  intros shape Hin Hnull.
  right. apply in_or_app. right. apply flatten_keeps_null.
  clear Hmap. induction Hall as [|s v rest vs Hs _ IH]; [contradiction|].
  destruct Hin as [-> | Hin].
  - rewrite Hnull in Hs. injection Hs as <-. left. reflexivity.
  - right. apply IH, Hin.
Qed.

(** A via and a top-level pad, a kind the earlier version does not know. *)
Lemma legacy_objects_keep_the_null_of_an_unknown_shape_witness :
  exists objs,
    Legacy.answer
      (Legacy.outputObjs ["GND"]
         ["VIA~4010~3010~2~GND~0.5~gge5~0"; "PAD~ELLIPSE~4000~3000~6~6~11~GND~1~0.5"])
      = Return objs /\
    In null objs.
Proof.
  assert (Hrun : exists objs,
            Legacy.answer
              (Legacy.outputObjs ["GND"]
                 ["VIA~4010~3010~2~GND~0.5~gge5~0"; "PAD~ELLIPSE~4000~3000~6~6~11~GND~1~0.5"])
            = Return objs).
  { js_compute. eexists. reflexivity. }
  destruct Hrun as [objs Hrun]. exists objs. split; [exact Hrun|].
  destruct (legacy_objects_keep_the_null_of_an_unknown_shape _ _ _ Hrun)
    as (converted & _ & _ & Hnull).
  apply (Hnull "PAD~ELLIPSE~4000~3000~6~6~11~GND~1~0.5").
  - right. left. reflexivity.
  - reflexivity.
Defined.

(** ** The earlier version: texts *)

Section LegacyTexts.
Import Legacy.

Lemma mapShapes_aborts (nets shapeList : list string) (shape : string) :
  In shape shapeList ->
  isThrow (answer (convertShape shape nets)) = true ->
  isThrow (answer (mapShapes nets shapeList)) = true.
Proof.
  intros Hin Hthrow. induction shapeList as [|s rest IH]; [contradiction|].
  cbn [mapShapes].
  destruct (answer (convertShape s nets)) as [v|e] eqn:Hs; [|reflexivity].
  cbn [answer]. destruct Hin as [-> | Hin].
  - rewrite Hs in Hthrow. discriminate Hthrow.
  - specialize (IH Hin). destruct (answer (mapShapes nets rest)); [discriminate IH | reflexivity].
Qed.

Lemma forEach_aborts {A B} (body : A -> logged (list B)) (l : list A) (a : A) :
  In a l ->
  isThrow (answer (body a)) = true ->
  isThrow (answer (forEach body l)) = true.
Proof.
  intros Hin Hthrow. induction l as [|b rest IH]; [contradiction|].
  cbn [forEach].
  destruct (answer (body b)) as [v|e] eqn:Hb; [|reflexivity].
  cbn [answer]. destruct Hin as [-> | Hin].
  - rewrite Hb in Hthrow. discriminate Hthrow.
  - specialize (IH Hin). destruct (answer (forEach body rest)); [discriminate IH | reflexivity].
Qed.

(** A text on a layer the table reads [undefined] for. *)
Lemma convertText_unknown_layer (args : list string) (objName : string)
    (parentCoords : option Legacy.ICoordinates) :
  read Legacy.layers (args !! 6%nat) = Missing ->
  convertText args objName parentCoords =
  Throw (TypeError (if String.eqb objName "fp_text" && fieldIs (args !! 0%nat) "N"
                    then "layerName.replace" else "layerName[0]")).
Proof.
  intros Hlayer. unfold convertText, textLayer, readName. rewrite Hlayer.
  destruct (String.eqb objName "fp_text" && fieldIs (args !! 0%nat) "N"); reflexivity.
Qed.

Lemma convertShape_text (shape : string) (args nets : list string) :
  split "~" shape = "TEXT" :: args ->
  answer (convertShape shape nets) =
  match convertText args "gr_text" None with
  | Return v => Return (Arr [v])
  | Throw e => Throw e
  end.
Proof. intros Hsplit. unfold convertShape. rewrite Hsplit. reflexivity. Qed.

Lemma convertLibShape_text (nets : list string) (coordinates : Legacy.ICoordinates)
    (sub : string) (args : list string) :
  split "~" sub = "TEXT" :: args ->
  answer (convertLibShape nets coordinates sub) =
  one (convertText args "fp_text" (Some coordinates)).
Proof. intros Hsplit. unfold convertLibShape. rewrite Hsplit. reflexivity. Qed.

Lemma convertShape_lib (shape : string) (libArgs nets : list string) :
  split "~" shape = "LIB" :: libArgs ->
  isThrow (answer (convertLib libArgs nets)) = true ->
  isThrow (answer (convertShape shape nets)) = true.
Proof.
  intros Hsplit Hthrow. unfold convertShape. rewrite Hsplit.
  cbn [head tail default from_option Datatypes.id].
  change (String.eqb "LIB" "VIA") with false. change (String.eqb "LIB" "TRACK") with false.
  change (String.eqb "LIB" "TEXT") with false. change (String.eqb "LIB" "ARC") with false.
  change (String.eqb "LIB" "COPPERAREA") with false.
  change (String.eqb "LIB" "LIB") with true. cbv iota. cbn [answer].
  destruct (answer (convertLib libArgs nets)); [discriminate Hthrow | reflexivity].
Qed.

End LegacyTexts.

(** [X27]: in the earlier version a text on a layer the layer table
    reads [undefined] for (an id that is no key of the table and names
    no member of [Object.prototype]) stops the board.  [convertText]
    throws a [TypeError] on it, on [undefined.replace] for the name of a
    footprint and on [layerName[0]] for every other text, and nothing
    catches it: a board that holds such a text, at its top level or
    inside a footprint, is not converted.  The ids 11 and 15, which the
    current version knows, are such ids. *)
Theorem legacy_text_on_an_unknown_layer_stops_the_board
    (routerRuleNets shapeList args : list string) (shape : string) :
  In shape shapeList ->
  read Legacy.layers (args !! 6%nat) = Missing ->
  (forall objName parentCoords,
     Legacy.convertText args objName parentCoords =
     Throw (TypeError (if String.eqb objName "fp_text" && fieldIs (args !! 0%nat) "N"
                       then "layerName.replace" else "layerName[0]"))) /\
  (split "~" shape = "TEXT" :: args ->
   isThrow (Legacy.answer (Legacy.outputObjs routerRuleNets shapeList)) = true) /\
  (forall libArgs sub,
     split "~" shape = "LIB" :: libArgs ->
     In sub (tail (splitStr "#@$" (join "~" libArgs))) ->
     split "~" sub = "TEXT" :: args ->
     isThrow (Legacy.answer (Legacy.outputObjs routerRuleNets shapeList)) = true) /\
  read Legacy.layers (Some "11") = Missing /\
  read Legacy.layers (Some "15") = Missing.
Proof.
  intros Hin Hlayer.
  assert (Hboard : isThrow (Legacy.answer
                              (Legacy.convertShape shape ("" :: routerRuleNets))) = true ->
                   isThrow (Legacy.answer
                              (Legacy.outputObjs routerRuleNets shapeList)) = true).
  { intros Hshape. unfold Legacy.outputObjs. cbn [Legacy.answer].
    pose proof (mapShapes_aborts ("" :: routerRuleNets) shapeList shape Hin Hshape) as Hmap.
    destruct (Legacy.answer (Legacy.mapShapes ("" :: routerRuleNets) shapeList));
      [discriminate Hmap | reflexivity]. }
  split; [|split; [|split; [|split; reflexivity]]].
  - intros objName parentCoords. apply convertText_unknown_layer, Hlayer.
  - intros Hsplit. apply Hboard.
    rewrite (convertShape_text shape args _ Hsplit).
    rewrite (convertText_unknown_layer args "gr_text" None Hlayer). reflexivity.
  - intros libArgs sub Hsplit Hsub Htext. apply Hboard.
    apply (convertShape_lib shape libArgs _ Hsplit).
    unfold Legacy.convertLib. cbn [Legacy.answer].
    match goal with
    | |- context [Legacy.forEach ?body ?l] =>
        pose proof (forEach_aborts body l sub Hsub) as Hloop
    end.
    rewrite (convertLibShape_text _ _ sub args Htext) in Hloop.
    rewrite (convertText_unknown_layer args "fp_text" _ Hlayer) in Hloop.
    specialize (Hloop eq_refl).
    destruct (Legacy.answer (Legacy.forEach _ _)); [discriminate Hloop | reflexivity].
Qed.

(** A board with a via and a text on layer 15. *)
Lemma legacy_text_on_an_unknown_layer_stops_the_board_witness :
  isThrow
    (Legacy.answer
       (Legacy.outputObjs ["GND"]
          ["VIA~4010~3010~2~GND~0.5~gge5~0";
           "TEXT~L~4000~3000~0.8~0~0~15~~10~hello~~~gge9~~0"])) = true.
Proof.
  destruct (legacy_text_on_an_unknown_layer_stops_the_board ["GND"]
              ["VIA~4010~3010~2~GND~0.5~gge5~0";
               "TEXT~L~4000~3000~0.8~0~0~15~~10~hello~~~gge9~~0"]
              ["L"; "4000"; "3000"; "0.8"; "0"; "0"; "15"; ""; "10"; "hello"; ""; ""; "gge9";
               ""; "0"]
              "TEXT~L~4000~3000~0.8~0~0~15~~10~hello~~~gge9~~0")
    as (_ & Htop & _).
  - right. left. reflexivity.
  - reflexivity.
  - apply Htop. reflexivity.
Defined.

(** ** Records on a layer named after a member of [Object.prototype] *)

Section InheritedLayers.
Import Board.
Context {env : Imports}.

(** The loop of [convertTrack] has a turn exactly when the coordinate
    list has three elements or more. *)
Lemma pointPairs_nil {A} (f : value -> value -> value -> value -> A)
    (coordList : list string) :
  pointPairs f coordList = [] <-> (length coordList < 3)%nat.
Proof.
  destruct coordList as [|a [|b [|c rest]]]; simpl; split; intros H;
    try reflexivity; try lia; try discriminate H.
Qed.

Lemma getLayerName_member (id key : string) (st : IConversionState) :
  inherited key = true -> id = key ->
  getLayerName (Some id) st = ret (Member key) st.
Proof. intros Hkey ->. apply (getLayerName_inherited (Some key) st Hkey). Qed.

End InheritedLayers.

(** [X28]: what becomes of a record on a layer id that names a member
    of [Object.prototype].  The resolver hands the member out, and the
    converters go on with it as with the name of a layer.  A circle is
    converted, with the member as its layer.  A text is converted, with
    the member as its layer and without mirroring, unless it is the name
    of a footprint, on which [textLayer] throws.  A track throws when
    [isCopper] is asked about the member: for a track of the board at
    once, for a track of a footprint in the first turn of its loop, so
    that one with fewer than three coordinates still gives no node and
    no throw.  Nothing is written to the console. *)
Theorem record_on_an_inherited_layer {env : Board.Imports}
    (args : list string) (st : Board.IConversionState) (key : string) :
  inherited key = true ->
  (args !! 4%nat = Some key ->
   forall type parentCoords,
     exists center end_ width,
       Board.convertCircle args type parentCoords st =
       {| Board.result :=
            Return (Arr [Str type; center; end_; Arr [Str "layer"; Proto key]; width]);
          Board.final := st;
          Board.warnings := [] |}) /\
  (args !! 6%nat = Some key ->
   forall objName parentCoords,
     Board.final (Board.convertText args objName parentCoords st) = st /\
     Board.warnings (Board.convertText args objName parentCoords st) = [] /\
     if String.eqb objName "fp_text" && fieldIs (args !! 0%nat) "N"
     then Board.result (Board.convertText args objName parentCoords st)
          = Throw (TypeError "layerName.replace")
     else exists items font,
            Board.result (Board.convertText args objName parentCoords st)
            = Return (Arr items) /\
            items !! 4%nat = Some (Arr [Str "layer"; Proto key]) /\
            items !! 6%nat =
            Some (Arr [Str "effects"; font; Arr [Str "justify"; Str "left"; null]])) /\
  (args !! 1%nat = Some key ->
   forall coords parentCoords,
     args !! 3%nat = Some coords ->
     Board.result (Board.convertTrack args "segment" parentCoords st)
     = Throw (TypeError "layerName.endsWith") /\
     Board.result (Board.convertTrack args "fp_line" parentCoords st)
     = (if (length (split " " coords) <? 3)%nat then Return []
        else Throw (TypeError "layerName.endsWith")) /\
     Board.warnings (Board.convertTrack args "segment" parentCoords st) = [] /\
     Board.warnings (Board.convertTrack args "fp_line" parentCoords st) = []).
Proof.
  intros Hkey. split; [|split].
  - intros Hlayer type parentCoords. unfold Board.convertCircle. rewrite Hlayer.
    rewrite (run_eta (Board.bind _ _ st)).
    rewrite result_bind, final_bind, warnings_bind.
    rewrite (getLayerName_member key key st Hkey eq_refl).
    cbn [Board.ret Board.result Board.final Board.warnings Board.ofLayer app].
    eexists _, _, _. reflexivity.
  - intros Hlayer objName parentCoords.
    assert (Htext : forall footprint isName,
              Board.textLayer (Some key) footprint isName st =
              if footprint && isName
              then Board.throw (TypeError "layerName.replace") st
              else Board.ret (Board.Member key) st).
    { intros footprint isName. unfold Board.textLayer, Board.bind.
      rewrite (getLayerName_member key key st Hkey eq_refl).
      cbn [Board.ret Board.result Board.final Board.warnings app].
      destruct (footprint && isName); reflexivity. }
    unfold Board.convertText, Board.bind. rewrite Hlayer, Htext.
    destruct (String.eqb objName "fp_text" && fieldIs (args !! 0%nat) "N");
      cbn [Board.ret Board.throw Board.result Board.final Board.warnings Board.ofLayer
           Board.firstOf app].
    + repeat split.
    + split; [reflexivity|]. split; [reflexivity|].
      eexists _, _. split; [reflexivity|]. split; reflexivity.
  - intros Hlayer coords parentCoords Hcoords.
    assert (Hrun : forall objName,
              Board.result (Board.convertTrack args objName parentCoords st) =
              (if String.eqb objName "segment" then Throw (TypeError "layerName.endsWith")
               else match pointPairs (fun _ _ _ _ => tt) (split " " coords) with
                    | [] => Return []
                    | _ :: _ => Throw (TypeError "layerName.endsWith")
                    end) /\
              Board.warnings (Board.convertTrack args objName parentCoords st) = []).
    { intros objName. unfold Board.convertTrack. rewrite Hlayer, Hcoords.
      rewrite result_bind, warnings_bind.
      destruct (getNetId_returns (args !! 2%nat) st) as (netId & -> & ->).
      rewrite result_bind, warnings_bind.
      cbn [Board.ret Board.result Board.final Board.warnings app].
      rewrite result_bind, warnings_bind.
      rewrite (getLayerName_member key key _ Hkey eq_refl).
      cbn [Board.ret Board.result Board.final Board.warnings app].
      destruct (String.eqb objName "segment"); [split; reflexivity|].
      destruct (pointPairs _ _); split; reflexivity. }
    destruct (Hrun "segment") as [Hsegment Hquiet].
    destruct (Hrun "fp_line") as [Hline Hquiet'].
    split; [exact Hsegment|]. split; [|split; assumption].
    rewrite Hline. change (String.eqb "fp_line" "segment") with false. cbv iota.
    destruct (pointPairs (fun _ _ _ _ => tt) (split " " coords)) as [|turn turns] eqn:Hturns.
    + apply pointPairs_nil in Hturns. apply Nat.ltb_lt in Hturns. rewrite Hturns.
      reflexivity.
    + assert (Hlong : (length (split " " coords) <? 3)%nat = false).
      { apply Nat.ltb_ge. apply Nat.nlt_ge. intros Hshort.
        apply (pointPairs_nil (fun _ _ _ _ => tt)) in Hshort. congruence. }
      rewrite Hlong. reflexivity.
Qed.

(** A circle and a track of the board on the layer ["constructor"]. *)
Lemma record_on_an_inherited_layer_witness :
  let st := {| Board.nets := [""]; Board.innerLayers := 0 |} in
  (exists center end_ width,
     Board.result
       (Board.convertCircle (env := Earlier.imports)
          ["4000"; "3000"; "10"; "1"; "constructor"; "gge1"] "gr_circle" None st)
     = Return (Arr [Str "gr_circle"; center; end_;
                    Arr [Str "layer"; Proto "constructor"]; width])) /\
  Board.result
    (Board.convertTrack (env := Earlier.imports)
       ["1"; "constructor"; ""; "4000 3000 4010 3000"; "gge2"; "0"] "segment" None st)
  = Throw (TypeError "layerName.endsWith").
Proof.
  intros st. split.
  - destruct (record_on_an_inherited_layer (env := Earlier.imports)
                ["4000"; "3000"; "10"; "1"; "constructor"; "gge1"] st "constructor" eq_refl)
      as (Hcircle & _).
    destruct (Hcircle eq_refl "gr_circle" None) as (center & end_ & width & Hrun).
    exists center, end_, width. rewrite Hrun. reflexivity.
  - destruct (record_on_an_inherited_layer (env := Earlier.imports)
                ["1"; "constructor"; ""; "4000 3000 4010 3000"; "gge2"; "0"] st
                "constructor" eq_refl)
      as (_ & _ & Htrack).
    destruct (Htrack eq_refl "4000 3000 4010 3000" None eq_refl) as (Hsegment & _).
    exact Hsegment.
Defined.
